(** * Hybrid study-plan storage: a shallow embedding of
    [src/lib/study-plan-storage.ts] (class [StudyPlanStorage]).

    The module runs in the browser (['use client']): [window] and
    [localStorage] exist and [localStorage.setItem] succeeds.  Strings are
    sequences of code units below 256.  [JSON.parse (JSON.stringify v)] is
    [v] for the plain records and arrays the module stores.  An instant
    ([Date.now()], and the instant that [new Date().toISOString()] renders)
    is an integer number of milliseconds.

    Numbers come in two models.  In [Js] a finite JavaScript number is the
    rational it denotes and the arithmetic is exact, [NaN] kept apart; this
    is the arithmetic of [StudyPlanStorage.getStats].  In [Double] a number
    is an IEEE 754 double and every operation rounds as the engine does;
    this is the arithmetic of [DoubleStats.getStats], on which the
    statements about the progress values rest. *)

From Stdlib Require Import Ascii QArith Qpower Qround Lqa.
From Stdlib Require Import PrimFloat SpecFloat FloatOps.
From stdpp Require Import base numbers list strings pretty gmap sorting.

Open Scope Z_scope.

(** ** JavaScript strings *)

Module Js.

(** [WhiteSpace] and [LineTerminator] code units below 256:
    TAB, LF, VT, FF, CR, SP and NBSP. *)
Definition is_space (c : ascii) : bool :=
  let n := nat_of_ascii c in
  ((9 <=? n)%nat && (n <=? 13)%nat) || (n =? 32)%nat || (n =? 160)%nat.

(** [s.trimStart()] *)
Fixpoint trimStart (s : string) : string :=
  match s with
  | EmptyString => EmptyString
  | String c r => if is_space c then trimStart r else s
  end.

(** [s.trimEnd()] *)
Fixpoint trimEnd (s : string) : string :=
  match s with
  | EmptyString => EmptyString
  | String c r =>
      match trimEnd r with
      | EmptyString => if is_space c then EmptyString else String c EmptyString
      | r' => String c r'
      end
  end.

(** [s.trim()] *)
Definition trim (s : string) : string := trimEnd (trimStart s).

(** [s.split(' ')[0]]: the text before the first space, the whole string
    when it has none. *)
Fixpoint split_space_0 (s : string) : string :=
  match s with
  | EmptyString => EmptyString
  | String c r =>
      if Ascii.eqb c " "%char then EmptyString else String c (split_space_0 r)
  end.

(** [s.substr(from, len)] for in-range non-negative arguments; both ends
    are clipped to the string. *)
Definition substr (from len : nat) (s : string) : string :=
  String.substring from len s.

(** A truthy string is a non-empty one: [s || d]. *)
Definition or_else (s d : string) : string :=
  match s with EmptyString => d | _ => s end.

(** ** JavaScript numbers *)

Inductive number : Type :=
  | NaN : number
  | Fin : Q -> number.

Definition of_Z (z : Z) : number := Fin (inject_Z z).
Definition of_nat (n : nat) : number := of_Z (Z.of_nat n).

Definition add (x y : number) : number :=
  match x, y with
  | Fin a, Fin b => Fin (a + b)%Q
  | _, _ => NaN
  end.

Definition mul (x y : number) : number :=
  match x, y with
  | Fin a, Fin b => Fin (a * b)%Q
  | _, _ => NaN
  end.

(** [x / d] for a divisor known to be a positive integer at the place of
    the division (a literal, or a value just tested to be positive). *)
Definition div_pos (x : number) (d : positive) : number :=
  match x with
  | Fin a => Fin (a / inject_Z (Zpos d))%Q
  | NaN => NaN
  end.

(** [Math.round]: the nearest integer, ties towards +infinity. *)
Definition round (x : number) : number :=
  match x with
  | Fin a => of_Z (Qfloor (a + (1 # 2))%Q)
  | NaN => NaN
  end.

(** Equality of numbers as values: [NaN] only matches [NaN] here (this is
    the identity of the value, not the [===] operator). *)
Definition same (x y : number) : Prop :=
  match x, y with
  | NaN, NaN => True
  | Fin a, Fin b => Qeq a b
  | _, _ => False
  end.

Definition is_finite (x : number) : bool :=
  match x with Fin _ => true | NaN => false end.

(** ** [parseInt(s)] without a radix *)

(** The value of a digit in a radix of at most 16. *)
Definition digit_value (c : ascii) : option Z :=
  let n := Z.of_nat (nat_of_ascii c) in
  if (48 <=? n) && (n <=? 57) then Some (n - 48)
  else if (97 <=? n) && (n <=? 102) then Some (n - 87)
  else if (65 <=? n) && (n <=? 70) then Some (n - 55)
  else None.

(** The longest prefix of radix-[R] digits, as digit values. *)
Fixpoint digits (R : Z) (s : string) : list Z :=
  match s with
  | EmptyString => []
  | String c r =>
      match digit_value c with
      | Some d => if d <? R then d :: digits R r else []
      | None => []
      end
  end.

Definition digits_value (R : Z) (ds : list Z) : Z :=
  fold_left (fun acc d => acc * R + d) ds 0.

Definition is_hex_prefix (s : string) : bool :=
  match s with
  | String "0" (String "x" _) | String "0" (String "X" _) => true
  | _ => false
  end.

(** The integer that the digits denote, as it is written: the rounding of
    a long number to a double is in [Double.parseInt]. *)
Definition parseInt (input : string) : number :=
  let s := trimStart input in
  let '(sign, s) :=
    match s with
    | String "-" r => (-1, r)
    | String "+" r => (1, r)
    | _ => (1, s)
    end in
  let '(R, s) :=
    if is_hex_prefix s then (16, substr 2 (String.length s) s) else (10, s) in
  match digits R s with
  | [] => NaN
  | ds => of_Z (sign * digits_value R ds)
  end.

End Js.

(** ** JavaScript numbers as IEEE 754 doubles

    The arithmetic of [getStats] on the values the engine computes with: a
    number is [NaN], an infinity, or a finite double given by the rational
    it denotes.  Every operation rounds the exact result to the nearest
    double, the one with an even significand at a tie (53 bits of
    significand, least exponent -1074, overflow to an infinity from
    [2^1024] on).  The two zeros are not told apart. *)

Module Double.

(** [2^e], for a negative [e] too. *)
Definition pow2 (e : Z) : Q := (2 ^ e)%Q.

(** The integer part of the binary logarithm of a positive rational. *)
Definition ilog2 (q : Q) : Z :=
  let l := Z.log2 (Qnum q) - Z.log2 (Zpos (Qden q)) in
  if Qle_bool (pow2 l) q then l else l - 1.

Definition emin : Z := -1074.

(** The exponent of the last bit of the doubles next to a positive [q]. *)
Definition expo (q : Q) : Z := Z.max (ilog2 q - 52) emin.

(** The nearest integer, the even one at a tie. *)
Definition rne (u : Q) : Z :=
  let f := Qfloor u in
  match (u - inject_Z f ?= 1 # 2)%Q with
  | Lt => f
  | Gt => f + 1
  | Eq => if Z.even f then f else f + 1
  end.

Definition rnd_pos (q : Q) : Q :=
  let e := expo q in (inject_Z (rne (q / pow2 e)) * pow2 e)%Q.

(** Rounding to the nearest double, before the test for overflow. *)
Definition rnd (q : Q) : Q :=
  match Qnum q with
  | Z0 => 0%Q
  | Zpos _ => rnd_pos q
  | Zneg _ => (- rnd_pos (- q))%Q
  end.

Inductive number : Type :=
  | NaN : number
  | PInf : number
  | NInf : number
  | Fin : Q -> number.

(** The double of an exact result. *)
Definition of_Q (q : Q) : number :=
  let r := rnd q in
  if Qle_bool (pow2 1024) r then PInf
  else if Qle_bool r (- pow2 1024) then NInf
  else Fin (Qred r).

Definition of_Z (z : Z) : number := of_Q (inject_Z z).
Definition of_nat (n : nat) : number := of_Z (Z.of_nat n).

Definition is_neg (q : Q) : bool := negb (Qle_bool 0 q).
Definition is_zero (q : Q) : bool := Qeq_bool q 0.

(** [x + y] *)
Definition add (x y : number) : number :=
  match x, y with
  | NaN, _ | _, NaN => NaN
  | PInf, NInf | NInf, PInf => NaN
  | PInf, _ | _, PInf => PInf
  | NInf, _ | _, NInf => NInf
  | Fin a, Fin b => of_Q (a + b)
  end.

Definition inf_of (negative : bool) : number :=
  if negative then NInf else PInf.

(** [x * y] *)
Definition mul (x y : number) : number :=
  match x, y with
  | NaN, _ | _, NaN => NaN
  | PInf, PInf | NInf, NInf => PInf
  | PInf, NInf | NInf, PInf => NInf
  | PInf, Fin b | Fin b, PInf =>
      if is_zero b then NaN else inf_of (is_neg b)
  | NInf, Fin b | Fin b, NInf =>
      if is_zero b then NaN else inf_of (negb (is_neg b))
  | Fin a, Fin b => of_Q (a * b)
  end.

(** [x / y] *)
Definition div (x y : number) : number :=
  match x, y with
  | NaN, _ | _, NaN => NaN
  | (PInf | NInf), (PInf | NInf) => NaN
  | PInf, Fin b => inf_of (is_neg b)
  | NInf, Fin b => inf_of (negb (is_neg b))
  | Fin _, (PInf | NInf) => Fin 0
  | Fin a, Fin b =>
      if is_zero b then (if is_zero a then NaN else inf_of (is_neg a))
      else of_Q (a / b)
  end.

(** [x > 0] *)
Definition gt0 (x : number) : bool :=
  match x with
  | PInf => true
  | Fin a => negb (Qle_bool a 0)
  | _ => false
  end.

(** [Math.round]: the nearest integer, the upper one at a tie. *)
Definition round (x : number) : number :=
  match x with
  | Fin a => Fin (inject_Z (Qfloor (a + (1 # 2))%Q))
  | _ => x
  end.

(** [parseInt(s)]: the double nearest to the integer the digits denote. *)
Definition parseInt (input : string) : number :=
  match Js.parseInt input with
  | Js.NaN => NaN
  | Js.Fin q => of_Q q
  end.

(** The value of a hardware double, to compare the operations above with
    the ones of the machine. *)
Definition of_float (f : float) : number :=
  match Prim2SF f with
  | S754_zero _ => Fin 0
  | S754_infinity negative => inf_of negative
  | S754_nan => NaN
  | S754_finite negative m e =>
      Fin (Qred ((if negative then - inject_Z (Zpos m)
                  else inject_Z (Zpos m)) * pow2 e))
  end.

End Double.

(** ** Data model *)

(** Modelled from the spec: the type [DayPlan] is declared in
    [./tj-ce-plan-generator], which is not part of the sources at hand.
    Section 3 of the specification gives the two flags that the storage
    module reads from a day entry. *)
Module DayPlan.
Record t : Type := mk { isRestDay : bool; isSpecialDay : bool }.
End DayPlan.

Module FormData.
Record t : Type := mk {
  concurso : string;
  cargo : string;
  horasLiquidas : string;
  disciplinasDificuldade : list string;
  plataformaEstudo : string;
  tempoEstudo : string
}.
End FormData.

(** [Omit<StoredStudyPlan, 'id' | 'createdAt' | 'updatedAt'>] *)
Module PlanData.
Record t : Type := mk {
  title : string;
  concurso : string;
  cargo : string;
  totalDays : Z;
  completedTasks : list string;
  plans : list DayPlan.t;
  formData : FormData.t
}.
End PlanData.

Module StoredStudyPlan.
Record t : Type := mk {
  id : string;
  title : string;
  concurso : string;
  cargo : string;
  createdAt : Z;
  updatedAt : Z;
  totalDays : Z;
  completedTasks : list string;
  plans : list DayPlan.t;
  formData : FormData.t
}.

(** The fields of a stored plan that a [PlanData] carries. *)
Definition data (p : t) : PlanData.t :=
  PlanData.mk (title p) (concurso p) (cargo p) (totalDays p)
              (completedTasks p) (plans p) (formData p).
End StoredStudyPlan.

(** [Partial<StoredStudyPlan>]: every field may be left out. *)
Module Partial.
Record t : Type := mk {
  id : option string;
  title : option string;
  concurso : option string;
  cargo : option string;
  createdAt : option Z;
  updatedAt : option Z;
  totalDays : option Z;
  completedTasks : option (list string);
  plans : option (list DayPlan.t);
  formData : option FormData.t
}.

Definition empty : t :=
  mk None None None None None None None None None None.

(** The object literal [{ completedTasks }]. *)
Definition only_completedTasks (tasks : list string) : t :=
  mk None None None None None None None (Some tasks) None None.
End Partial.

Inductive ActivityType : Type := created | updated | completed_task.

Module Activity.
Record t : Type := mk {
  id : string;
  type : ActivityType;
  planTitle : string;
  timestamp : Z;
  description : string
}.
End Activity.

Global Instance ActivityType_eq_dec : EqDecision ActivityType.
Proof. solve_decision. Defined.

(** ** The environment *)

(** What one [Date.now()], one [Math.random().toString(36)] and one
    [new Date()] give when an identifier and a time stamp are made. *)
Record Stamp : Type := mkStamp {
  date_now : Z;
  random36 : string;
  new_date : Z
}.

(** How a promise of the remote adapter ([SupabaseStorage], not part of the
    sources at hand) settles.  The adapter is taken not to write the two
    [localStorage] keys of this module while one of its calls is awaited. *)
Inductive settled (A : Type) : Type :=
  | Resolved : A -> settled A
  | Rejected : settled A.
Arguments Resolved {A} _.
Arguments Rejected {A}.

(** What [localStorage.getItem] finds under a key: nothing, a text that
    [JSON.parse] rejects (or the empty text), or the JSON of a value. *)
Inductive item (A : Type) : Type :=
  | Absent : item A
  | Malformed : item A
  | Json : A -> item A.
Arguments Absent {A}.
Arguments Malformed {A}.
Arguments Json {A} _.

Record LocalStorage : Type := mkLocalStorage {
  ddplanner_study_plans : item (list StoredStudyPlan.t);
  ddplanner_activity_log : item (list Activity.t)
}.

Definition empty_storage : LocalStorage := mkLocalStorage Absent Absent.

(** ** Computations over [localStorage] *)

Definition M (A : Type) : Type := LocalStorage -> A * LocalStorage.

Global Instance M_ret : MRet M := fun A a s => (a, s).
Global Instance M_bind : MBind M := fun A B f m s =>
  let '(a, s') := m s in f a s'.

Definition result {A} (m : M A) (s : LocalStorage) : A := fst (m s).
Definition after {A} (m : M A) (s : LocalStorage) : LocalStorage := snd (m s).

Definition getItem_plans : M (item (list StoredStudyPlan.t)) :=
  fun s => (ddplanner_study_plans s, s).
Definition setItem_plans (v : list StoredStudyPlan.t) : M unit :=
  fun s => (tt, mkLocalStorage (Json v) (ddplanner_activity_log s)).
Definition getItem_activity : M (item (list Activity.t)) :=
  fun s => (ddplanner_activity_log s, s).
Definition setItem_activity (v : list Activity.t) : M unit :=
  fun s => (tt, mkLocalStorage (ddplanner_study_plans s) (Json v)).

(** [stored ? JSON.parse(stored) : []], with [[]] from the [catch] too. *)
Definition parse_or_empty {A} (stored : item (list A)) : list A :=
  match stored with
  | Json v => v
  | Absent | Malformed => []
  end.

(** [arr.findIndex(pred)]; [None] stands for [-1]. *)
Definition findIndex {A} (P : A -> Prop) `{!forall x, Decision (P x)}
    (l : list A) : option nat :=
  fst <$> list_find P l.

(** [arr.find(pred) || null] for an array of objects. *)
Definition find {A} (P : A -> Prop) `{!forall x, Decision (P x)}
    (l : list A) : option A :=
  snd <$> list_find P l.

(** [arr.filter((x, index) => keep x index)] *)
Fixpoint filter_from {A} (keep : A -> nat -> bool) (i : nat) (l : list A)
    : list A :=
  match l with
  | [] => []
  | x :: r =>
      if keep x i then x :: filter_from keep (S i) r
      else filter_from keep (S i) r
  end.
Definition filter_index {A} (keep : A -> nat -> bool) (l : list A) : list A :=
  filter_from keep 0%nat l.

(** The quotation mark inside the descriptions. *)
Definition quote : string := String "034"%char EmptyString.

(** [`${prefix}_${Date.now()}_${Math.random().toString(36).substr(2, 9)}`] *)
Definition make_id (prefix : string) (e : Stamp) : string :=
  prefix +:+ "_" +:+ pretty (date_now e) +:+ "_"
         +:+ Js.substr 2 9 (random36 e).

(** [arr.sort((a, b) => time(b) - time(a))] on activity entries, whose
    [timestamp] is the instant that [new Date(timestamp).getTime()] gives:
    newest first.  [Array.prototype.sort] is stable, so entries of the same
    instant keep their order; inserting the entries from the last to the
    first, each in front of the first entry that is not newer, gives that
    arrangement. *)
Fixpoint insert_by_time (a : Activity.t) (l : list Activity.t)
    : list Activity.t :=
  match l with
  | [] => [a]
  | b :: r =>
      if decide (Activity.timestamp a < Activity.timestamp b)
      then b :: insert_by_time a r
      else a :: b :: r
  end.

Definition sort_newest_first (l : list Activity.t) : list Activity.t :=
  foldr insert_by_time [] l.

(** [!s] for a string. *)
Definition falsy (s : string) : bool :=
  match s with EmptyString => true | _ => false end.

Module StudyPlanStorage.

Definition getAllPlans : M (list StoredStudyPlan.t) :=
  stored ← getItem_plans;
  mret (parse_or_empty stored).

Definition getActivityLog : M (list Activity.t) :=
  stored ← getItem_activity;
  mret (parse_or_empty stored).

Definition logActivity (e : Stamp) (type : ActivityType)
    (planTitle description : string) : M unit :=
  activities ← getActivityLog;
  let newActivity :=
    Activity.mk (make_id "activity" e) type planTitle (new_date e)
                description in
  let activities := newActivity :: activities in
  let trimmedActivities := take 50 activities in
  setItem_activity trimmedActivities.

Definition created_description (title : string) : string :=
  "Plano " +:+ quote +:+ title +:+ quote +:+ " foi criado".
Definition updated_description (title : string) : string :=
  "Plano " +:+ quote +:+ title +:+ quote +:+ " foi atualizado".
Definition completed_description (title : string) : string :=
  "Tarefa completada no plano " +:+ quote +:+ title +:+ quote.

(** [{ ...planData, id, createdAt: now, updatedAt: now }] *)
Definition new_plan (planData : PlanData.t) (id : string) (now : Z)
    : StoredStudyPlan.t :=
  StoredStudyPlan.mk id (PlanData.title planData)
    (PlanData.concurso planData) (PlanData.cargo planData) now now
    (PlanData.totalDays planData) (PlanData.completedTasks planData)
    (PlanData.plans planData) (PlanData.formData planData).

(** [savePlan]: [e] is read for the plan, [ea] for its activity entry;
    [remote] is how [SupabaseStorage.savePlan] settles. *)
Definition savePlan (e ea : Stamp) (remote : settled unit)
    (planData : PlanData.t) : M string :=
  plans ← getAllPlans;
  let id := make_id "plan" e in
  let now := new_date e in
  let newPlan := new_plan planData id now in
  let plans := plans ++ [newPlan] in
  setItem_plans plans;;
  logActivity ea created (StoredStudyPlan.title newPlan)
    (created_description (StoredStudyPlan.title newPlan));;
  match remote with
  | Resolved _ => mret id
  | Rejected => mret id
  end.

(** [savePlanSync]: the remote write is started and not waited for. *)
Definition savePlanSync (e ea : Stamp) (planData : PlanData.t) : M string :=
  plans ← getAllPlans;
  let id := make_id "plan" e in
  let now := new_date e in
  let newPlan := new_plan planData id now in
  let plans := plans ++ [newPlan] in
  setItem_plans plans;;
  logActivity ea created (StoredStudyPlan.title newPlan)
    (created_description (StoredStudyPlan.title newPlan));;
  mret id.

(** [loadFromSupabase]: [remote] is how [SupabaseStorage.loadPlans]
    settles. *)
Definition loadFromSupabase (remote : settled (list StoredStudyPlan.t))
    : M (list StoredStudyPlan.t) :=
  match remote with
  | Resolved supabasePlans =>
      (if decide (0 < length supabasePlans)%nat
       then setItem_plans supabasePlans
       else mret tt);;
      mret supabasePlans
  | Rejected => getAllPlans
  end.

Definition getPlanById (id : string) : M (option StoredStudyPlan.t) :=
  plans ← getAllPlans;
  mret (find (fun plan => StoredStudyPlan.id plan = id) plans).

(** [{ ...old, ...updates, updatedAt: now }] *)
Definition merge (old : StoredStudyPlan.t) (updates : Partial.t) (now : Z)
    : StoredStudyPlan.t :=
  StoredStudyPlan.mk
    (default (StoredStudyPlan.id old) (Partial.id updates))
    (default (StoredStudyPlan.title old) (Partial.title updates))
    (default (StoredStudyPlan.concurso old) (Partial.concurso updates))
    (default (StoredStudyPlan.cargo old) (Partial.cargo updates))
    (default (StoredStudyPlan.createdAt old) (Partial.createdAt updates))
    now
    (default (StoredStudyPlan.totalDays old) (Partial.totalDays updates))
    (default (StoredStudyPlan.completedTasks old)
             (Partial.completedTasks updates))
    (default (StoredStudyPlan.plans old) (Partial.plans updates))
    (default (StoredStudyPlan.formData old) (Partial.formData updates)).

(** The two [logActivity] calls guarded by [if (updates.completedTasks)]. *)
Definition log_completed (e1 e2 : Stamp) (updates : Partial.t)
    (oldCompletedCount : nat) (title : string) : M unit :=
  match Partial.completedTasks updates with
  | Some tasks =>
      let newCompletedCount := length tasks in
      (if decide (oldCompletedCount < newCompletedCount)%nat
       then logActivity e1 completed_task title (completed_description title)
       else mret tt);;
      logActivity (if decide (oldCompletedCount < newCompletedCount)%nat
                   then e2 else e1)
        updated title (updated_description title)
  | None => mret tt
  end.

(** [updatePlan]: [now] is the [new Date()] of the merge, [e1] and [e2]
    are read by the first and the second [logActivity] call (when there
    are any); [remote] is how [SupabaseStorage.updatePlan] settles.
    The old count is read from [plans[index]] after the assignment
    [plans[index] = updatedPlan]. *)
Definition updatePlan (now : Z) (e1 e2 : Stamp) (remote : settled unit)
    (id : string) (updates : Partial.t) : M bool :=
  plans ← getAllPlans;
  match list_find (fun plan => StoredStudyPlan.id plan = id) plans with
  | None => mret false
  | Some (index, plans_index) =>
      let updatedPlan := merge plans_index updates now in
      let plans := <[index := updatedPlan]> plans in
      setItem_plans plans;;
      log_completed e1 e2 updates
        (from_option (fun p => length (StoredStudyPlan.completedTasks p))
                     0%nat (plans !! index))
        (StoredStudyPlan.title updatedPlan);;
      match remote with
      | Resolved _ => mret true
      | Rejected => mret true
      end
  end.

(** [updatePlanSync]: the old count is read from [oldPlan], the copy
    taken before the assignment. *)
Definition updatePlanSync (now : Z) (e1 e2 : Stamp)
    (id : string) (updates : Partial.t) : M bool :=
  plans ← getAllPlans;
  match list_find (fun plan => StoredStudyPlan.id plan = id) plans with
  | None => mret false
  | Some (index, plans_index) =>
      let oldPlan := plans_index in
      let updatedPlan := merge plans_index updates now in
      let plans := <[index := updatedPlan]> plans in
      setItem_plans plans;;
      log_completed e1 e2 updates
        (length (StoredStudyPlan.completedTasks oldPlan))
        (StoredStudyPlan.title updatedPlan);;
      mret true
  end.

(** [deleteFromLocalStorage] *)
Definition deleteFromLocalStorage (id : string) : M bool :=
  currentData ← getItem_plans;
  match currentData with
  | Absent => mret false
  | Malformed => mret false
  | Json currentPlans =>
      match findIndex (fun plan => StoredStudyPlan.id plan = id)
                      currentPlans with
      | None => mret false
      | Some planIndex =>
          let filteredPlans :=
            filter_index (fun _ index => negb (index =? planIndex)%nat)
                         currentPlans in
          setItem_plans filteredPlans;;
          mret true
      end
  end.

(** [deletePlan]: [remote] is how [SupabaseStorage.deletePlan] settles. *)
Definition deletePlan (remote : settled unit) (id : string) : M bool :=
  if decide (id = "" \/ Js.trim id = "") then mret false
  else
    let cleanId := Js.trim id in
    localSuccess ← deleteFromLocalStorage cleanId;
    if negb localSuccess then mret false
    else
      match remote with
      | Resolved _ => mret true
      | Rejected => mret true
      end.

(** [deletePlanSync] *)
Definition deletePlanSync (id : string) : M bool :=
  let cleanId := Js.trim id in
  success ← deleteFromLocalStorage cleanId;
  mret success.

(** [updateCompletedTasks] *)
Definition updateCompletedTasks (now : Z) (e1 e2 : Stamp)
    (planId : string) (completedTasks : list string) : M bool :=
  if decide (planId = "") then mret false
  else
    updatePlanSync now e1 e2 planId
      (Partial.only_completedTasks completedTasks) ≫= fun success : bool =>
    (if success
     then plans ← getAllPlans; setItem_plans plans
     else mret tt);;
    mret success.

(** ** Statistics *)

Record Stats : Type := mkStats {
  totalPlans : nat;
  activePlans : nat;
  totalHoursStudied : Js.number;
  totalSubjects : nat;
  averageProgress : Js.number
}.

(** The [reduce] over the days of a plan. *)
Definition totalTasks (plan : StoredStudyPlan.t) : Z :=
  fold_left
    (fun acc dayPlan =>
       if DayPlan.isRestDay dayPlan then acc
       else acc + (if DayPlan.isSpecialDay dayPlan then 3 else 5))
    (StoredStudyPlan.plans plan) 0.

(** [plan.completedTasks?.length || 0] *)
Definition completedCount (plan : StoredStudyPlan.t) : nat :=
  length (StoredStudyPlan.completedTasks plan).

(** [totalTasks > 0 ? (completedTasks / totalTasks) * 100 : 0] *)
Definition planProgress (plan : StoredStudyPlan.t) : Js.number :=
  match totalTasks plan with
  | Zpos d =>
      Js.mul (Js.div_pos (Js.of_nat (completedCount plan)) d) (Js.of_Z 100)
  | _ => Js.of_Z 0
  end.

(** [parseInt(plan.formData.horasLiquidas?.split(' ')[0] || '0')] *)
Definition hoursPerDay (plan : StoredStudyPlan.t) : Js.number :=
  Js.parseInt
    (Js.or_else
       (Js.split_space_0
          (FormData.horasLiquidas (StoredStudyPlan.formData plan)))
       "0").

(** [completedTasks * hoursPerTask], with [hoursPerTask = hoursPerDay / 5] *)
Definition planHours (plan : StoredStudyPlan.t) : Js.number :=
  let tasksPerDay := 5%positive in
  let hoursPerTask := Js.div_pos (hoursPerDay plan) tasksPerDay in
  Js.mul (Js.of_nat (completedCount plan)) hoursPerTask.

(** The mutable locals of [getStats]. *)
Record Acc : Type := mkAcc {
  acc_totalProgress : Js.number;
  acc_totalHours : Js.number;
  acc_allSubjects : gset string
}.

(** One turn of [plans.forEach]. *)
Definition stats_step (a : Acc) (plan : StoredStudyPlan.t) : Acc :=
  mkAcc
    (Js.add (acc_totalProgress a) (planProgress plan))
    (Js.add (acc_totalHours a) (planHours plan))
    (fold_left (fun set subject => {[subject]} ∪ set)
       (FormData.disciplinasDificuldade (StoredStudyPlan.formData plan))
       (acc_allSubjects a)).

Definition stats_of (plans : list StoredStudyPlan.t) : Stats :=
  match plans with
  | [] => mkStats 0 0 (Js.of_Z 0) 0 (Js.of_Z 0)
  | _ =>
      let activePlans := length plans in
      let a := fold_left stats_step plans
                 (mkAcc (Js.of_Z 0) (Js.of_Z 0) ∅) in
      mkStats (length plans) activePlans
        (Js.div_pos (Js.round (Js.mul (acc_totalHours a) (Js.of_Z 10))) 10)
        (size (acc_allSubjects a))
        (Js.round (Js.div_pos (acc_totalProgress a)
                              (Pos.of_nat (length plans))))
  end.

Definition getStats : M Stats :=
  plans ← getAllPlans;
  mret (stats_of plans).

(** ** Recent activity *)

(** [60 * 60 * 1000] *)
Definition hour_ms : Z := 60 * 60 * 1000.

(** The loop [for (let i = 0; i < Math.min(3, completedCount); i++)] from
    the index [i] on, with [n] turns left; [clock k] is what the [k]-th
    [Date.now()] of the call gives, and every turn reads one. *)
Fixpoint task_loop (clock : nat -> Z) (plan : StoredStudyPlan.t)
    (k i n : nat) : list Activity.t :=
  match n with
  | O => []
  | S n =>
      let taskTimestamp := clock k - Z.of_nat i * hour_ms in
      Activity.mk (StoredStudyPlan.id plan +:+ "_task_" +:+ pretty i)
                  completed_task (StoredStudyPlan.title plan) taskTimestamp
                  (completed_description (StoredStudyPlan.title plan))
      :: task_loop clock plan (S k) (S i) n
  end.

(** What one turn of [plans.forEach] pushes, [k] readings of the clock
    having been made before it. *)
Definition plan_activities (clock : nat -> Z) (k : nat)
    (plan : StoredStudyPlan.t) : list Activity.t :=
  let completedCount := length (StoredStudyPlan.completedTasks plan) in
  [Activity.mk (StoredStudyPlan.id plan +:+ "_created") created
     (StoredStudyPlan.title plan) (StoredStudyPlan.createdAt plan)
     (created_description (StoredStudyPlan.title plan))]
  ++ (if decide (StoredStudyPlan.updatedAt plan
                 <> StoredStudyPlan.createdAt plan)
      then [Activity.mk (StoredStudyPlan.id plan +:+ "_updated") updated
              (StoredStudyPlan.title plan) (StoredStudyPlan.updatedAt plan)
              (updated_description (StoredStudyPlan.title plan))]
      else [])
  ++ (if decide (0 < completedCount)%nat
      then task_loop clock plan k 0 (Nat.min 3 completedCount)
      else []).

(** The [plans.forEach] of the fallback: the entries pushed so far and the
    number of clock readings made so far. *)
Definition synthesize_from (clock : nat -> Z)
    (start : list Activity.t * nat) (plans : list StoredStudyPlan.t)
    : list Activity.t * nat :=
  fold_left
    (fun '(activities, k) plan =>
       (activities ++ plan_activities clock k plan,
        (k + Nat.min 3 (length (StoredStudyPlan.completedTasks plan)))%nat))
    plans start.

Definition synthesize (clock : nat -> Z) (plans : list StoredStudyPlan.t)
    : list Activity.t :=
  fst (synthesize_from clock ([], 0%nat) plans).

(** [getRecentActivity] *)
Definition getRecentActivity (clock : nat -> Z) : M (list Activity.t) :=
  loggedActivities ← getActivityLog;
  if decide (0 < length loggedActivities)%nat
  then mret (take 10 loggedActivities)
  else
    plans ← getAllPlans;
    mret (take 10 (sort_newest_first (synthesize clock plans))).

(** ** Integrity *)

(** The loop [for (const plan of plans)] with its early [return false].
    [createdAt] is an instant here, and the text of an instant is never
    empty, so [!plan.createdAt] is [false]. *)
Fixpoint valid_structure (plans : list StoredStudyPlan.t) : bool :=
  match plans with
  | [] => true
  | plan :: plans =>
      if falsy (StoredStudyPlan.id plan) || falsy (StoredStudyPlan.title plan)
         || false
      then false
      else valid_structure plans
  end.

(** [verifyDataIntegrity] *)
Definition verifyDataIntegrity : M bool :=
  plans ← getAllPlans;
  activities ← getActivityLog;
  let planIds := StoredStudyPlan.id <$> plans in
  let uniqueIds : gset string := list_to_set planIds in
  if decide (length planIds <> size uniqueIds) then mret false
  else mret (valid_structure plans).

End StudyPlanStorage.

(** ** [getStats] in double arithmetic

    [StudyPlanStorage.getStats] (lines 415-472) once more, every number a
    double and every operation rounded as the engine rounds it. *)

Module DoubleStats.

Record Stats : Type := mkStats {
  totalPlans : nat;
  activePlans : nat;
  totalHoursStudied : Double.number;
  totalSubjects : nat;
  averageProgress : Double.number
}.

(** The [reduce] over the days of a plan. *)
Definition totalTasks (plan : StoredStudyPlan.t) : Double.number :=
  fold_left
    (fun acc dayPlan =>
       if DayPlan.isRestDay dayPlan then acc
       else Double.add acc
              (if DayPlan.isSpecialDay dayPlan then Double.of_Z 3
               else Double.of_Z 5))
    (StoredStudyPlan.plans plan) (Double.of_Z 0).

(** [plan.completedTasks?.length || 0] *)
Definition completedTasks (plan : StoredStudyPlan.t) : Double.number :=
  Double.of_nat (length (StoredStudyPlan.completedTasks plan)).

(** [totalTasks > 0 ? (completedTasks / totalTasks) * 100 : 0] *)
Definition planProgress (plan : StoredStudyPlan.t) : Double.number :=
  let totalTasks := totalTasks plan in
  if Double.gt0 totalTasks
  then Double.mul (Double.div (completedTasks plan) totalTasks)
                  (Double.of_Z 100)
  else Double.of_Z 0.

(** [parseInt(plan.formData.horasLiquidas?.split(' ')[0] || '0')] *)
Definition hoursPerDay (plan : StoredStudyPlan.t) : Double.number :=
  Double.parseInt
    (Js.or_else
       (Js.split_space_0
          (FormData.horasLiquidas (StoredStudyPlan.formData plan)))
       "0").

(** [completedTasks * hoursPerTask], with [hoursPerTask = hoursPerDay / 5] *)
Definition planHours (plan : StoredStudyPlan.t) : Double.number :=
  let tasksPerDay := Double.of_Z 5 in
  let hoursPerTask := Double.div (hoursPerDay plan) tasksPerDay in
  Double.mul (completedTasks plan) hoursPerTask.

(** The mutable locals of [getStats]. *)
Record Acc : Type := mkAcc {
  acc_totalProgress : Double.number;
  acc_totalHours : Double.number;
  acc_allSubjects : gset string
}.

(** One turn of [plans.forEach]. *)
Definition stats_step (a : Acc) (plan : StoredStudyPlan.t) : Acc :=
  mkAcc
    (Double.add (acc_totalProgress a) (planProgress plan))
    (Double.add (acc_totalHours a) (planHours plan))
    (fold_left (fun set subject => {[subject]} ∪ set)
       (FormData.disciplinasDificuldade (StoredStudyPlan.formData plan))
       (acc_allSubjects a)).

Definition stats_of (plans : list StoredStudyPlan.t) : Stats :=
  match plans with
  | [] => mkStats 0 0 (Double.of_Z 0) 0 (Double.of_Z 0)
  | _ =>
      let activePlans := length plans in
      let a := fold_left stats_step plans
                 (mkAcc (Double.of_Z 0) (Double.of_Z 0) ∅) in
      mkStats (length plans) activePlans
        (Double.div (Double.round (Double.mul (acc_totalHours a)
                                              (Double.of_Z 10)))
                    (Double.of_Z 10))
        (size (acc_allSubjects a))
        (Double.round (Double.div (acc_totalProgress a)
                                  (Double.of_nat (length plans))))
  end.

Definition getStats : M Stats :=
  plans ← StudyPlanStorage.getAllPlans;
  mret (stats_of plans).

End DoubleStats.

(** * [src/lib/supabase.ts] and the calls of [src/contexts/auth-context.tsx]

    The Supabase client is outside the sources.  How one of its promises
    settles is a parameter: it resolves with a value or is rejected with
    what it throws. *)

Module Supabase.

(** What a [catch] clause receives, as far as the code looks into it:
    [error?.message] and [error?.code].  A message is absent ([undefined]
    or [null]) or a string, as in the errors of the Supabase client and of
    [fetch]; a thrown value with a message of another kind is not
    covered. *)
Record JsError : Type := mkJsError {
  message : option string;
  code : option string
}.

(** How a call ends: it returns a value or throws. *)
Inductive completion (E A : Type) : Type :=
  | Returns : A -> completion E A
  | Throws : E -> completion E A.
Arguments Returns {E A} _.
Arguments Throws {E A} _.

(** [s.includes(sub)] *)
Fixpoint includes (sub s : string) : bool :=
  String.prefix sub s
  || match s with
     | EmptyString => false
     | String _ r => includes sub r
     end.

(** [isSupabaseConfigured], for the values that the two environment
    variables gave ([''] when unset). *)
Definition isSupabaseConfigured (supabaseUrl supabaseAnonKey : string)
    : bool :=
  negb (falsy supabaseUrl) && negb (falsy supabaseAnonKey)
  && negb (String.eqb supabaseUrl "")
  && negb (String.eqb supabaseAnonKey "").

(** The test of the [catch] clause for an error of the network. *)
Definition is_network_error (error : JsError) : bool :=
  from_option (includes "Failed to fetch") false (message error)
  || from_option (includes "Network Error") false (message error)
  || from_option (includes "fetch is not defined") false (message error)
  || bool_decide (code error = Some "NETWORK_ERROR").

(** [fallback ? fallback() : null] on the state [st] that the callbacks
    work on. *)
Definition run_fallback {St F T : Type}
    (fallback : option (St -> completion F T * St)) (st : St)
    : completion F (option T) * St :=
  match fallback with
  | Some f =>
      let '(r, st') := f st in
      (match r with
       | Returns v => Returns (Some v)
       | Throws x => Throws x
       end, st')
  | None => (Returns None, st)
  end.

(** [executeSupabaseOperation(operation, fallback)]: [operation] and
    [fallback] are the two callbacks, which may change the state [St] of
    their caller; what [operation] throws is caught, what [fallback]
    throws is not. *)
Definition executeSupabaseOperation {St F T : Type}
    (supabaseUrl supabaseAnonKey : string)
    (operation : St -> completion JsError T * St)
    (fallback : option (St -> completion F T * St)) (st : St)
    : completion F (option T) * St :=
  if negb (isSupabaseConfigured supabaseUrl supabaseAnonKey)
  then run_fallback fallback st
  else
    let '(r, st') := operation st in
    match r with
    | Returns result => (Returns (Some result), st')
    | Throws error =>
        if is_network_error error
        then run_fallback fallback st'
        else run_fallback fallback st'
    end.

End Supabase.

Module AuthContext.

Import Supabase.

(** The errors that [signIn] and [signUp] make with [new Error(...)]:
    the one for missing credentials, the one of the fallback ("Erro de
    conectividade ...") and the one after a falsy result. *)
Inductive AuthError : Type :=
  | NotConfigured
  | ConnectivityError
  | NoResult.

(** The callback given as [operation]: [remote] is how the awaited call
    of the client ends, resolved with its [{ error }] or rejected. *)
Definition auth_operation {St : Type}
    (remote : completion JsError (option JsError)) (st : St)
    : completion JsError bool * St :=
  match remote with
  | Returns None => (Returns true, st)
  | Returns (Some error) => (Throws error, st)
  | Throws thrown => (Throws thrown, st)
  end.

(** [!result] for the [boolean | null] that comes back. *)
Definition no_result (result : option bool) : bool :=
  match result with
  | Some true => false
  | Some false | None => true
  end.

(** [signIn(email, password)] *)
Definition signIn (supabaseUrl supabaseAnonKey : string)
    (remote : completion JsError (option JsError))
    : completion AuthError unit :=
  if negb (isSupabaseConfigured supabaseUrl supabaseAnonKey)
  then Throws NotConfigured
  else
    match fst (executeSupabaseOperation supabaseUrl supabaseAnonKey
                 (auth_operation remote)
                 (Some (fun st : unit => (Throws ConnectivityError, st)))
                 tt) with
    | Throws thrown => Throws thrown
    | Returns result =>
        if no_result result then Throws NoResult else Returns tt
    end.

(** [signUp(email, password, name)] *)
Definition signUp (supabaseUrl supabaseAnonKey : string)
    (remote : completion JsError (option JsError))
    : completion AuthError unit :=
  if negb (isSupabaseConfigured supabaseUrl supabaseAnonKey)
  then Throws NotConfigured
  else
    match fst (executeSupabaseOperation supabaseUrl supabaseAnonKey
                 (auth_operation remote)
                 (Some (fun st : unit => (Throws ConnectivityError, st)))
                 tt) with
    | Throws thrown => Throws thrown
    | Returns result =>
        if no_result result then Throws NoResult else Returns tt
    end.

(** [signOut()], on the [user] state of the provider: [setUser(null)] is
    the state [None]. *)
Definition signOut {User : Type} (supabaseUrl supabaseAnonKey : string)
    (remote : completion JsError (option JsError)) (user : option User)
    : completion Empty_set unit * option User :=
  if negb (isSupabaseConfigured supabaseUrl supabaseAnonKey)
  then (Returns tt, None)
  else
    let '(r, user) :=
      executeSupabaseOperation supabaseUrl supabaseAnonKey
        (auth_operation remote)
        (Some (fun _ : option User => (Returns true, None)))
        user in
    match r with
    | Throws thrown => (Throws thrown, user)
    | Returns result =>
        if no_result result then (Returns tt, None) else (Returns tt, user)
    end.

End AuthContext.

(** * Definitions used by the statements *)

Import StudyPlanStorage.

(** ** Sample data *)

(** Plans used by the examples below. *)
Definition sample_form (horas : string) : FormData.t :=
  FormData.mk "TJ-CE" "Tecnico" horas ["Direito"; "Portugues"] "PDF" "6 meses".

Definition sample_days : list DayPlan.t :=
  [DayPlan.mk false false; DayPlan.mk true true; DayPlan.mk false true].

Definition sample_data (title horas : string) (tasks : list string)
    : PlanData.t :=
  PlanData.mk title "TJ-CE" "Tecnico" 3 tasks sample_days
              (sample_form horas).

Definition sample_plan (id : string) (tasks : list string)
    : StoredStudyPlan.t :=
  new_plan (sample_data "Plano A" "4 horas" tasks) id 10.

(** ** Runs of [logActivity] *)

(** The arguments of one [logActivity] call, with what it reads. *)
Record LogCall : Type := mkLogCall {
  lc_env : Stamp;
  lc_type : ActivityType;
  lc_planTitle : string;
  lc_description : string
}.

(** The entry that the call builds. *)
Definition entry_of (c : LogCall) : Activity.t :=
  Activity.mk (make_id "activity" (lc_env c)) (lc_type c) (lc_planTitle c)
              (new_date (lc_env c)) (lc_description c).

Definition log_call (c : LogCall) : M unit :=
  logActivity (lc_env c) (lc_type c) (lc_planTitle c) (lc_description c).

(** One [logActivity] call after the other, first call first. *)
Definition log_calls (calls : list LogCall) (s : LocalStorage)
    : LocalStorage :=
  fold_left (fun s c => after (log_call c) s) calls s.

Definition sample_log_call (n : nat) : LogCall :=
  mkLogCall (mkStamp (Z.of_nat n) "0.k3j9x0q1zd8" (Z.of_nat n)) updated
            "Plano A" (updated_description "Plano A").

(** ** Outcomes of a save, a deletion and an update *)

(** Local durability: [s'] is [s] after a save of [planData] that returned
    [i] at the instant [now]. *)
Definition saved (planData : PlanData.t) (i : string) (now : Z)
    (s s' : LocalStorage) : Prop :=
  (exists p,
      result getAllPlans s' = result getAllPlans s ++ [p] /\
      StoredStudyPlan.data p = planData /\
      StoredStudyPlan.id p = i /\
      StoredStudyPlan.createdAt p = now /\
      StoredStudyPlan.updatedAt p = now) /\
  (exists a,
      result getActivityLog s' !! 0%nat = Some a /\
      Activity.type a = created /\
      Activity.planTitle a = PlanData.title planData).

(** A successful deletion of the plan called [id]: one record of that
    [id], the first, is gone and nothing else changed. *)
Definition removed_one (id : string) (s s' : LocalStorage) : Prop :=
  exists i p,
    result getAllPlans s !! i = Some p /\
    StoredStudyPlan.id p = id /\
    (forall j q, result getAllPlans s !! j = Some q -> (j < i)%nat ->
                 StoredStudyPlan.id q <> id) /\
    s' = mkLocalStorage (Json (delete i (result getAllPlans s)))
                        (ddplanner_activity_log s).

Definition updated_entry (e : Stamp) (title : string) : Activity.t :=
  Activity.mk (make_id "activity" e) updated title (new_date e)
              (updated_description title).

Definition completed_entry (e : Stamp) (title : string) : Activity.t :=
  Activity.mk (make_id "activity" e) completed_task title (new_date e)
              (completed_description title).

(** ** Statistics in the words of the specification *)

(** The task slots of one day, in the words of the specification: none for
    a rest day whatever the other flag, 3 for a special day, 5 otherwise. *)
Definition day_slots (d : DayPlan.t) : Z :=
  if DayPlan.isRestDay d then 0
  else if DayPlan.isSpecialDay d then 3 else 5.



Definition Qsum (l : list Q) : Q := foldr Qplus 0%Q l.


(** [z] is the integer nearest to [q], the upper one at a tie. *)
Definition nearest (q : Q) (z : Z) : Prop :=
  (inject_Z z - (1 # 2) <= q)%Q /\ (q < inject_Z z + (1 # 2))%Q.

Definition zero_stats : Stats := mkStats 0 0 (Js.of_Z 0) 0 (Js.of_Z 0).

Definition half_done_plan : StoredStudyPlan.t :=
  new_plan (sample_data "Plano A" "4 horas" ["t1"; "t2"; "t3"; "t4"])
           "plan_1_a" 10.


(** The hours of a plan in the words of the specification, for a plan
    whose first token parses to the integer [h]. *)
Definition hours_studied (h : Z) (p : StoredStudyPlan.t) : Q :=
  (inject_Z (Z.of_nat (completedCount p)) * (inject_Z h / 5))%Q.

(** ** Progress in the arithmetic of the engine *)






(** A plan of eight ordinary days (40 task slots) with 23 tasks done. *)
Definition plan_23_of_40 : StoredStudyPlan.t :=
  StoredStudyPlan.mk "plan_3_c" "Plano C" "TJ-CE" "Tecnico" 10 10 8
    ((fun n => "t" +:+ pretty n) <$> seq 0 23)
    (replicate 8 (DayPlan.mk false false)) (sample_form "4 horas").

(** ** Sequences of calls *)

Inductive Call : Type :=
  | SavePlan (e ea : Stamp) (remote : settled unit) (planData : PlanData.t)
  | SavePlanSync (e ea : Stamp) (planData : PlanData.t)
  | UpdatePlan (now : Z) (e1 e2 : Stamp) (remote : settled unit)
               (id : string) (updates : Partial.t)
  | UpdatePlanSync (now : Z) (e1 e2 : Stamp) (id : string)
                   (updates : Partial.t)
  | UpdateCompletedTasks (now : Z) (e1 e2 : Stamp) (planId : string)
                         (completedTasks : list string)
  | DeletePlan (remote : settled unit) (id : string).

(** The store after one call. *)
Definition exec (c : Call) (s : LocalStorage) : LocalStorage :=
  match c with
  | SavePlan e ea remote planData => after (savePlan e ea remote planData) s
  | SavePlanSync e ea planData => after (savePlanSync e ea planData) s
  | UpdatePlan now e1 e2 remote id updates =>
      after (updatePlan now e1 e2 remote id updates) s
  | UpdatePlanSync now e1 e2 id updates =>
      after (updatePlanSync now e1 e2 id updates) s
  | UpdateCompletedTasks now e1 e2 planId completedTasks =>
      after (updateCompletedTasks now e1 e2 planId completedTasks) s
  | DeletePlan remote id => after (deletePlan remote id) s
  end.

(** The store after a sequence of calls, first call first. *)
Definition run (calls : list Call) (s : LocalStorage) : LocalStorage :=
  fold_left (fun s c => exec c s) calls s.

(** What a save reads to make the plan. *)
Definition save_stamp (c : Call) : option Stamp :=
  match c with
  | SavePlan e _ _ _ | SavePlanSync e _ _ => Some e
  | _ => None
  end.

(** The two parts of the environment that a plan [id] is made of. *)
Definition id_source (e : Stamp) : Z * string :=
  (date_now e, Js.substr 2 9 (random36 e)).

Definition stored_ids (s : LocalStorage) : list string :=
  StoredStudyPlan.id <$> result getAllPlans s.

Fixpoint no_underscore (s : string) : Prop :=
  match s with
  | EmptyString => True
  | String c r => c <> "_"%char /\ no_underscore r
  end.

(** The call does not rewrite the [id] of a plan: it is no update whose
    partial fields hold [id]. *)
Definition keeps_id (c : Call) : Prop :=
  match c with
  | UpdatePlan _ _ _ _ _ updates | UpdatePlanSync _ _ _ _ updates =>
      Partial.id updates = None
  | _ => True
  end.

(** ** Clock and time stamps *)

(** The instant that a call writes into [updatedAt], when it writes one. *)
Definition call_time (c : Call) : option Z :=
  match c with
  | SavePlan e _ _ _ | SavePlanSync e _ _ => Some (new_date e)
  | UpdatePlan now _ _ _ _ _ | UpdatePlanSync now _ _ _ _
  | UpdateCompletedTasks now _ _ _ _ => Some now
  | DeletePlan _ _ => None
  end.

(** The clock does not go back from one call to the next; [clock] is the
    last instant read so far. *)
Fixpoint clock_ordered (clock : Z) (calls : list Call) : Prop :=
  match calls with
  | [] => True
  | c :: calls =>
      match call_time c with
      | Some t => clock <= t /\ clock_ordered t calls
      | None => clock_ordered clock calls
      end
  end.

(** The update carries no [createdAt] later than the instant of the
    call. *)
Definition createdAt_not_later (c : Call) : Prop :=
  match c with
  | UpdatePlan now _ _ _ _ updates | UpdatePlanSync now _ _ _ updates =>
      from_option (fun t => t <= now) True (Partial.createdAt updates)
  | _ => True
  end.

Definition dated (clock : Z) (p : StoredStudyPlan.t) : Prop :=
  StoredStudyPlan.createdAt p <= StoredStudyPlan.updatedAt p /\
  StoredStudyPlan.updatedAt p <= clock.

(** What "the mutation sets [updatedAt] to its instant" means for a call
    from the store [s] to the store [s']. *)
Definition stamps_updatedAt (c : Call) (s s' : LocalStorage) : Prop :=
  let touched (id : string) (now : Z) :=
    match list_find (fun plan => StoredStudyPlan.id plan = id)
                    (result getAllPlans s) with
    | Some (i, _) =>
        exists p', result getAllPlans s' !! i = Some p' /\
                   StoredStudyPlan.updatedAt p' = now
    | None => s' = s
    end in
  match c with
  | SavePlan e _ _ _ | SavePlanSync e _ _ =>
      exists p', last (result getAllPlans s') = Some p' /\
                 StoredStudyPlan.createdAt p' = new_date e /\
                 StoredStudyPlan.updatedAt p' = new_date e
  | UpdatePlan now _ _ _ id _ | UpdatePlanSync now _ _ id _ =>
      touched id now
  | UpdateCompletedTasks now _ _ planId _ =>
      if decide (planId = "") then s' = s else touched planId now
  | DeletePlan _ _ => True
  end.

(** The plans that an update leaves in the store. *)
Definition updated_plans (now : Z) (id : string) (updates : Partial.t)
    (plans : list StoredStudyPlan.t) : list StoredStudyPlan.t :=
  match list_find (fun plan => StoredStudyPlan.id plan = id) plans with
  | Some (i, p) => <[i := merge p updates now]> plans
  | None => plans
  end.

(** The object literals [{ createdAt: t }] and [{ id: i }]. *)
Definition only_createdAt (t : Z) : Partial.t :=
  Partial.mk None None None None (Some t) None None None None None.

Definition only_id (i : string) : Partial.t :=
  Partial.mk (Some i) None None None None None None None None None.

(** A store with one plan whose [id] an update has set to the empty
    string. *)
Definition store_with_empty_id : LocalStorage :=
  let e := mkStamp 10 "0.k3j9x0q1zd8" 10 in
  let e1 := mkStamp 20 "0.p7c2m4n8bq1" 20 in
  run [SavePlanSync e e (sample_data "Plano A" "4 horas" []);
       UpdatePlanSync 20 e1 e1 "plan_10_k3j9x0q1z" (only_id "")]
      empty_storage.

(** ** Definitions used by the further properties *)

(** A string with nothing to trim at its start. *)
Definition starts_clean (s : string) : Prop :=
  match s with
  | EmptyString => True
  | String c _ => Js.is_space c = false
  end.

(** [{ ...p, completedTasks: tasks, updatedAt: now }] *)
Definition with_completedTasks (p : StoredStudyPlan.t) (tasks : list string)
    (now : Z) : StoredStudyPlan.t :=
  StoredStudyPlan.mk (StoredStudyPlan.id p) (StoredStudyPlan.title p)
    (StoredStudyPlan.concurso p) (StoredStudyPlan.cargo p)
    (StoredStudyPlan.createdAt p) now (StoredStudyPlan.totalDays p) tasks
    (StoredStudyPlan.plans p) (StoredStudyPlan.formData p).

(** The plan partition holds no plans that [JSON.parse] could give: the
    key is missing or its text is not JSON. *)
Definition unreadable_plans (s : LocalStorage) : Prop :=
  match ddplanner_study_plans s with
  | Json _ => False
  | Absent | Malformed => True
  end.

(** The plan that a save stores. *)
Definition saved_plan (c : Call) : option StoredStudyPlan.t :=
  match c with
  | SavePlan e _ _ planData | SavePlanSync e _ planData =>
      Some (new_plan planData (make_id "plan" e) (new_date e))
  | _ => None
  end.

(** A plan with an [id] and a [title] that are not empty. *)
Definition named (p : StoredStudyPlan.t) : Prop :=
  StoredStudyPlan.id p <> "" /\ StoredStudyPlan.title p <> "".

(** Every subject entry of every plan, plan after plan. *)
Definition all_subjects (plans : list StoredStudyPlan.t) : list string :=
  plans ≫= fun plan =>
    FormData.disciplinasDificuldade (StoredStudyPlan.formData plan).

(** The code units ["0"] to ["9"], and the texts made of them. *)
Definition is_digit (c : ascii) : bool :=
  let n := nat_of_ascii c in (48 <=? n)%nat && (n <=? 57)%nat.

Fixpoint all_digits (s : string) : Prop :=
  match s with
  | EmptyString => True
  | String c r => is_digit c = true /\ all_digits r
  end.

(** One step of [Js.digits_value] in radix 10. *)
Definition decimal_step (acc d : Z) : Z := acc * 10 + d.

(** No entry is older than one that comes after it. *)
Definition newest_first (l : list Activity.t) : Prop :=
  StronglySorted
    (fun a b => Activity.timestamp b <= Activity.timestamp a) l.

(** The number of entries that the fallback of [getRecentActivity] makes
    for a plan: one for its creation, one for its update when the two
    instants differ, and one for each of at most three completed tasks. *)
Definition synthetic_count (p : StoredStudyPlan.t) : nat :=
  (1 + (if decide (StoredStudyPlan.updatedAt p = StoredStudyPlan.createdAt p)
        then 0 else 1)
     + Nat.min 3 (length (StoredStudyPlan.completedTasks p)))%nat.

(** The [created] entry that a save logs. *)
Definition created_entry (e : Stamp) (title : string) : Activity.t :=
  Activity.mk (make_id "activity" e) created title (new_date e)
              (created_description title).

(** The update gives a [completedTasks] longer than the one of the plan
    it finds. *)
Definition completedTasks_grow (id : string) (updates : Partial.t)
    (s : LocalStorage) : bool :=
  match find (fun plan => StoredStudyPlan.id plan = id)
             (result getAllPlans s),
        Partial.completedTasks updates with
  | Some p, Some tasks =>
      bool_decide (length (StoredStudyPlan.completedTasks p)
                   < length tasks)%nat
  | _, _ => false
  end.

(** The value of a field after an update: the one the partial fields give,
    the old one where they give none. *)
Definition field_after {A : Type} (given : option A) (old : A) : A :=
  match given with Some v => v | None => old end.

(** [p'] is [p] with the fields given in [updates] replaced (the id is not
    among them) and [updatedAt] set to [now], whatever [updates] gives for
    it. *)
Definition fields_replaced (p : StoredStudyPlan.t) (updates : Partial.t)
    (now : Z) (p' : StoredStudyPlan.t) : Prop :=
  StoredStudyPlan.id p' = StoredStudyPlan.id p /\
  StoredStudyPlan.title p'
  = field_after (Partial.title updates) (StoredStudyPlan.title p) /\
  StoredStudyPlan.concurso p'
  = field_after (Partial.concurso updates) (StoredStudyPlan.concurso p) /\
  StoredStudyPlan.cargo p'
  = field_after (Partial.cargo updates) (StoredStudyPlan.cargo p) /\
  StoredStudyPlan.createdAt p'
  = field_after (Partial.createdAt updates) (StoredStudyPlan.createdAt p) /\
  StoredStudyPlan.updatedAt p' = now /\
  StoredStudyPlan.totalDays p'
  = field_after (Partial.totalDays updates) (StoredStudyPlan.totalDays p) /\
  StoredStudyPlan.completedTasks p'
  = field_after (Partial.completedTasks updates)
                (StoredStudyPlan.completedTasks p) /\
  StoredStudyPlan.plans p'
  = field_after (Partial.plans updates) (StoredStudyPlan.plans p) /\
  StoredStudyPlan.formData p'
  = field_after (Partial.formData updates) (StoredStudyPlan.formData p).

(** The entries that the fallback of [getRecentActivity] makes up, in the
    words of the specification.  For a plan: one [created] entry at
    [createdAt]; one [updated] entry at [updatedAt] when the two instants
    differ; and for each [i] below the lesser of 3 and the number of
    completed tasks one [completed_task] entry, [i] hours before the
    instant read for it. *)
Definition entry_created (p : StoredStudyPlan.t) : Activity.t :=
  Activity.mk (StoredStudyPlan.id p +:+ "_created") created
    (StoredStudyPlan.title p) (StoredStudyPlan.createdAt p)
    (created_description (StoredStudyPlan.title p)).

Definition entry_updated (p : StoredStudyPlan.t) : Activity.t :=
  Activity.mk (StoredStudyPlan.id p +:+ "_updated") updated
    (StoredStudyPlan.title p) (StoredStudyPlan.updatedAt p)
    (updated_description (StoredStudyPlan.title p)).

Definition entry_task (read : Z) (p : StoredStudyPlan.t) (i : nat)
    : Activity.t :=
  Activity.mk (StoredStudyPlan.id p +:+ "_task_" +:+ pretty i)
    completed_task (StoredStudyPlan.title p)
    (read - Z.of_nat i * 3600000)
    (completed_description (StoredStudyPlan.title p)).

Definition shown_tasks (p : StoredStudyPlan.t) : nat :=
  Nat.min 3 (length (StoredStudyPlan.completedTasks p)).

(** The entries of one plan, [k] readings of the clock having been made
    for the plans before it. *)
Definition entries_for (clock : nat -> Z) (k : nat)
    (p : StoredStudyPlan.t) : list Activity.t :=
  entry_created p
  :: (if decide (StoredStudyPlan.updatedAt p = StoredStudyPlan.createdAt p)
      then [] else [entry_updated p])
  ++ ((fun i => entry_task (clock (k + i)%nat) p i)
        <$> seq 0 (shown_tasks p)).

(** The entries of all plans, plan after plan. *)
Fixpoint entries_made (clock : nat -> Z) (k : nat)
    (plans : list StoredStudyPlan.t) : list Activity.t :=
  match plans with
  | [] => []
  | p :: plans =>
      entries_for clock k p
      ++ entries_made clock (k + shown_tasks p) plans
  end.

(** [out] is what the fallback gives when run on [st]: its value, what it
    throws, and [null] when there is no fallback. *)
Definition fallback_gives {St F T : Type}
    (fallback : option (St -> Supabase.completion F T * St)) (st : St)
    (out : Supabase.completion F (option T) * St) : Prop :=
  match fallback with
  | None => out = (Supabase.Returns None, st)
  | Some f =>
      (forall v st', f st = (Supabase.Returns v, st') ->
                     out = (Supabase.Returns (Some v), st')) /\
      (forall x st', f st = (Supabase.Throws x, st') ->
                     out = (Supabase.Throws x, st'))
  end.

(** * Properties *)

Example parseInt_4_horas : Js.parseInt "4" = Js.of_Z 4.
Proof. reflexivity. Qed.
Example parseInt_4h : Js.parseInt "  -42px" = Js.of_Z (-42).
Proof. reflexivity. Qed.
Example parseInt_hex : Js.parseInt "0x1f" = Js.of_Z 31.
Proof. reflexivity. Qed.
Example parseInt_words : Js.parseInt "quatro" = Js.NaN.
Proof. reflexivity. Qed.
Example trim_ex : Js.trim "  plan_1 " = "plan_1".
Proof. reflexivity. Qed.
Example split_ex : Js.split_space_0 "4 horas" = "4".
Proof. reflexivity. Qed.
Example substr_ex : Js.substr 2 9 "0.4fzyo82mvyr" = "4fzyo82mv".
Proof. reflexivity. Qed.

(** Unfolds the plumbing of [M] down to pairs of a value and a store. *)
Ltac run_M :=
  unfold result, after, getAllPlans, getActivityLog, mbind, M_bind, mret,
    M_ret, getItem_plans, getItem_activity, setItem_plans, setItem_activity
    in *;
  cbn beta iota zeta in *.

(** ** Reading the store *)

Section Reads.

Implicit Types (s : LocalStorage) (id : string).

Lemma run_bind {A B} (m : M A) (f : A -> M B) s :
  (m ≫= f) s = f (result m s) (after m s).
Proof. unfold mbind, M_bind, result, after. by destruct (m s). Qed.

Lemma run_ret {A} (a : A) s : mret (M := M) a s = (a, s).
Proof. reflexivity. Qed.

Lemma getAllPlans_after s : after getAllPlans s = s.
Proof. reflexivity. Qed.

Lemma getAllPlans_result s :
  result getAllPlans s = parse_or_empty (ddplanner_study_plans s).
Proof. reflexivity. Qed.

Lemma getActivityLog_result s :
  result getActivityLog s = parse_or_empty (ddplanner_activity_log s).
Proof. reflexivity. Qed.

Lemma find_Some {A} (P : A -> Prop) `{!forall x, Decision (P x)}
    (l : list A) (x : A) :
  find P l = Some x ->
  exists i, l !! i = Some x /\ P x /\
            forall j y, l !! j = Some y -> (j < i)%nat -> ~ P y.
Proof.
  unfold find. destruct (list_find P l) as [[i y]|] eqn:E; [|done].
  intros [= <-]. apply list_find_Some in E. by exists i.
Qed.

Lemma find_None {A} (P : A -> Prop) `{!forall x, Decision (P x)}
    (l : list A) :
  find P l = None -> forall y, y ∈ l -> ~ P y.
Proof.
  unfold find. destruct (list_find P l) as [[i y]|] eqn:E; [done|].
  intros _ y Hy. apply list_find_None in E.
  by eapply Forall_forall in E.
Qed.

End Reads.

(** C10. [getPlanById(id)] gives the first stored plan whose [id] is the
    argument (no plan before it in the stored sequence has that [id]),
    gives [null] when no stored plan has that [id], and leaves the local
    store as it was. *)
Theorem getPlanById_first_match (id : string) (s : LocalStorage) :
  after (getPlanById id) s = s /\
  match result (getPlanById id) s with
  | Some p =>
      exists i, result getAllPlans s !! i = Some p /\
                StoredStudyPlan.id p = id /\
                forall j q, result getAllPlans s !! j = Some q ->
                            (j < i)%nat -> StoredStudyPlan.id q <> id
  | None =>
      forall q, q ∈ result getAllPlans s -> StoredStudyPlan.id q <> id
  end.
Proof.
  split; [reflexivity|].
  change (result (getPlanById id) s)
    with (find (fun plan => StoredStudyPlan.id plan = id)
               (result getAllPlans s)).
  destruct (find _ _) as [p|] eqn:E.
  - apply find_Some in E as (i & ? & ? & ?). by exists i.
  - intros q Hq. eapply find_None in E; eauto.
Qed.

Lemma getPlanById_first_match_witness :
  let s := mkLocalStorage (Json [sample_plan "a" []; sample_plan "b" ["t"];
                                 sample_plan "b" []]) Absent in
  after (getPlanById "b") s = s /\
  exists i, result getAllPlans s !! i = Some (sample_plan "b" ["t"]) /\
            forall j q, result getAllPlans s !! j = Some q -> (j < i)%nat ->
                        StoredStudyPlan.id q <> "b".
Proof.
  intros s. destruct (getPlanById_first_match "b" s) as [Hs Hfirst].
  split; [exact Hs|]. destruct Hfirst as (i & Hi & _ & Hbefore).
  by exists i.
Defined.

(** C5. [loadFromSupabase()] has three behaviours.  When the remote fetch
    resolves to a non-empty sequence, the plan partition of the local store
    is replaced by that sequence, which is returned.  When it resolves to
    the empty sequence, the local store is untouched.  When it is rejected,
    the current local plans are returned, the local store is untouched and
    the call still returns. *)
Theorem loadFromSupabase_three_ways
    (remote : settled (list StoredStudyPlan.t)) (s : LocalStorage) :
  match remote with
  | Resolved [] =>
      result (loadFromSupabase remote) s = [] /\
      after (loadFromSupabase remote) s = s
  | Resolved supabasePlans =>
      result (loadFromSupabase remote) s = supabasePlans /\
      result getAllPlans (after (loadFromSupabase remote) s) = supabasePlans /\
      after (loadFromSupabase remote) s =
        mkLocalStorage (Json supabasePlans) (ddplanner_activity_log s)
  | Rejected =>
      result (loadFromSupabase remote) s = result getAllPlans s /\
      after (loadFromSupabase remote) s = s
  end.
Proof. by destruct remote as [[|p ps]|]. Qed.

Example loadFromSupabase_overwrites :
  let A := sample_plan "A" [] in
  let B := sample_plan "B" [] in
  let C := sample_plan "C" [] in
  let local := mkLocalStorage (Json [A]) Absent in
  result getAllPlans (after (loadFromSupabase (Resolved [B; C])) local)
    = [B; C] /\
  result getAllPlans (after (loadFromSupabase (Resolved [])) local) = [A] /\
  result getAllPlans (after (loadFromSupabase Rejected) local) = [A].
Proof. done. Qed.

(** ** The activity log *)

Section ActivityLog.

Implicit Types (s : LocalStorage) (c : LogCall).

Lemma logActivity_plans e ty t d s :
  ddplanner_study_plans (after (logActivity e ty t d) s)
  = ddplanner_study_plans s.
Proof. reflexivity. Qed.

Lemma logActivity_log e ty t d s :
  result getActivityLog (after (logActivity e ty t d) s)
  = take 50 (Activity.mk (make_id "activity" e) ty t (new_date e) d
             :: result getActivityLog s).
Proof. reflexivity. Qed.

Lemma log_call_log c s :
  result getActivityLog (after (log_call c) s)
  = take 50 (entry_of c :: result getActivityLog s).
Proof. reflexivity. Qed.

Lemma log_calls_snoc calls c s :
  log_calls (calls ++ [c]) s = after (log_call c) (log_calls calls s).
Proof. unfold log_calls. by rewrite fold_left_app. Qed.

Lemma take_cons_take {A} (n : nat) (x : A) (l : list A) :
  take (S n) (x :: take (S n) l) = take (S n) (x :: l).
Proof.
  cbn [take]. f_equal. rewrite take_take. f_equal. lia.
Qed.

(** The log after a run of calls, cut at 50, is the newest-first sequence
    of the entries in front of the former log, cut at 50. *)
Lemma log_calls_take calls s :
  take 50 (result getActivityLog (log_calls calls s))
  = take 50 (reverse (entry_of <$> calls) ++ result getActivityLog s).
Proof.
  induction calls as [|c calls IH] using rev_ind; [done|].
  rewrite log_calls_snoc, log_call_log, fmap_app, reverse_app.
  cbn [fmap list_fmap reverse].
  rewrite take_take, Nat.min_id.
  change (reverse [entry_of c]) with [entry_of c]. cbn [app].
  rewrite <- (take_cons_take 49), IH. by rewrite take_cons_take.
Qed.

Lemma log_calls_last calls c s :
  result getActivityLog (log_calls (calls ++ [c]) s)
  = take 50 (entry_of c :: reverse (entry_of <$> calls)
                        ++ result getActivityLog s).
Proof.
  rewrite log_calls_snoc, log_call_log.
  rewrite <- (take_cons_take 49), log_calls_take.
  by rewrite take_cons_take.
Qed.

End ActivityLog.

(** C9. After every [logActivity] call the persisted log has at most 50
    entries; it is the sequence of logged entries newest first, in front of
    what the log held before, cut after 50 entries (so the oldest go
    first), and its element 0 is the entry of the most recent call.  After
    60 calls in a row the log of [getActivityLog()] has at most 50 entries
    and its first element is the entry of the 60th call. *)
Theorem logActivity_retention (calls : list LogCall) (c : LogCall)
    (s : LocalStorage) :
  let log := result getActivityLog (log_calls (calls ++ [c]) s) in
  log = take 50 (entry_of c :: reverse (entry_of <$> calls)
                           ++ result getActivityLog s) /\
  (length log <= 50)%nat /\
  log !! 0%nat = Some (entry_of c) /\
  (length calls = 59%nat ->
   (length log <= 50)%nat /\ head log = Some (entry_of c)).
Proof.
  intros log. subst log. rewrite log_calls_last.
  repeat split.
  - rewrite length_take. lia.
  - rewrite length_take. lia.
Qed.

Lemma logActivity_retention_witness :
  let calls := sample_log_call <$> seq 1 59 in
  let log :=
    result getActivityLog
      (log_calls (calls ++ [sample_log_call 60]) empty_storage) in
  length calls = 59%nat /\
  (length log <= 50)%nat /\ head log = Some (entry_of (sample_log_call 60)).
Proof.
  intros calls log. split; [reflexivity|].
  apply (logActivity_retention calls (sample_log_call 60) empty_storage).
  reflexivity.
Defined.

(** ** Creating a plan *)

Section Save.

Implicit Types (s : LocalStorage) (e ea : Stamp) (planData : PlanData.t).

Lemma savePlan_result e ea remote planData s :
  result (savePlan e ea remote planData) s = make_id "plan" e.
Proof. by destruct remote. Qed.

Lemma savePlan_after e ea remote planData s :
  after (savePlan e ea remote planData) s
  = after (savePlanSync e ea planData) s.
Proof. by destruct remote. Qed.

Lemma savePlanSync_plans e ea planData s :
  result getAllPlans (after (savePlanSync e ea planData) s)
  = result getAllPlans s
      ++ [new_plan planData (make_id "plan" e) (new_date e)].
Proof. reflexivity. Qed.

Lemma savePlanSync_log e ea planData s :
  result getActivityLog (after (savePlanSync e ea planData) s)
  = take 50 (Activity.mk (make_id "activity" ea) created
               (PlanData.title planData) (new_date ea)
               (created_description (PlanData.title planData))
             :: result getActivityLog s).
Proof. reflexivity. Qed.

Lemma new_plan_data planData id now :
  StoredStudyPlan.data (new_plan planData id now) = planData.
Proof. by destruct planData. Qed.

End Save.

(** C7. After [savePlan(data)] or [savePlanSync(data)] returns the id [i],
    [getAllPlans()] is the former sequence of records followed by one new
    record, whose fields are those of [data] with [id = i] and
    [createdAt = updatedAt] the instant of creation, and the newest entry of
    the activity log is a [created] entry for the plan; the same holds
    however the remote write settles, rejected or not. *)
Theorem savePlan_local_durability (e ea : Stamp) (remote : settled unit)
    (planData : PlanData.t) (s : LocalStorage) :
  saved planData (result (savePlan e ea remote planData) s) (new_date e)
        s (after (savePlan e ea remote planData) s) /\
  saved planData (result (savePlanSync e ea planData) s) (new_date e)
        s (after (savePlanSync e ea planData) s) /\
  result (savePlan e ea remote planData) s
    = result (savePlan e ea Rejected planData) s /\
  after (savePlan e ea remote planData) s
    = after (savePlan e ea Rejected planData) s.
Proof.
  assert (saved planData (make_id "plan" e) (new_date e) s
                (after (savePlanSync e ea planData) s)) as Hsync.
  { split.
    - eexists. rewrite savePlanSync_plans. split; [reflexivity|].
      by rewrite new_plan_data.
    - eexists. rewrite savePlanSync_log. by cbn. }
  rewrite !savePlan_result, !savePlan_after.
  split; [exact Hsync|]. split; [exact Hsync|]. done.
Qed.

Example savePlan_remote_down :
  let s := mkLocalStorage (Json [sample_plan "plan_1_a" []]) Absent in
  let e := mkStamp 1700000000000 "0.k3j9x0q1zd8" 1700000000001 in
  let run := savePlan e e Rejected (sample_data "Plano B" "2 horas" []) in
  result run s = "plan_1700000000000_k3j9x0q1z" /\
  StoredStudyPlan.id <$> result getAllPlans (after run s)
    = ["plan_1_a"; "plan_1700000000000_k3j9x0q1z"] /\
  Activity.type <$> result getActivityLog (after run s) = [created].
Proof. by vm_compute. Qed.

(** ** Deleting a plan *)

Section Delete.

Implicit Types (s : LocalStorage) (id : string).

Lemma filter_from_all {A} (l : list A) (m k : nat) :
  (k < m)%nat ->
  filter_from (fun _ index => negb (index =? k)%nat) m l = l.
Proof.
  revert m. induction l as [|x l IH]; intros m Hlt; [done|].
  cbn [filter_from]. destruct (Nat.eqb_spec m k); [lia|].
  cbn. f_equal. apply IH. lia.
Qed.

Lemma filter_from_delete {A} (l : list A) (k i : nat) :
  filter_from (fun _ index => negb (index =? k + i)%nat) k l = delete i l.
Proof.
  revert k i. induction l as [|x l IH]; intros k i; [done|].
  cbn [filter_from]. destruct i as [|i].
  - rewrite Nat.add_0_r, Nat.eqb_refl. cbn. apply filter_from_all. lia.
  - destruct (Nat.eqb_spec k (k + S i)); [lia|]. cbn. f_equal.
    replace (k + S i)%nat with (S k + i)%nat by lia. apply IH.
Qed.

Lemma filter_index_delete {A} (l : list A) (i : nat) :
  filter_index (fun _ index => negb (index =? i)%nat) l = delete i l.
Proof. apply (filter_from_delete l 0 i). Qed.

Lemma deleteFromLocalStorage_found id s i p :
  list_find (fun plan => StoredStudyPlan.id plan = id)
            (result getAllPlans s) = Some (i, p) ->
  deleteFromLocalStorage id s
  = (true, mkLocalStorage (Json (delete i (result getAllPlans s)))
                          (ddplanner_activity_log s)).
Proof.
  unfold deleteFromLocalStorage, findIndex. run_M.
  destruct (ddplanner_study_plans s) as [| |plans]; cbn; [done..|].
  intros ->. cbn. by rewrite filter_index_delete.
Qed.

Lemma deleteFromLocalStorage_missing id s :
  list_find (fun plan => StoredStudyPlan.id plan = id)
            (result getAllPlans s) = None ->
  deleteFromLocalStorage id s = (false, s).
Proof.
  unfold deleteFromLocalStorage, findIndex. run_M.
  destruct (ddplanner_study_plans s) as [| |plans]; cbn; [done..|].
  by intros ->.
Qed.

Lemma deletePlan_run remote id s :
  deletePlan remote id s
  = if decide (id = "" \/ Js.trim id = "") then (false, s)
    else deleteFromLocalStorage (Js.trim id) s.
Proof.
  unfold deletePlan. case_decide; [done|]. rewrite run_bind.
  unfold result, after.
  destruct (deleteFromLocalStorage (Js.trim id) s) as [[] s'];
    by destruct remote.
Qed.

End Delete.

(** C6, as the claim words it, fails on a store holding a plan whose [id]
    is the empty string (an update with [{ id: "" }] of a saved plan leads
    there): the argument [" "] is a non-empty string, its trimmed value is
    the [id] of a stored plan, and [deletePlan] answers [false]. *)
Lemma deletePlan_blank_argument :
  ~ (forall (remote : settled unit) (id : string) (s : LocalStorage),
       result (deletePlan remote id) s = true <->
       id <> "" /\
       exists p, p ∈ result getAllPlans s /\
                 StoredStudyPlan.id p = Js.trim id).
Proof.
  intros H.
  assert (result (deletePlan Rejected " ") store_with_empty_id = false)
    as Hfalse by by vm_compute.
  assert (exists p, result getAllPlans store_with_empty_id = [p] /\
                    StoredStudyPlan.id p = "") as (p & Hp & Hid).
  { eexists. split; [by vm_compute|done]. }
  destruct (H Rejected " " store_with_empty_id) as [_ Htrue].
  rewrite Htrue in Hfalse; [done|].
  split; [done|]. exists p. rewrite Hp. split; [|done].
  apply list_elem_of_here.
Qed.

(** C6 (amended). [deletePlan(id)] returns [true] exactly when the trimmed
    value of [id] is non-empty and is the [id] of a stored plan.  When it
    returns [true] the store is the former store without the first record
    of that [id], whether the remote delete resolves or is rejected; when it
    returns [false] the store is unchanged. *)
Theorem deletePlan_fails_closed (remote : settled unit) (id : string)
    (s : LocalStorage) :
  (result (deletePlan remote id) s = true <->
   Js.trim id <> "" /\
   exists p, p ∈ result getAllPlans s /\
             StoredStudyPlan.id p = Js.trim id) /\
  (if result (deletePlan remote id) s
   then removed_one (Js.trim id) s (after (deletePlan remote id) s)
   else after (deletePlan remote id) s = s) /\
  deletePlan remote id s = deletePlan Rejected id s.
Proof.
  set (plans := result getAllPlans s).
  unfold result, after. rewrite !deletePlan_run.
  destruct (decide (id = "" \/ Js.trim id = "")) as [Hbad|Hok].
  { cbn. repeat split; try done.
    intros [Hne _]. destruct Hbad as [->|?]; done. }
  assert (Js.trim id <> "") as Hne by tauto.
  destruct (list_find (fun plan => StoredStudyPlan.id plan = Js.trim id)
              plans) as [[i p]|] eqn:E.
  - rewrite (deleteFromLocalStorage_found _ _ _ _ E).
    apply list_find_Some in E as (Hi & Hp & Hfirst). cbn.
    split; [|split; [|done]].
    + split; [|done]. intros _. split; [done|]. exists p. split; [|done].
      by eapply list_elem_of_lookup_2.
    + by exists i, p.
  - rewrite (deleteFromLocalStorage_missing _ _ E). cbn.
    apply list_find_None in E.
    repeat split; try done.
    intros [_ (p & Hin & Hp)]. by eapply Forall_forall in E.
Qed.

Lemma deletePlan_fails_closed_witness :
  let s := mkLocalStorage (Json [sample_plan "a" []; sample_plan "b" []])
                          Absent in
  Js.trim " b " <> "" /\
  (exists p, p ∈ result getAllPlans s /\
             StoredStudyPlan.id p = Js.trim " b ") /\
  result (deletePlan Rejected " b ") s = true.
Proof.
  intros s.
  assert (Js.trim " b " <> "" /\
          exists p, p ∈ result getAllPlans s /\
                    StoredStudyPlan.id p = Js.trim " b ") as Hfound.
  { split; [done|]. exists (sample_plan "b" []). split; [|done].
    apply list_elem_of_further, list_elem_of_here. }
  split; [apply Hfound|]. split; [apply Hfound|].
  by apply (deletePlan_fails_closed Rejected " b " s).
Defined.

Example deletePlan_trims :
  let s := mkLocalStorage (Json [sample_plan "a" []; sample_plan "b" []])
                          Absent in
  result (deletePlan Rejected " a ") s = true /\
  result getAllPlans (after (deletePlan Rejected " a ") s)
    = [sample_plan "b" []] /\
  deletePlan (Resolved ()) "c" s = (false, s) /\
  deletePlan (Resolved ()) "   " s = (false, s).
Proof. by vm_compute. Qed.

(** ** Updating a plan *)

Section Update.

Implicit Types (s : LocalStorage) (id : string) (updates : Partial.t).

Lemma log_completed_grown e1 e2 updates tasks old title s :
  Partial.completedTasks updates = Some tasks ->
  (old < length tasks)%nat ->
  log_completed e1 e2 updates old title s
  = (tt, mkLocalStorage (ddplanner_study_plans s)
           (Json (take 50 (updated_entry e2 title
                           :: take 50 (completed_entry e1 title
                                       :: result getActivityLog s))))).
Proof.
  intros Hu Hlt. unfold log_completed. rewrite Hu.
  rewrite !decide_True by done. reflexivity.
Qed.

Lemma log_completed_same e1 e2 updates tasks old title s :
  Partial.completedTasks updates = Some tasks ->
  ~ (old < length tasks)%nat ->
  log_completed e1 e2 updates old title s
  = (tt, mkLocalStorage (ddplanner_study_plans s)
           (Json (take 50 (updated_entry e1 title
                           :: result getActivityLog s)))).
Proof.
  intros Hu Hlt. unfold log_completed. rewrite Hu.
  rewrite !decide_False by done. reflexivity.
Qed.

Lemma log_completed_none e1 e2 updates old title s :
  Partial.completedTasks updates = None ->
  log_completed e1 e2 updates old title s = (tt, s).
Proof. intros Hu. unfold log_completed. by rewrite Hu. Qed.

Lemma merge_completedTasks p updates now tasks :
  Partial.completedTasks updates = Some tasks ->
  StoredStudyPlan.completedTasks (merge p updates now) = tasks.
Proof. intros Hu. cbn. by rewrite Hu. Qed.

(** [updatePlan] and [updatePlanSync] write the same plans. *)
Lemma updatePlanSync_found now e1 e2 id updates s i p :
  list_find (fun plan => StoredStudyPlan.id plan = id)
            (result getAllPlans s) = Some (i, p) ->
  updatePlanSync now e1 e2 id updates s
  = (true,
     after (log_completed e1 e2 updates
              (length (StoredStudyPlan.completedTasks p))
              (StoredStudyPlan.title (merge p updates now)))
       (mkLocalStorage
          (Json (<[i := merge p updates now]> (result getAllPlans s)))
          (ddplanner_activity_log s))).
Proof.
  intros E. unfold updatePlanSync. rewrite run_bind, E.
  rewrite !run_bind. reflexivity.
Qed.

Lemma updatePlan_found now e1 e2 remote id updates s i p :
  list_find (fun plan => StoredStudyPlan.id plan = id)
            (result getAllPlans s) = Some (i, p) ->
  updatePlan now e1 e2 remote id updates s
  = (true,
     after (log_completed e1 e2 updates
              (length (StoredStudyPlan.completedTasks
                         (merge p updates now)))
              (StoredStudyPlan.title (merge p updates now)))
       (mkLocalStorage
          (Json (<[i := merge p updates now]> (result getAllPlans s)))
          (ddplanner_activity_log s))).
Proof.
  intros E. unfold updatePlan. rewrite run_bind, E.
  apply list_find_Some in E as (Hi & _ & _).
  rewrite list_lookup_insert_eq by by eapply lookup_lt_Some.
  rewrite !run_bind. by destruct remote.
Qed.

Lemma updatePlan_missing now e1 e2 remote id updates s :
  list_find (fun plan => StoredStudyPlan.id plan = id)
            (result getAllPlans s) = None ->
  updatePlan now e1 e2 remote id updates s = (false, s) /\
  updatePlanSync now e1 e2 id updates s = (false, s).
Proof.
  intros E. unfold updatePlan, updatePlanSync. by rewrite !run_bind, E.
Qed.

(** The synchronous variant logs both entries when the sequence grew. *)
Lemma updatePlanSync_logs_both now e1 e2 id updates tasks s i p :
  list_find (fun plan => StoredStudyPlan.id plan = id)
            (result getAllPlans s) = Some (i, p) ->
  Partial.completedTasks updates = Some tasks ->
  (length (StoredStudyPlan.completedTasks p) < length tasks)%nat ->
  let log :=
    result getActivityLog (after (updatePlanSync now e1 e2 id updates) s) in
  let title := StoredStudyPlan.title (merge p updates now) in
  log !! 0%nat = Some (updated_entry e2 title) /\
  log !! 1%nat = Some (completed_entry e1 title) /\
  drop 2 log = take 48 (result getActivityLog s).
Proof.
  intros E Hu Hlt log title.
  assert (log = take 50 (updated_entry e2 title
                         :: take 50 (completed_entry e1 title
                                     :: result getActivityLog s))) as ->.
  { subst log. unfold after at 1.
    rewrite (updatePlanSync_found _ _ _ _ _ _ _ _ E).
    unfold after. by rewrite (log_completed_grown _ _ _ _ _ _ _ Hu Hlt). }
  change 50%nat with (S (S 48)). cbn [take lookup list_lookup drop].
  rewrite take_take. repeat split.
Qed.

(** The asynchronous variant compares the new count with itself, so it
    logs one [updated] entry and never a [completed_task] entry. *)
Lemma updatePlan_logs_updated_only now e1 e2 remote id updates tasks s i p :
  list_find (fun plan => StoredStudyPlan.id plan = id)
            (result getAllPlans s) = Some (i, p) ->
  Partial.completedTasks updates = Some tasks ->
  result getActivityLog (after (updatePlan now e1 e2 remote id updates) s)
  = take 50 (updated_entry e1 (StoredStudyPlan.title (merge p updates now))
             :: result getActivityLog s).
Proof.
  intros E Hu. unfold after at 1.
  rewrite (updatePlan_found _ _ _ _ _ _ _ _ _ E).
  unfold after. rewrite (merge_completedTasks _ _ _ _ Hu).
  rewrite (log_completed_same _ _ _ _ _ _ _ Hu) by lia.
  reflexivity.
Qed.

End Update.

(** C1. On a store holding the plan ["p1"] with no completed task,
    [updatePlan("p1", { completedTasks: ["t1"] })] logs one entry, of type
    [updated], and no [completed_task] entry; [updatePlanSync] on the same
    input logs both, [updated] at index 0 and [completed_task] at
    index 1. *)
Theorem updatePlan_skips_completed_task :
  let s := mkLocalStorage (Json [sample_plan "p1" []]) Absent in
  let updates := Partial.only_completedTasks ["t1"] in
  let e1 := mkStamp 20 "0.k3j9x0q1zd8" 20 in
  let e2 := mkStamp 21 "0.p7c2m4n8bq1" 21 in
  Activity.type <$>
    result getActivityLog
      (after (updatePlan 20 e1 e2 (Resolved ()) "p1" updates) s)
  = [updated] /\
  Activity.type <$>
    result getActivityLog (after (updatePlanSync 20 e1 e2 "p1" updates) s)
  = [updated; completed_task].
Proof. by vm_compute. Qed.

(** ** Progress *)

Section Statistics.

Implicit Types (p : StoredStudyPlan.t) (ps : list StoredStudyPlan.t).

Lemma day_slots_nonneg d : 0 <= day_slots d.
Proof. unfold day_slots. repeat case_match; lia. Qed.





Lemma same_Fin_eq (x : Js.number) (a b : Q) :
  Js.same x (Js.Fin a) -> (a == b)%Q -> Js.same x (Js.Fin b).
Proof. destruct x; cbn; [done|]. intros -> ->. reflexivity. Qed.


Lemma round_nearest (q m : Q) :
  (q == m)%Q -> exists z, Js.round (Js.Fin q) = Js.of_Z z /\ nearest m z.
Proof.
  intros Hq. eexists. split; [reflexivity|].
  pose proof (Qfloor_le (q + (1 # 2))).
  pose proof (Qlt_floor (q + (1 # 2))).
  rewrite inject_Z_plus in *. unfold nearest.
  change (inject_Z 1) with 1%Q in *.
  generalize dependent (inject_Z (Qfloor (q + (1 # 2)))). intros f ??.
  split; lra.
Qed.



End Statistics.

(** ** Rounding to the nearest double *)

Section Rounding.

Import Double.


Local Open Scope Q_scope.

Lemma pow2_pos e : 0 < pow2 e.
Proof. apply Qpower_0_lt. reflexivity. Qed.

Lemma pow2_add a b : pow2 (a + b) == pow2 a * pow2 b.
Proof. apply Qpower_plus. discriminate. Qed.

Lemma pow2_le a b : (a <= b)%Z -> pow2 a <= pow2 b.
Proof. intros H. apply Qpower_le_compat_l; [done|]. discriminate. Qed.

Lemma pow2_lt a b : (a < b)%Z -> pow2 a < pow2 b.
Proof. intros H. apply Qpower_lt_compat_l; [done|]. reflexivity. Qed.

Lemma pow2_lt_inv a b : pow2 a < pow2 b -> (a < b)%Z.
Proof.
  intros H. destruct (Z_lt_le_dec a b) as [|Hle]; [done|].
  apply pow2_le in Hle. lra.
Qed.

Lemma pow2_Z k : (0 <= k)%Z -> pow2 k == inject_Z (2 ^ k).
Proof. intros H. unfold pow2. by rewrite Zpower_Qpower. Qed.

Lemma pow2_succ a : pow2 (a + 1) == 2 * pow2 a.
Proof. rewrite pow2_add. change (pow2 1) with 2. lra. Qed.


Lemma Qmake_div (n : Z) (d : positive) :
  n # d == inject_Z n / inject_Z (Zpos d).
Proof. apply Qmake_Qdiv. Qed.

Lemma log2_bounds (n : Z) :
  (0 < n)%Z ->
  pow2 (Z.log2 n) <= inject_Z n /\ inject_Z n < 2 * pow2 (Z.log2 n).
Proof.
  intros Hn. pose proof (Z.log2_spec n Hn) as [H1 H2].
  pose proof (Z.log2_nonneg n) as H0.
  rewrite <- pow2_succ. rewrite !pow2_Z by lia.
  rewrite <- Zle_Qle, <- Zlt_Qlt. change (Z.succ ?x) with (x + 1)%Z in H2.
  split; lia.
Qed.

Lemma ilog2_spec (q : Q) :
  0 < q -> pow2 (ilog2 q) <= q /\ q < pow2 (ilog2 q + 1).
Proof.
  intros Hq. destruct q as [n d].
  assert (0 < n)%Z as Hn.
  { unfold Qlt in Hq. cbn in Hq. lia. }
  unfold ilog2. cbn [Qnum Qden].
  set (a := Z.log2 n). set (b := Z.log2 (Z.pos d)).
  destruct (log2_bounds n Hn) as [Ha1 Ha2].
  destruct (log2_bounds (Z.pos d) eq_refl) as [Hb1 Hb2].
  fold a in Ha1, Ha2. fold b in Hb1, Hb2.
  pose proof (pow2_pos a) as Hpa. pose proof (pow2_pos b) as Hpb.
  pose proof (pow2_pos (a - b)) as Hpl.
  assert (pow2 a == pow2 (a - b) * pow2 b) as Hab.
  { rewrite <- pow2_add. by replace (a - b + b)%Z with a by lia. }
  assert (inject_Z n == (n # d) * inject_Z (Z.pos d)) as Hnd.
  { rewrite Qmake_div. field. intros H. by rewrite H in Hb1; lra. }
  set (q := n # d) in *. clearbody q.
  destruct (Qle_bool (pow2 (a - b)) q) eqn:E.
  - apply Qle_bool_iff in E. split; [done|].
    rewrite pow2_succ. nra.
  - assert (q < pow2 (a - b)) as Hlt.
    { apply Qnot_le_lt. intros H. apply Qle_bool_iff in H. congruence. }
    replace (a - b - 1 + 1)%Z with (a - b)%Z by lia. split; [|done].
    assert (pow2 (a - b) == 2 * pow2 (a - b - 1)) as Hhalf.
    { rewrite <- pow2_succ. by replace (a - b - 1 + 1)%Z with (a - b)%Z by lia. }
    pose proof (pow2_pos (a - b - 1)). nra.
Qed.

Lemma ilog2_unique (q : Q) (l : Z) :
  pow2 l <= q -> q < pow2 (l + 1) -> ilog2 q = l.
Proof.
  intros H1 H2.
  assert (0 < q) as Hq by (pose proof (pow2_pos l); lra).
  destruct (ilog2_spec q Hq) as [H3 H4].
  assert (ilog2 q < l + 1)%Z by (apply pow2_lt_inv; lra).
  assert (l < ilog2 q + 1)%Z by (apply pow2_lt_inv; lra).
  lia.
Qed.

Lemma ilog2_mono (x y : Q) : 0 < x -> x <= y -> (ilog2 x <= ilog2 y)%Z.
Proof.
  intros Hx Hxy.
  destruct (ilog2_spec x Hx) as [H1 _].
  destruct (ilog2_spec y) as [_ H2]; [lra|].
  assert (ilog2 x < ilog2 y + 1)%Z by (apply pow2_lt_inv; lra).
  lia.
Qed.

Lemma expo_mono (x y : Q) : 0 < x -> x <= y -> (expo x <= expo y)%Z.
Proof. intros Hx Hxy. pose proof (ilog2_mono x y Hx Hxy). unfold expo. lia. Qed.


Lemma rne_cases (u : Q) :
  let f := Qfloor u in
  (u - inject_Z f < 1 # 2 /\ rne u = f) \/
  (1 # 2 < u - inject_Z f /\ rne u = (f + 1)%Z) \/
  (u - inject_Z f == 1 # 2 /\ rne u = if Z.even f then f else (f + 1)%Z).
Proof.
  intros f. unfold rne. fold f.
  destruct (Qcompare_spec (u - inject_Z f) (1 # 2)) as [H|H|H]; auto.
Qed.

Lemma floor_bounds (u : Q) :
  inject_Z (Qfloor u) <= u /\ u < inject_Z (Qfloor u) + 1.
Proof.
  pose proof (Qfloor_le u) as H1. pose proof (Qlt_floor u) as H2.
  rewrite inject_Z_plus in H2. change (inject_Z 1) with 1 in H2. done.
Qed.

Lemma rne_Z (z : Z) : rne (inject_Z z) = z.
Proof.
  destruct (rne_cases (inject_Z z)) as [[H ->]|[[H ->]|[H ->]]];
    rewrite Qfloor_Z in *; [done|lra|lra].
Qed.

Lemma rne_mono (u v : Q) : u <= v -> (rne u <= rne v)%Z.
Proof.
  intros Huv. pose proof (Qfloor_resp_le u v Huv) as Hf.
  pose proof (floor_bounds u) as [Hu1 Hu2].
  pose proof (floor_bounds v) as [Hv1 Hv2].
  destruct (rne_cases u) as [[Hu ->]|[[Hu ->]|[Hu ->]]];
  destruct (rne_cases v) as [[Hv ->]|[[Hv ->]|[Hv ->]]];
    cbv zeta in *;
    destruct (Z.eq_dec (Qfloor u) (Qfloor v)) as [E|E];
    try rewrite E in *; repeat case_match; try lia; try lra.
Qed.

Lemma rne_le_Z (u : Q) (z : Z) : u <= inject_Z z -> (rne u <= z)%Z.
Proof. intros H. rewrite <- (rne_Z z). by apply rne_mono. Qed.

Lemma rne_ge_Z (u : Q) (z : Z) : inject_Z z <= u -> (z <= rne u)%Z.
Proof. intros H. rewrite <- (rne_Z z). by apply rne_mono. Qed.


Lemma expo_ilog2 (q : Q) : (ilog2 q - 52 <= expo q)%Z /\ (emin <= expo q)%Z.
Proof. unfold expo. lia. Qed.

Lemma scaled_le (x b : Q) (e : Z) : x <= b * pow2 e -> x / pow2 e <= b.
Proof.
  intros H. pose proof (pow2_pos e) as He.
  apply Qle_shift_div_r; [done|]. lra.
Qed.

Lemma scaled_ge (x b : Q) (e : Z) : b * pow2 e <= x -> b <= x / pow2 e.
Proof.
  intros H. pose proof (pow2_pos e) as He.
  apply Qle_shift_div_l; [done|]. lra.
Qed.

Lemma rnd_pos_le_grid (x : Q) (k : Z) :
  0 < x -> (0 <= k)%Z -> x <= pow2 (expo x + k) ->
  rnd_pos x <= pow2 (expo x + k).
Proof.
  intros Hx Hk H. unfold rnd_pos. cbv zeta.
  rewrite pow2_add, (pow2_Z k) by done.
  rewrite (Qmult_comm (pow2 (expo x))).
  apply Qmult_le_compat_r; [|apply Qlt_le_weak, pow2_pos].
  rewrite <- Zle_Qle. apply rne_le_Z, scaled_le.
  by rewrite <- pow2_Z, Qmult_comm, <- pow2_add.
Qed.

Lemma rnd_pos_ge_grid (x : Q) (k : Z) :
  0 < x -> (0 <= k)%Z -> pow2 (expo x + k) <= x ->
  pow2 (expo x + k) <= rnd_pos x.
Proof.
  intros Hx Hk H. unfold rnd_pos. cbv zeta.
  rewrite pow2_add, (pow2_Z k) by done.
  rewrite (Qmult_comm (pow2 (expo x))).
  apply Qmult_le_compat_r; [|apply Qlt_le_weak, pow2_pos].
  rewrite <- Zle_Qle. apply rne_ge_Z, scaled_ge.
  by rewrite <- pow2_Z, Qmult_comm, <- pow2_add.
Qed.

Lemma rnd_pos_mono (x y : Q) : 0 < x -> x <= y -> rnd_pos x <= rnd_pos y.
Proof.
  intros Hx Hxy. assert (0 < y) as Hy by lra.
  pose proof (expo_mono x y Hx Hxy) as He.
  destruct (Z.eq_dec (expo x) (expo y)) as [E|E].
  - unfold rnd_pos. cbv zeta. rewrite E.
    apply Qmult_le_compat_r; [|apply Qlt_le_weak, pow2_pos].
    rewrite <- Zle_Qle. apply rne_mono.
    pose proof (pow2_pos (expo y)).
    apply Qmult_le_compat_r; [done|]. apply Qlt_le_weak, Qinv_lt_0_compat. done.
  - destruct (ilog2_spec x Hx) as [_ Hx2].
    destruct (ilog2_spec y Hy) as [Hy1 _].
    pose proof (expo_ilog2 x) as [Hx3 Hx4].
    assert (expo y = ilog2 y - 52)%Z as Hey by (unfold expo in *; lia).
    apply Qle_trans with (pow2 (expo y + 52)).
    + replace (expo y + 52)%Z with (expo x + (expo y + 52 - expo x))%Z by lia.
      apply rnd_pos_le_grid; [done|lia|].
      apply Qlt_le_weak, Qlt_le_trans with (1 := Hx2). apply pow2_le. lia.
    + apply rnd_pos_ge_grid; [done|lia|].
      by replace (expo y + 52)%Z with (ilog2 y) by lia.
Qed.

Lemma rnd_pos_nonneg (x : Q) : 0 < x -> 0 <= rnd_pos x.
Proof.
  intros Hx. unfold rnd_pos. cbv zeta.
  apply Qmult_le_0_compat; [|apply Qlt_le_weak, pow2_pos].
  change 0 with (inject_Z 0). rewrite <- Zle_Qle. apply rne_ge_Z.
  pose proof (pow2_pos (expo x)).
  apply Qlt_le_weak, Qlt_shift_div_l; [done|]. change (inject_Z 0) with 0. lra.
Qed.

Lemma Qnum_sign (q : Q) :
  match Qnum q with
  | Z0 => q == 0
  | Zpos _ => 0 < q
  | Zneg _ => q < 0
  end.
Proof. destruct q as [[|n|n] d]; unfold Qeq, Qlt; cbn; lia. Qed.

Lemma rnd_of_pos (x : Q) : 0 < x -> rnd x = rnd_pos x.
Proof.
  intros Hx. unfold rnd. pose proof (Qnum_sign x).
  destruct (Qnum x); [lra|done|lra].
Qed.

Lemma rnd_of_neg (x : Q) : x < 0 -> rnd x = - rnd_pos (- x).
Proof.
  intros Hx. unfold rnd. pose proof (Qnum_sign x).
  destruct (Qnum x); [lra|lra|done].
Qed.

Lemma rnd_of_zero (x : Q) : x == 0 -> rnd x = 0.
Proof.
  intros Hx. unfold rnd. pose proof (Qnum_sign x).
  destruct (Qnum x); [done|lra|lra].
Qed.

(** Rounding is monotone. *)
Lemma rnd_mono (x y : Q) : x <= y -> rnd x <= rnd y.
Proof.
  intros Hxy.
  destruct (Q_dec x 0) as [[Hx|Hx]|Hx]; destruct (Q_dec y 0) as [[Hy|Hy]|Hy];
    try lra.
  - rewrite !rnd_of_neg by done.
    pose proof (rnd_pos_mono (- y) (- x)). lra.
  - rewrite rnd_of_neg, rnd_of_pos by done.
    pose proof (rnd_pos_nonneg (- x)). pose proof (rnd_pos_nonneg y). lra.
  - rewrite rnd_of_neg, rnd_of_zero by done.
    pose proof (rnd_pos_nonneg (- x)). lra.
  - rewrite !rnd_of_pos by done. by apply rnd_pos_mono.
  - rewrite rnd_of_zero, rnd_of_pos by done. by apply rnd_pos_nonneg.
  - by rewrite !rnd_of_zero.
Qed.


Lemma rnd_proper (x y : Q) : x == y -> rnd x == rnd y.
Proof.
  intros H. apply Qle_antisym; apply rnd_mono; lra.
Qed.

(** A number [m * 2^e] with [m] below [2^53] and [e] at least [emin] is
    a double: rounding leaves it as it is. *)
Lemma rnd_exact (m e : Z) :
  (0 <= m < 2 ^ 53)%Z -> (emin <= e)%Z ->
  rnd (inject_Z m * pow2 e) == inject_Z m * pow2 e.
Proof.
  intros Hm He. pose proof (pow2_pos e) as Hpe.
  destruct (Z.eq_dec m 0%Z) as [->|Hm0].
  { change (inject_Z 0) with 0. rewrite rnd_of_zero; lra. }
  assert (1 <= inject_Z m) as Hm1.
  { change 1 with (inject_Z 1). rewrite <- Zle_Qle. lia. }
  assert (inject_Z m < pow2 53) as Hm2.
  { rewrite pow2_Z by done. rewrite <- Zlt_Qlt. lia. }
  set (x := inject_Z m * pow2 e).
  assert (0 < x) as Hx by (unfold x; nra).
  rewrite rnd_of_pos by done.
  destruct (ilog2_spec x Hx) as [Hl _].
  assert (ilog2 x < 53 + e)%Z as Hlt.
  { apply pow2_lt_inv. apply Qle_lt_trans with (1 := Hl).
    rewrite pow2_add. unfold x. nra. }
  assert (expo x <= e)%Z as Hex by (unfold expo; lia).
  unfold rnd_pos. cbv zeta.
  generalize dependent (expo x). intros ex Hex.
  pose proof (pow2_pos ex) as Hpx.
  assert (pow2 e == pow2 (e - ex) * pow2 ex) as Hsplit.
  { rewrite <- pow2_add. by replace (e - ex + ex)%Z with e by lia. }
  assert (x / pow2 ex == inject_Z (m * 2 ^ (e - ex))) as Hq.
  { rewrite inject_Z_mult, <- pow2_Z by lia. unfold x. rewrite Hsplit.
    generalize dependent (pow2 ex). generalize (pow2 (e - ex)).
    intros a b Hb _. field. lra. }
  assert (rne (x / pow2 ex) = (m * 2 ^ (e - ex))%Z) as ->.
  { apply Z.le_antisymm; [apply rne_le_Z|apply rne_ge_Z]; lra. }
  rewrite <- Hq. generalize dependent (pow2 ex). intros b Hb _ _. field. lra.
Qed.

Lemma rnd_Z (z : Z) : (0 <= z < 2 ^ 53)%Z -> rnd (inject_Z z) == inject_Z z.
Proof.
  intros Hz. pose proof (rnd_exact z 0 Hz) as H.
  change (pow2 0) with 1 in H.
  rewrite <- (Qmult_1_r (inject_Z z)) at 2. rewrite <- H by done.
  apply rnd_proper. lra.
Qed.


Lemma below_overflow (q : Q) (k : Z) :
  q <= pow2 k -> (k < 1024)%Z -> q < pow2 1024.
Proof. intros H Hk. apply Qle_lt_trans with (1 := H). by apply pow2_lt. Qed.

(** A result between 0 and a double below the overflow threshold gives a
    finite double within the same bounds. *)
Lemma of_Q_Fin (q b : Q) :
  0 <= q -> q <= b -> rnd b == b -> b < pow2 1024 ->
  of_Q q = Fin (Qred (rnd q)) /\ 0 <= Qred (rnd q) /\ Qred (rnd q) <= b.
Proof.
  intros H0 Hb Hr Ho. pose proof (rnd_mono q b Hb) as H1.
  pose proof (rnd_mono 0 q H0) as H2. change (rnd 0) with 0 in H2.
  pose proof (pow2_pos 1024) as Hp.
  split; [|rewrite Qred_correct; lra]. unfold of_Q. cbv zeta.
  destruct (Qle_bool (pow2 1024) (rnd q)) eqn:E1.
  { apply Qle_bool_iff in E1. lra. }
  destruct (Qle_bool (rnd q) (- pow2 1024)) eqn:E2; [|done].
  apply Qle_bool_iff in E2. lra.
Qed.


Lemma Qred_inject_Z (z : Z) : Qred (inject_Z z) = inject_Z z.
Proof.
  unfold Qred, inject_Z.
  pose proof (Z.ggcd_gcd z 1) as Hg.
  pose proof (Z.ggcd_correct_divisors z 1) as Hd.
  destruct (Z.ggcd z 1) as [g [a b]]. cbn [fst snd] in *.
  rewrite Z.gcd_1_r in Hg. subst g. destruct Hd as [Ha Hb].
  rewrite Z.mul_1_l in Ha, Hb. by subst.
Qed.

(** An integer below [2^53] is a double. *)
Lemma of_Z_exact (z : Z) :
  (0 <= z < 2 ^ 53)%Z -> of_Z z = Fin (inject_Z z).
Proof.
  intros Hz. unfold of_Z.
  destruct (of_Q_Fin (inject_Z z) (inject_Z z)) as (-> & _ & _).
  - change 0 with (inject_Z 0). rewrite <- Zle_Qle. lia.
  - lra.
  - by apply rnd_Z.
  - apply below_overflow with 53%Z; [|done].
    rewrite pow2_Z by done. rewrite <- Zle_Qle. lia.
  - rewrite (Qred_complete _ _ (rnd_Z z Hz)).
    f_equal. apply Qred_inject_Z.
Qed.

End Rounding.

(** ** Progress in double arithmetic *)

Section DoubleProgress.

Import Double.

Implicit Types (p : StoredStudyPlan.t) (ps : list StoredStudyPlan.t).

Lemma denominator_le (l : list DayPlan.t) :
  0 <= foldr Z.add 0 (day_slots <$> l) <= 5 * Z.of_nat (length l).
Proof.
  induction l as [|d l IH]; cbn [fmap list_fmap foldr length]; [lia|].
  pose proof (day_slots_nonneg d).
  assert (day_slots d <= 5) by (unfold day_slots; repeat case_match; lia).
  lia.
Qed.













End DoubleProgress.



(** The operations agree with the doubles of the machine. *)
Example of_float_samples :
  Double.of_float (23 / 40 * 100)
  = Double.mul (Double.div (Double.of_Z 23) (Double.of_Z 40))
               (Double.of_Z 100) /\
  Double.of_float (1 / 3 * 100 + 11 / 12 * 100)
  = Double.add
      (Double.mul (Double.div (Double.of_Z 1) (Double.of_Z 3))
                  (Double.of_Z 100))
      (Double.mul (Double.div (Double.of_Z 11) (Double.of_Z 12))
                  (Double.of_Z 100)) /\
  Double.of_float (9007199254740992 + 1) = Double.of_Z (2 ^ 53 + 1) /\
  Double.of_float (0x1p1023 * 2) = Double.mul (Double.of_Q (Double.pow2 1023)) (Double.of_Z 2) /\
  Double.of_float (0x1p-1074 / 2)
  = Double.div (Double.of_Q (Double.pow2 (-1074))) (Double.of_Z 2) /\
  Double.of_float (0x3p-1074 / 2)
  = Double.div (Double.of_Q (3 * Double.pow2 (-1074))) (Double.of_Z 2).
Proof. by vm_compute. Qed.

(** With 23 of 40 task slots done the quotient 23/40 is not a double: the
    progress is the double below 57.5 and [averageProgress] is 57. *)
Example getStats_23_of_40 :
  DoubleStats.planProgress plan_23_of_40
  = Double.Fin (8092405580431359 # 2 ^ 47) /\
  DoubleStats.averageProgress (DoubleStats.stats_of [plan_23_of_40])
  = Double.Fin 57 /\
  result DoubleStats.getStats
    (mkLocalStorage (Json [plan_23_of_40]) Absent)
  = DoubleStats.mkStats 1 1 (Double.of_Q (184 # 10)) 2 (Double.Fin 57).
Proof. by vm_compute. Qed.

Example getStats_sample :
  let s := mkLocalStorage (Json [half_done_plan; sample_plan "b" []])
                          Absent in
  result getStats s
  = mkStats 2 2 (Js.Fin (32 # 10)) 2 (Js.of_Z 25) /\
  result getStats empty_storage = zero_stats /\
  result getStats (mkLocalStorage Malformed Absent) = zero_stats.
Proof. by vm_compute. Qed.

(** ** Hours studied *)

Section Hours.

Implicit Types (p : StoredStudyPlan.t) (ps : list StoredStudyPlan.t).

Lemma planHours_NaN p : hoursPerDay p = Js.NaN -> planHours p = Js.NaN.
Proof. unfold planHours. by intros ->. Qed.

Lemma planHours_Fin p (h : Q) :
  hoursPerDay p = Js.Fin h ->
  planHours p
  = Js.Fin (inject_Z (Z.of_nat (completedCount p)) * (h / inject_Z 5))%Q.
Proof. unfold planHours. by intros ->. Qed.

Lemma totalHours_NaN_stays ps (a : Acc) :
  acc_totalHours a = Js.NaN ->
  acc_totalHours (fold_left stats_step ps a) = Js.NaN.
Proof.
  revert a. induction ps as [|p ps IH]; intros a Ha; [done|].
  cbn [fold_left]. apply IH. cbn. by rewrite Ha.
Qed.

Lemma totalHours_NaN ps (a : Acc) :
  Exists (fun p => hoursPerDay p = Js.NaN) ps ->
  acc_totalHours (fold_left stats_step ps a) = Js.NaN.
Proof.
  intros Hex. revert a. induction Hex as [p ps Hp|p ps _ IH]; intros a.
  - cbn [fold_left]. apply totalHours_NaN_stays.
    cbn [stats_step acc_totalHours].
    rewrite (planHours_NaN _ Hp). by destruct (acc_totalHours a).
  - cbn [fold_left]. apply IH.
Qed.

(** One plan whose first token is not a number turns the total into
    [NaN], whatever the other plans hold. *)
Lemma totalHoursStudied_NaN ps :
  Exists (fun p => hoursPerDay p = Js.NaN) ps ->
  totalHoursStudied (stats_of ps) = Js.NaN.
Proof.
  intros Hex. destruct ps as [|p ps]; [by apply Exists_nil in Hex|].
  cbn [stats_of totalHoursStudied]. by rewrite totalHours_NaN.
Qed.

Lemma totalHours_fold ps (hs : list Z) (a : Acc) (q : Q) :
  Forall2 (fun p h => hoursPerDay p = Js.of_Z h) ps hs ->
  Js.same (acc_totalHours a) (Js.Fin q) ->
  Js.same (acc_totalHours (fold_left stats_step ps a))
          (Js.Fin (q + Qsum (zip_with hours_studied hs ps))).
Proof.
  intros Hall. revert a q.
  induction Hall as [|p h ps hs Hp _ IH]; intros a q Ha.
  - cbn. eapply same_Fin_eq; [done|]. lra.
  - cbn [fold_left zip_with]. eapply same_Fin_eq.
    + apply (IH _ (q + hours_studied h p)%Q).
      cbn [stats_step acc_totalHours].
      rewrite (planHours_Fin _ _ Hp).
      destruct (acc_totalHours a); cbn in *; [done|]. rewrite Ha.
      reflexivity.
    + unfold Qsum. cbn [foldr]. lra.
Qed.

(** When every first token parses, the total is the sum of the hours of
    the plans, rounded to one decimal place. *)
Lemma totalHoursStudied_Fin p ps (h : Z) (hs : list Z) :
  Forall2 (fun p h => hoursPerDay p = Js.of_Z h) (p :: ps) (h :: hs) ->
  exists z,
    Js.same (totalHoursStudied (stats_of (p :: ps)))
            (Js.Fin (inject_Z z / 10)) /\
    nearest (Qsum (zip_with hours_studied (h :: hs) (p :: ps)) * 10) z.
Proof.
  intros Hall.
  pose proof (totalHours_fold (p :: ps) (h :: hs)
                (mkAcc (Js.of_Z 0) (Js.of_Z 0) ∅) 0%Q Hall (Qeq_refl 0))
    as H.
  cbn [stats_of totalHoursStudied].
  destruct (acc_totalHours (fold_left stats_step (p :: ps) _))
    as [|tot]; [done|].
  cbn [Js.same] in H. cbn [Js.mul Js.of_Z].
  destruct (round_nearest (tot * inject_Z 10)
              (Qsum (zip_with hours_studied (h :: hs) (p :: ps)) * 10))
    as (z & Hz & Hnear).
  { rewrite H. change (inject_Z 10) with 10%Q. lra. }
  exists z. rewrite Hz. split; [|done]. cbn. reflexivity.
Qed.

End Hours.

(** C2. With one stored plan whose [formData.horasLiquidas] is
    ["quatro horas"], the first token is ["quatro"], [parseInt] gives [NaN]
    for it and not 0, and [totalHoursStudied] of [getStats()] is [NaN];
    with the empty text the default ["0"] applies and the total is 0. *)
Theorem getStats_hours_not_a_number :
  let p := new_plan (sample_data "Plano A" "quatro horas" ["t1"])
                    "plan_1_a" 10 in
  let p0 := new_plan (sample_data "Plano A" "" ["t1"]) "plan_1_a" 10 in
  hoursPerDay p = Js.NaN /\
  totalHoursStudied (result getStats (mkLocalStorage (Json [p]) Absent))
    = Js.NaN /\
  hoursPerDay p0 = Js.of_Z 0 /\
  Js.same
    (totalHoursStudied (result getStats (mkLocalStorage (Json [p0]) Absent)))
    (Js.of_Z 0).
Proof. by vm_compute. Qed.

(** ** Identifiers *)

Section Identifiers.

Lemma pretty_N_char_no_underscore (x : N) : pretty_N_char x <> "_"%char.
Proof. unfold pretty_N_char. by repeat case_match. Qed.

Lemma pretty_N_go_no_underscore (x : N) (s : string) :
  no_underscore s -> no_underscore (pretty_N_go x s).
Proof.
  revert s. induction (N.lt_wf_0 x) as [x _ IH]; intros s Hs.
  assert (x = 0 \/ 0 < x)%N as [->|Hpos] by lia.
  - by rewrite pretty_N_go_0.
  - rewrite pretty_N_go_step by done. apply IH.
    + by apply N.div_lt.
    + split; [apply pretty_N_char_no_underscore|done].
Qed.

Lemma pretty_N_no_underscore (x : N) : no_underscore (pretty x).
Proof.
  unfold pretty, pretty_N. case_decide; [by cbn|].
  by apply pretty_N_go_no_underscore.
Qed.

Lemma pretty_Z_no_underscore (z : Z) : no_underscore (pretty z).
Proof.
  destruct z as [|x|x]; [by cbn|apply pretty_N_no_underscore|].
  split; [done|]. apply pretty_N_no_underscore.
Qed.

Lemma append_nil_l (s : string) : "" +:+ s = s.
Proof. reflexivity. Qed.

Lemma append_cons (c : ascii) (r s : string) :
  String c r +:+ s = String c (r +:+ s).
Proof. reflexivity. Qed.

Lemma underscore_splits (a1 a2 b1 b2 : string) :
  no_underscore a1 -> no_underscore a2 ->
  a1 +:+ "_" +:+ b1 = a2 +:+ "_" +:+ b2 -> a1 = a2 /\ b1 = b2.
Proof.
  revert a2. induction a1 as [|c a1 IH]; intros [|d a2] H1 H2 Heq;
    rewrite ?append_cons, ?append_nil_l in Heq.
  - by injection Heq as ->.
  - injection Heq as <- _. by destruct H2.
  - injection Heq as -> _. by destruct H1.
  - injection Heq as -> Heq. destruct H1, H2.
    destruct (IH a2) as [-> ->]; done.
Qed.

Lemma make_id_plan_inj (e1 e2 : Stamp) :
  make_id "plan" e1 = make_id "plan" e2 -> id_source e1 = id_source e2.
Proof.
  unfold make_id, id_source. rewrite ?append_cons, ?append_nil_l.
  intros [= Heq].
  apply underscore_splits in Heq as [Ht ->];
    [|apply pretty_Z_no_underscore..].
  by apply (inj pretty) in Ht as ->.
Qed.

Lemma exec_save_ids (c : Call) (e : Stamp) (s : LocalStorage) :
  save_stamp c = Some e ->
  stored_ids (exec c s) = stored_ids s ++ [make_id "plan" e].
Proof.
  unfold stored_ids. destruct c; intros [= ->]; cbn [exec].
  - rewrite savePlan_after, savePlanSync_plans. by rewrite fmap_app.
  - rewrite savePlanSync_plans. by rewrite fmap_app.
Qed.

Lemma run_saves_ids (calls : list Call) (s : LocalStorage) :
  Forall (fun c => is_Some (save_stamp c)) calls ->
  stored_ids (run calls s)
  = stored_ids s ++ (make_id "plan" <$> omap save_stamp calls).
Proof.
  intros Hall. revert s.
  induction Hall as [|c calls [e He] _ IH]; intros s.
  - cbn. by rewrite app_nil_r.
  - cbn [run fold_left]. fold (run calls (exec c s)).
    rewrite IH, (exec_save_ids _ _ _ He).
    change (omap save_stamp (c :: calls))
      with (match save_stamp c with
            | Some e => e :: omap save_stamp calls
            | None => omap save_stamp calls
            end).
    rewrite He. cbn [fmap list_fmap]. by rewrite <- app_assoc.
Qed.

Lemma make_id_plan_NoDup (stamps : list Stamp) :
  NoDup (id_source <$> stamps) -> NoDup (make_id "plan" <$> stamps).
Proof.
  induction stamps as [|e stamps IH]; cbn; [constructor|].
  intros [Hnotin Hnd]%NoDup_cons. apply NoDup_cons. split; [|by apply IH].
  intros (e' & Heq & Hin)%list_elem_of_fmap. apply Hnotin.
  apply make_id_plan_inj in Heq. rewrite Heq.
  apply list_elem_of_fmap. by exists e'.
Qed.

End Identifiers.

(** C4, as the claim words it, fails: two [savePlanSync] calls that read
    the same millisecond and draw the same random text give the same [id],
    and the store then holds two plans of that [id]. *)
Lemma savePlan_same_stamp_same_id :
  let e := mkStamp 1700000000000 "0.k3j9x0q1zd8" 1700000000000 in
  let data := sample_data "Plano A" "4 horas" [] in
  result (savePlanSync e e data) empty_storage
    = result (savePlanSync e e data)
             (after (savePlanSync e e data) empty_storage) /\
  stored_ids (run [SavePlanSync e e data; SavePlanSync e e data]
                  empty_storage)
    = ["plan_1700000000000_k3j9x0q1z"; "plan_1700000000000_k3j9x0q1z"] /\
  ~ NoDup (stored_ids (run [SavePlanSync e e data; SavePlanSync e e data]
                           empty_storage)).
Proof.
  repeat split; [by vm_compute..|].
  intros Hnd. apply NoDup_cons in Hnd as [Hnotin _]. apply Hnotin.
  apply list_elem_of_here.
Qed.

(** C4 (amended). For every sequence of [savePlan] and [savePlanSync]
    calls on the empty store in which no two calls read both the same
    [Date.now()] and the same nine characters of random text, the ids of
    the stored plans, which are the ids the calls returned, are pairwise
    distinct. *)
Theorem savePlan_ids_distinct (calls : list Call) :
  Forall (fun c => is_Some (save_stamp c)) calls ->
  NoDup (id_source <$> omap save_stamp calls) ->
  stored_ids (run calls empty_storage)
    = make_id "plan" <$> omap save_stamp calls /\
  NoDup (stored_ids (run calls empty_storage)).
Proof.
  intros Hall Hnd. rewrite (run_saves_ids _ _ Hall). cbn [app].
  split; [reflexivity|]. by apply make_id_plan_NoDup.
Qed.

Lemma savePlan_ids_distinct_witness :
  let e1 := mkStamp 1700000000000 "0.k3j9x0q1zd8" 1700000000000 in
  let e2 := mkStamp 1700000000000 "0.p7c2m4n8bq1" 1700000000001 in
  let data := sample_data "Plano A" "4 horas" [] in
  let calls := [SavePlan e1 e1 Rejected data; SavePlanSync e2 e2 data] in
  NoDup (stored_ids (run calls empty_storage)).
Proof.
  intros e1 e2 data calls.
  apply (savePlan_ids_distinct calls).
  - repeat constructor; by eexists.
  - compute_done.
Defined.

(** ** Time stamps *)

Section TimeStamps.

Implicit Types (s : LocalStorage) (c : Call) (clock : Z).

Lemma log_completed_plans e1 e2 updates old title s :
  ddplanner_study_plans (after (log_completed e1 e2 updates old title) s)
  = ddplanner_study_plans s.
Proof.
  unfold log_completed. destruct (Partial.completedTasks updates); [|done].
  by case_decide.
Qed.

Lemma updatePlanSync_plans now e1 e2 id updates s :
  result getAllPlans (after (updatePlanSync now e1 e2 id updates) s)
  = updated_plans now id updates (result getAllPlans s).
Proof.
  unfold updated_plans.
  destruct (list_find _ (result getAllPlans s)) as [[i p]|] eqn:E.
  - unfold after at 1. rewrite (updatePlanSync_found _ _ _ _ _ _ _ _ E).
    cbn [snd]. by rewrite getAllPlans_result, log_completed_plans.
  - unfold after.
    by rewrite (proj2 (updatePlan_missing now e1 e2 Rejected _ _ _ E)).
Qed.

Lemma updatePlan_plans now e1 e2 remote id updates s :
  result getAllPlans (after (updatePlan now e1 e2 remote id updates) s)
  = updated_plans now id updates (result getAllPlans s).
Proof.
  unfold updated_plans.
  destruct (list_find _ (result getAllPlans s)) as [[i p]|] eqn:E.
  - unfold after at 1. rewrite (updatePlan_found _ _ _ _ _ _ _ _ _ E).
    cbn [snd]. by rewrite getAllPlans_result, log_completed_plans.
  - unfold after.
    by rewrite (proj1 (updatePlan_missing now e1 e2 remote _ _ _ E)).
Qed.

Lemma updateCompletedTasks_run now e1 e2 planId tasks s :
  updateCompletedTasks now e1 e2 planId tasks s
  = if decide (planId = "") then (false, s)
    else
      let r := updatePlanSync now e1 e2 planId
                 (Partial.only_completedTasks tasks) s in
      if r.1
      then (true, mkLocalStorage (Json (result getAllPlans r.2))
                                 (ddplanner_activity_log r.2))
      else (false, r.2).
Proof.
  unfold updateCompletedTasks. case_decide; [done|].
  rewrite run_bind. unfold result at 1 2, after at 1.
  destruct (updatePlanSync _ _ _ _ _ s) as [[] s']; reflexivity.
Qed.

Lemma updateCompletedTasks_plans now e1 e2 planId tasks s :
  result getAllPlans (after (updateCompletedTasks now e1 e2 planId tasks) s)
  = if decide (planId = "") then result getAllPlans s
    else updated_plans now planId (Partial.only_completedTasks tasks)
                       (result getAllPlans s).
Proof.
  unfold after at 1. rewrite updateCompletedTasks_run.
  case_decide; [done|]. rewrite <- (updatePlanSync_plans now e1 e2).
  unfold after. cbn zeta.
  by destruct (updatePlanSync _ _ _ _ _ s) as [[] s'].
Qed.

Lemma deletePlan_plans remote id s :
  result getAllPlans (after (deletePlan remote id) s)
  = result getAllPlans s \/
  exists i, result getAllPlans (after (deletePlan remote id) s)
            = delete i (result getAllPlans s).
Proof.
  unfold after at 1 2. rewrite deletePlan_run. case_decide; [by left|].
  destruct (list_find (fun plan => StoredStudyPlan.id plan = Js.trim id)
              (result getAllPlans s)) as [[i p]|] eqn:E.
  - rewrite (deleteFromLocalStorage_found _ _ _ _ E). right. by exists i.
  - rewrite (deleteFromLocalStorage_missing _ _ E). by left.
Qed.

Lemma dated_mono clock t p : clock <= t -> dated clock p -> dated t p.
Proof. unfold dated. lia. Qed.

Lemma updated_plans_dated clock now id updates plans :
  clock <= now ->
  from_option (fun t => t <= now) True (Partial.createdAt updates) ->
  Forall (dated clock) plans ->
  Forall (dated now) (updated_plans now id updates plans).
Proof.
  intros Hclock Hcreated Hall.
  assert (Forall (dated now) plans) as Hnow.
  { eapply Forall_impl; [done|]. intros p. by apply dated_mono. }
  unfold updated_plans.
  destruct (list_find _ plans) as [[i p]|] eqn:E; [|done].
  apply list_find_Some in E as (Hi & _ & _).
  apply Forall_insert; [done|].
  eapply Forall_lookup_1 in Hall as [Hp1 Hp2]; [|done].
  unfold dated. cbn. split; [|lia].
  destruct (Partial.createdAt updates); cbn in *; lia.
Qed.

(** One call keeps every stored plan dated, at the instant of the call. *)
Lemma exec_dated c clock s :
  createdAt_not_later c ->
  from_option (fun t => clock <= t) True (call_time c) ->
  Forall (dated clock) (result getAllPlans s) ->
  Forall (dated (default clock (call_time c)))
         (result getAllPlans (exec c s)).
Proof.
  intros Hcreated Hclock Hall.
  destruct c; cbn [exec call_time default from_option] in *.
  - rewrite savePlan_after, savePlanSync_plans. apply Forall_app. split.
    + eapply Forall_impl; [done|]. intros p. by apply dated_mono.
    + apply Forall_singleton. unfold dated. cbn. lia.
  - rewrite savePlanSync_plans. apply Forall_app. split.
    + eapply Forall_impl; [done|]. intros p. by apply dated_mono.
    + apply Forall_singleton. unfold dated. cbn. lia.
  - rewrite updatePlan_plans. by apply (updated_plans_dated clock).
  - rewrite updatePlanSync_plans. by apply (updated_plans_dated clock).
  - rewrite updateCompletedTasks_plans. case_decide.
    + eapply Forall_impl; [done|]. intros p. by apply dated_mono.
    + by apply (updated_plans_dated clock).
  - destruct (deletePlan_plans remote id s) as [->|[i ->]]; [done|].
    by apply Forall_delete.
Qed.

Lemma run_dated calls clock s :
  clock_ordered clock calls ->
  Forall createdAt_not_later calls ->
  Forall (dated clock) (result getAllPlans s) ->
  exists clock', Forall (dated clock') (result getAllPlans (run calls s)).
Proof.
  revert clock s. induction calls as [|c calls IH]; intros clock s Hord Hcr Hs.
  { by exists clock. }
  apply Forall_cons in Hcr as [Hc Hcr]. cbn [run fold_left].
  fold (run calls (exec c s)). cbn [clock_ordered] in Hord.
  pose proof (exec_dated c clock s Hc) as Hstep.
  destruct (call_time c) as [t|]; cbn in Hstep.
  - destruct Hord as [Hle Hord]. by apply (IH t); [| |apply Hstep].
  - by apply (IH clock); [| |apply Hstep].
Qed.

Lemma exec_stamps c s : stamps_updatedAt c s (exec c s).
Proof.
  assert (forall now id updates plans,
    match list_find (fun plan => StoredStudyPlan.id plan = id) plans with
    | Some (i, _) =>
        exists p', updated_plans now id updates plans !! i = Some p' /\
                   StoredStudyPlan.updatedAt p' = now
    | None => updated_plans now id updates plans = plans
    end) as Htouched.
  { intros now id updates plans. unfold updated_plans.
    destruct (list_find _ plans) as [[i p]|] eqn:E; [|done].
    apply list_find_Some in E as (Hi & _ & _).
    eexists. split; [|].
    - apply list_lookup_insert_eq. by eapply lookup_lt_Some.
    - reflexivity. }
  destruct c; cbn [exec stamps_updatedAt].
  - rewrite savePlan_after, savePlanSync_plans, last_snoc. by eexists.
  - rewrite savePlanSync_plans, last_snoc. by eexists.
  - rewrite updatePlan_plans.
    specialize (Htouched now id updates (result getAllPlans s)).
    destruct (list_find _ (result getAllPlans s)) as [[i p]|] eqn:E; [done|].
    unfold after. by rewrite (proj1 (updatePlan_missing _ _ _ _ _ _ _ E)).
  - rewrite updatePlanSync_plans.
    specialize (Htouched now id updates (result getAllPlans s)).
    destruct (list_find _ (result getAllPlans s)) as [[i p]|] eqn:E; [done|].
    unfold after.
    by rewrite (proj2 (updatePlan_missing now e1 e2 Rejected _ _ _ E)).
  - rewrite updateCompletedTasks_plans. case_decide as Hid.
    + unfold after. rewrite updateCompletedTasks_run. by rewrite decide_True.
    + specialize (Htouched now planId
                    (Partial.only_completedTasks completedTasks)
                    (result getAllPlans s)).
      destruct (list_find _ (result getAllPlans s)) as [[i p]|] eqn:E;
        [done|].
      unfold after. rewrite updateCompletedTasks_run, decide_False by done.
      by rewrite (proj2 (updatePlan_missing now e1 e2 Rejected _ _ _ E)).
  - done.
Qed.

Lemma updated_plans_ids now id updates plans :
  Partial.id updates = None ->
  StoredStudyPlan.id <$> updated_plans now id updates plans
  = StoredStudyPlan.id <$> plans.
Proof.
  intros Hid. unfold updated_plans.
  destruct (list_find _ plans) as [[i p]|] eqn:E; [|done].
  apply list_find_Some in E as (Hi & _ & _).
  rewrite list_fmap_insert. apply list_insert_id.
  rewrite list_lookup_fmap, Hi. cbn. by rewrite Hid.
Qed.

(** Saves, deletions and updates that leave [id] alone keep the stored ids
    a subsequence of the ids that the saves made. *)
Lemma run_ids_sublist calls s :
  Forall keeps_id calls ->
  stored_ids (run calls s)
    `sublist_of` stored_ids s ++ (make_id "plan" <$> omap save_stamp calls).
Proof.
  intros Hall. revert s. induction Hall as [|c calls Hc _ IH]; intros s.
  { cbn. by rewrite app_nil_r. }
  cbn [run fold_left]. fold (run calls (exec c s)).
  etrans; [apply IH|].
  change (omap save_stamp (c :: calls))
    with (match save_stamp c with
          | Some e => e :: omap save_stamp calls
          | None => omap save_stamp calls
          end).
  unfold stored_ids at 1 2.
  destruct c; cbn [exec save_stamp keeps_id] in *.
  - rewrite savePlan_after, savePlanSync_plans, fmap_app.
    cbn [fmap list_fmap]. by rewrite <- app_assoc.
  - rewrite savePlanSync_plans, fmap_app.
    cbn [fmap list_fmap]. by rewrite <- app_assoc.
  - by rewrite updatePlan_plans, updated_plans_ids.
  - by rewrite updatePlanSync_plans, updated_plans_ids.
  - rewrite updateCompletedTasks_plans. case_decide; [done|].
    by rewrite updated_plans_ids.
  - apply sublist_app; [|done].
    destruct (deletePlan_plans remote id s) as [->|[i ->]]; [done|].
    apply fmap_sublist, sublist_delete.
Qed.

(** With deletions and such updates between the saves, the stored ids
    stay pairwise distinct. *)
Lemma stored_ids_distinct calls :
  Forall keeps_id calls ->
  NoDup (id_source <$> omap save_stamp calls) ->
  NoDup (stored_ids (run calls empty_storage)).
Proof.
  intros Hall Hnd. eapply sublist_NoDup; [|by apply run_ids_sublist].
  cbn [stored_ids app]. by apply make_id_plan_NoDup.
Qed.

End TimeStamps.

(** C3, as the claim words it, fails: the partial fields of an update may
    hold [createdAt], which the merge copies into the record while
    [updatedAt] becomes the instant of the call.  The clock goes forward
    in the first run, and the stored plan ends with [updatedAt] 20 before
    [createdAt] 99.  In the second run no update holds [createdAt] and the
    clock is set back between the two calls: the plan ends with [updatedAt]
    5 before [createdAt] 10. *)
Lemma update_moves_createdAt_ahead :
  let e := mkStamp 10 "0.k3j9x0q1zd8" 10 in
  let e1 := mkStamp 20 "0.p7c2m4n8bq1" 20 in
  let e2 := mkStamp 5 "0.p7c2m4n8bq1" 5 in
  let data := sample_data "Plano A" "4 horas" [] in
  let calls :=
    [SavePlanSync e e data;
     UpdatePlanSync 20 e1 e1 "plan_10_k3j9x0q1z" (only_createdAt 99)] in
  let calls_back :=
    [SavePlanSync e e data;
     UpdateCompletedTasks 5 e2 e2 "plan_10_k3j9x0q1z" ["t1"]] in
  (clock_ordered 0 calls /\
   exists p, result getAllPlans (run calls empty_storage) = [p] /\
             StoredStudyPlan.createdAt p = 99 /\
             StoredStudyPlan.updatedAt p = 20 /\
             ~ StoredStudyPlan.createdAt p <= StoredStudyPlan.updatedAt p) /\
  (Forall createdAt_not_later calls_back /\
   exists p, result getAllPlans (run calls_back empty_storage) = [p] /\
             StoredStudyPlan.createdAt p = 10 /\
             StoredStudyPlan.updatedAt p = 5 /\
             ~ StoredStudyPlan.createdAt p <= StoredStudyPlan.updatedAt p).
Proof.
  split.
  - split; [cbn; lia|]. eexists. split; [by vm_compute|]. cbn. lia.
  - split; [by repeat constructor|].
    eexists. split; [by vm_compute|]. cbn. lia.
Qed.

(** C3 (amended). In every store reached from the empty store by a
    sequence of [savePlan], [savePlanSync], [updatePlan], [updatePlanSync],
    [updateCompletedTasks] and [deletePlan] calls in which the clock does
    not go back from one call to the next and no update carries a
    [createdAt] later than the instant of its call, every stored plan has
    [updatedAt >= createdAt]; and, in any store, a save leaves the new plan
    with [updatedAt] (and [createdAt]) the instant of the save, an update
    that finds its plan leaves it with [updatedAt] the instant of the
    update, and an update that finds none leaves the store as it was. *)
Theorem updatedAt_not_before_createdAt (calls : list Call) (clock : Z) :
  clock_ordered clock calls ->
  Forall createdAt_not_later calls ->
  Forall (fun p => StoredStudyPlan.createdAt p <= StoredStudyPlan.updatedAt p)
         (result getAllPlans (run calls empty_storage)) /\
  (forall c s, stamps_updatedAt c s (exec c s)).
Proof.
  intros Hord Hcr. split; [|apply exec_stamps].
  destruct (run_dated calls clock empty_storage Hord Hcr) as [t Ht].
  { constructor. }
  eapply Forall_impl; [exact Ht|]. by intros p [? _].
Qed.

Lemma updatedAt_not_before_createdAt_witness :
  let e := mkStamp 10 "0.k3j9x0q1zd8" 10 in
  let e1 := mkStamp 20 "0.p7c2m4n8bq1" 20 in
  let e2 := mkStamp 20 "0.w5h1r8t3yu6" 21 in
  let calls :=
    [SavePlanSync e e (sample_data "Plano A" "4 horas" []);
     SavePlan e1 e1 Rejected (sample_data "Plano B" "2 horas" []);
     UpdatePlan 30 e1 e2 Rejected "plan_10_k3j9x0q1z" (only_createdAt 7);
     UpdateCompletedTasks 31 e1 e2 "plan_20_p7c2m4n8b" ["t1"];
     DeletePlan Rejected "plan_10_k3j9x0q1z"] in
  Forall (fun p => StoredStudyPlan.createdAt p <= StoredStudyPlan.updatedAt p)
         (result getAllPlans (run calls empty_storage)).
Proof.
  intros e e1 e2 calls.
  apply (updatedAt_not_before_createdAt calls 0).
  - cbn. lia.
  - repeat constructor; cbn; lia.
Defined.

(** * Further properties of the storage module *)

(** ** White space around an id *)

Section Trim.

Implicit Types (s : string) (c : ascii).

Lemma trimStart_clean s : starts_clean (Js.trimStart s).
Proof.
  induction s as [|c r IH]; [done|]. cbn.
  by destruct (Js.is_space c) eqn:E.
Qed.

Lemma trimStart_of_clean s : starts_clean s -> Js.trimStart s = s.
Proof. destruct s as [|c r]; [done|]. cbn. by intros ->. Qed.

Lemma trimEnd_cons c r :
  Js.trimEnd (String c r)
  = match Js.trimEnd r with
    | EmptyString =>
        if Js.is_space c then EmptyString else String c EmptyString
    | r' => String c r'
    end.
Proof. reflexivity. Qed.

Lemma trimEnd_clean s : starts_clean s -> starts_clean (Js.trimEnd s).
Proof.
  destruct s as [|c r]; [done|]. cbn [starts_clean]. intros Hc.
  rewrite trimEnd_cons, Hc. by destruct (Js.trimEnd r).
Qed.

Lemma trimEnd_idemp s : Js.trimEnd (Js.trimEnd s) = Js.trimEnd s.
Proof.
  induction s as [|c r IH]; [done|]. rewrite trimEnd_cons.
  destruct (Js.trimEnd r) as [|d r'] eqn:E.
  - by destruct (Js.is_space c) eqn:Ec; [|rewrite trimEnd_cons, Ec].
  - by rewrite trimEnd_cons, IH.
Qed.

Lemma trim_idemp s : Js.trim (Js.trim s) = Js.trim s.
Proof.
  unfold Js.trim.
  rewrite (trimStart_of_clean (Js.trimEnd (Js.trimStart s))).
  - apply trimEnd_idemp.
  - apply trimEnd_clean, trimStart_clean.
Qed.

Lemma blank_iff s : s = "" \/ Js.trim s = "" <-> Js.trim s = "".
Proof. split; [intros [->|?]; done|by right]. Qed.

End Trim.

(** X1. [deletePlan] only sees the trimmed argument: [deletePlan(id)] and
    [deletePlan(id.trim())] return the same value and leave the same
    store, for every argument and every store. *)
Theorem deletePlan_ignores_surrounding_space (remote : settled unit)
    (id : string) (s : LocalStorage) :
  deletePlan remote id s = deletePlan remote (Js.trim id) s.
Proof.
  rewrite !deletePlan_run, trim_idemp.
  destruct (decide (id = "" \/ Js.trim id = "")) as [H1|H1],
           (decide (Js.trim id = "" \/ Js.trim id = "")) as [H2|H2];
    try done.
  - destruct H2. left. by apply blank_iff.
  - destruct H1. right. by destruct H2.
Qed.

(** X2. [deletePlanSync(id)] returns [true] exactly when some stored plan
    has the trimmed argument as its [id], the empty [id] included, for it
    has no check of the argument; then the store is the former one
    without the first such record, otherwise the store is unchanged.  It
    agrees with [deletePlan(id)], result and store, whenever the trimmed
    argument is not empty. *)
Theorem deletePlanSync_unchecked (remote : settled unit) (id : string)
    (s : LocalStorage) :
  (result (deletePlanSync id) s = true <->
   exists p, p ∈ result getAllPlans s /\
             StoredStudyPlan.id p = Js.trim id) /\
  (if result (deletePlanSync id) s
   then removed_one (Js.trim id) s (after (deletePlanSync id) s)
   else after (deletePlanSync id) s = s) /\
  (Js.trim id <> "" -> deletePlanSync id s = deletePlan remote id s).
Proof.
  assert (deletePlanSync id s = deleteFromLocalStorage (Js.trim id) s)
    as Hrun.
  { unfold deletePlanSync. rewrite run_bind. unfold result, after.
    by destruct (deleteFromLocalStorage _ s). }
  set (plans := result getAllPlans s).
  unfold result, after. rewrite Hrun, deletePlan_run.
  destruct (list_find (fun plan => StoredStudyPlan.id plan = Js.trim id)
              plans) as [[i p]|] eqn:E.
  - rewrite (deleteFromLocalStorage_found _ _ _ _ E).
    apply list_find_Some in E as (Hi & Hp & Hfirst). cbn.
    split; [|split].
    + split; [|done]. intros _. exists p. split; [|done].
      by eapply list_elem_of_lookup_2.
    + by exists i, p.
    + intros Hne. by rewrite decide_False by by rewrite blank_iff.
  - rewrite (deleteFromLocalStorage_missing _ _ E). cbn.
    split; [|split; [done|]].
    + split; [done|]. intros (p & Hin & Hp).
      apply list_find_None in E. by eapply Forall_forall in E.
    + intros Hne. by rewrite decide_False by by rewrite blank_iff.
Qed.

Lemma deletePlanSync_unchecked_witness :
  let s := mkLocalStorage (Json [sample_plan "a" []; sample_plan "b" []])
                          Absent in
  Js.trim " b " <> "" /\
  deletePlanSync " b " s = deletePlan Rejected " b " s.
Proof.
  intros s. split; [done|].
  by apply (deletePlanSync_unchecked Rejected " b " s).
Defined.

(** The two deletions part on a plan whose [id] is empty. *)
Example deletePlanSync_removes_empty_id :
  result (deletePlanSync " ") store_with_empty_id = true /\
  result getAllPlans (after (deletePlanSync " ") store_with_empty_id) = [] /\
  result (deletePlan Rejected " ") store_with_empty_id = false.
Proof. by vm_compute. Qed.

(** ** Looking a plan up after a call *)

Section Lookup.

Context {A : Type} (P : A -> Prop) `{!forall x, Decision (P x)}.

Implicit Types (l : list A) (x : A) (i : nat).

Lemma find_cons x l :
  find P (x :: l) = if decide (P x) then Some x else find P l.
Proof.
  unfold find. cbn [list_find]. case_decide; [done|].
  by destruct (list_find P l) as [[]|].
Qed.

Lemma find_app l1 l2 :
  find P (l1 ++ l2)
  = match find P l1 with Some x => Some x | None => find P l2 end.
Proof.
  induction l1 as [|x l1 IH]; [done|]. cbn [app].
  rewrite !find_cons. by case_decide.
Qed.

Lemma find_index l x :
  find P l = Some x -> exists i, list_find P l = Some (i, x).
Proof.
  unfold find. destruct (list_find P l) as [[i y]|]; [|done].
  intros [= ->]. by exists i.
Qed.

Lemma find_insert_first l i x x' :
  l !! i = Some x ->
  (forall k y, l !! k = Some y -> (k < i)%nat -> ~ P y) ->
  P x' ->
  find P (<[i := x']> l) = Some x'.
Proof.
  revert i. induction l as [|y l IH]; intros i Hi Hfirst Hx'; [done|].
  destruct i as [|i]; cbn [insert list_insert]; rewrite find_cons.
  - by rewrite decide_True.
  - rewrite decide_False by (apply (Hfirst 0%nat); [done|lia]).
    apply IH; [done| |done].
    intros k z Hk Hlt. apply (Hfirst (S k)); [done|lia].
Qed.

Lemma find_insert_other l i x x' :
  l !! i = Some x -> ~ P x -> ~ P x' ->
  find P (<[i := x']> l) = find P l.
Proof.
  revert i. induction l as [|y l IH]; intros i Hi Hx Hx'; [done|].
  destruct i as [|i]; cbn [insert list_insert]; rewrite !find_cons.
  - injection Hi as ->. by rewrite !decide_False.
  - case_decide; [done|]. by apply IH.
Qed.

Lemma find_delete_other l i x :
  l !! i = Some x -> ~ P x -> find P (delete i l) = find P l.
Proof.
  revert i. induction l as [|y l IH]; intros i Hi Hx; [done|].
  destruct i as [|i]; cbn [delete list_delete]; rewrite !find_cons.
  - injection Hi as ->. by rewrite decide_False.
  - case_decide; [done|]. by apply IH.
Qed.

Lemma find_none_of l : Forall (fun x => ~ P x) l -> find P l = None.
Proof.
  induction 1 as [|x l Hx _ IH]; [done|].
  by rewrite find_cons, decide_False.
Qed.

End Lookup.

Section LookupAfter.

Implicit Types (s : LocalStorage) (id j : string).

Lemma getPlanById_find j s :
  result (getPlanById j) s
  = find (fun plan => StoredStudyPlan.id plan = j) (result getAllPlans s).
Proof. reflexivity. Qed.

Lemma delete_other_ids (l : list StoredStudyPlan.t) i p :
  NoDup (StoredStudyPlan.id <$> l) -> l !! i = Some p ->
  Forall (fun q => StoredStudyPlan.id q <> StoredStudyPlan.id p)
         (delete i l).
Proof.
  revert i. induction l as [|y l IH]; intros i Hnd Hi; [done|].
  cbn in Hnd. apply NoDup_cons in Hnd as [Hy Hnd].
  destruct i as [|i]; cbn [delete list_delete].
  - injection Hi as ->. apply Forall_forall. intros q Hq Heq.
    apply Hy. rewrite <- Heq. apply list_elem_of_fmap. by exists q.
  - apply Forall_cons. split; [|by apply IH].
    intros Heq. apply Hy. rewrite Heq. apply list_elem_of_fmap.
    exists p. split; [done|]. by eapply list_elem_of_lookup_2.
Qed.

End LookupAfter.

(** X3. After [savePlan(data)] (or [savePlanSync(data)]) has returned the
    id [i], [getPlanById(j)] gives what it gave before whenever it found a
    plan before; otherwise it gives the new plan for [j = i] and [null] for
    any other [j].  So the new plan is found under its id unless an older
    plan already has that id, which then hides it. *)
Theorem savePlan_then_getPlanById (e ea : Stamp) (remote : settled unit)
    (planData : PlanData.t) (j : string) (s : LocalStorage) :
  let i := result (savePlan e ea remote planData) s in
  let lookup_after (s' : LocalStorage) :=
    result (getPlanById j) s'
    = match result (getPlanById j) s with
      | Some old => Some old
      | None =>
          if decide (i = j) then Some (new_plan planData i (new_date e))
          else None
      end in
  lookup_after (after (savePlan e ea remote planData) s) /\
  lookup_after (after (savePlanSync e ea planData) s).
Proof.
  intros i lookup_after. subst i lookup_after. cbn beta.
  rewrite savePlan_result, savePlan_after, !getPlanById_find,
    savePlanSync_plans, find_app, find_cons.
  split; by destruct (find _ (result getAllPlans s)).
Qed.

(** X4. When [getPlanById(id)] finds the plan [p] and the partial fields
    hold no [id], [updatePlan(id, updates)] and [updatePlanSync(id,
    updates)] return [true]; afterwards [getPlanById(id)] gives a plan
    with the id of [p], with each of title, concurso, cargo, createdAt,
    totalDays, completedTasks, plans and formData as [updates] gives it
    and as in [p] where [updates] gives none, and with [updatedAt] the
    instant of the call (a given [updatedAt] is overridden); and
    [getPlanById(j)] for every other [j] gives what it gave before. *)
Theorem update_then_getPlanById (now : Z) (e1 e2 : Stamp)
    (remote : settled unit) (id : string) (updates : Partial.t)
    (p : StoredStudyPlan.t) (s : LocalStorage) :
  result (getPlanById id) s = Some p ->
  Partial.id updates = None ->
  let lookups_after (s' : LocalStorage) :=
    (exists p', result (getPlanById id) s' = Some p' /\
                fields_replaced p updates now p') /\
    forall j, j <> id -> result (getPlanById j) s' = result (getPlanById j) s
  in
  result (updatePlan now e1 e2 remote id updates) s = true /\
  result (updatePlanSync now e1 e2 id updates) s = true /\
  lookups_after (after (updatePlan now e1 e2 remote id updates) s) /\
  lookups_after (after (updatePlanSync now e1 e2 id updates) s).
Proof.
  intros Hfind Hid lookups_after.
  rewrite getPlanById_find in Hfind.
  apply find_index in Hfind as [i E].
  assert (find (fun plan => StoredStudyPlan.id plan = id)
               (updated_plans now id updates (result getAllPlans s))
          = Some (merge p updates now) /\
          forall j, j <> id ->
            find (fun plan => StoredStudyPlan.id plan = j)
                 (updated_plans now id updates (result getAllPlans s))
            = find (fun plan => StoredStudyPlan.id plan = j)
                   (result getAllPlans s)) as [Hsame Hother].
  { unfold updated_plans. rewrite E.
    apply list_find_Some in E as (Hi & Hp & Hfirst). split.
    - eapply find_insert_first; [done..|]. cbn. by rewrite Hid.
    - intros j Hj.
      eapply find_insert_other; [done| |]; cbn; rewrite ?Hid; cbn;
        congruence. }
  assert (fields_replaced p updates now (merge p updates now)) as Hfields.
  { unfold fields_replaced, merge. cbn. rewrite Hid. cbn.
    repeat split; by destruct updates as [? [] [] [] [] ? [] [] [] []]. }
  unfold result at 1 2.
  rewrite (updatePlan_found _ _ _ _ _ _ _ _ _ E),
    (updatePlanSync_found _ _ _ _ _ _ _ _ E).
  split; [done|]. split; [done|].
  subst lookups_after. cbn beta.
  rewrite !getPlanById_find, updatePlan_plans, updatePlanSync_plans.
  split; (split; [by exists (merge p updates now)|]); intros j Hj;
    rewrite !getPlanById_find, ?updatePlan_plans, ?updatePlanSync_plans;
    by apply Hother.
Qed.

Lemma update_then_getPlanById_witness :
  let s := mkLocalStorage (Json [sample_plan "a" []; sample_plan "b" []])
                          Absent in
  let updates := Partial.mk None (Some "Plano B") None (Some "Analista")
                            None (Some 5) None (Some ["t1"]) None None in
  let e := mkStamp 20 "0.p7c2m4n8bq1" 20 in
  (exists p',
     result (getPlanById "b")
            (after (updatePlan 20 e e Rejected "b" updates) s) = Some p' /\
     fields_replaced (sample_plan "b" []) updates 20 p') /\
  result (getPlanById "a")
         (after (updatePlan 20 e e Rejected "b" updates) s)
    = Some (sample_plan "a" []).
Proof.
  intros s updates e.
  destruct (update_then_getPlanById 20 e e Rejected "b" updates
              (sample_plan "b" []) s) as (_ & _ & [Hb Ha] & _);
    [reflexivity..|].
  split; [exact Hb|]. by rewrite Ha.
Defined.

Example updated_plan_sample :
  let s := mkLocalStorage (Json [sample_plan "a" []; sample_plan "b" []])
                          Absent in
  let updates := Partial.mk None (Some "Plano B") None (Some "Analista")
                            None (Some 5) None (Some ["t1"]) None None in
  let e := mkStamp 20 "0.p7c2m4n8bq1" 20 in
  result (getPlanById "b")
         (after (updatePlan 20 e e Rejected "b" updates) s)
  = Some (StoredStudyPlan.mk "b" "Plano B" "TJ-CE" "Analista" 10 20 3
            ["t1"] sample_days (sample_form "4 horas")).
Proof. by vm_compute. Qed.

(** X5. When the stored ids are pairwise distinct and [deletePlan(id)]
    returns [true], [getPlanById] no longer finds the trimmed [id], and for
    every other [j] it gives what it gave before. *)
Theorem deletePlan_then_getPlanById (remote : settled unit) (id : string)
    (s : LocalStorage) :
  NoDup (stored_ids s) ->
  result (deletePlan remote id) s = true ->
  result (getPlanById (Js.trim id)) (after (deletePlan remote id) s) = None /\
  forall j, j <> Js.trim id ->
    result (getPlanById j) (after (deletePlan remote id) s)
    = result (getPlanById j) s.
Proof.
  unfold stored_ids, result at 2, after. rewrite deletePlan_run.
  intros Hnd. case_decide; [done|].
  destruct (list_find (fun plan => StoredStudyPlan.id plan = Js.trim id)
              (result getAllPlans s)) as [[i p]|] eqn:E.
  - rewrite (deleteFromLocalStorage_found _ _ _ _ E). intros _.
    apply list_find_Some in E as (Hi & Hp & _).
    cbn [snd]. rewrite !getPlanById_find. cbn [result getAllPlans].
    change (result getAllPlans
              (mkLocalStorage (Json (delete i (result getAllPlans s)))
                              (ddplanner_activity_log s)))
      with (delete i (result getAllPlans s)).
    split.
    + apply find_none_of. rewrite <- Hp. by apply delete_other_ids.
    + intros j Hj. rewrite !getPlanById_find.
      change (result getAllPlans
                (mkLocalStorage (Json (delete i (result getAllPlans s)))
                                (ddplanner_activity_log s)))
        with (delete i (result getAllPlans s)).
      eapply find_delete_other; [done|]. congruence.
  - by rewrite (deleteFromLocalStorage_missing _ _ E).
Qed.

Lemma deletePlan_then_getPlanById_witness :
  let s := mkLocalStorage (Json [sample_plan "a" []; sample_plan "b" []])
                          Absent in
  result (getPlanById (Js.trim " a "))
         (after (deletePlan Rejected " a ") s) = None /\
  result (getPlanById "b") (after (deletePlan Rejected " a ") s)
    = Some (sample_plan "b" []).
Proof.
  intros s.
  destruct (deletePlan_then_getPlanById Rejected " a " s) as [Ha Hb].
  - compute_done.
  - reflexivity.
  - split; [exact Ha|]. by rewrite Hb.
Defined.

(** ** How many plans and log entries a call leaves *)

Section Counts.

Implicit Types (s : LocalStorage) (c : Call).

Lemma updated_plans_length now id updates plans :
  length (updated_plans now id updates plans) = length plans.
Proof.
  unfold updated_plans. destruct (list_find _ plans) as [[i p]|]; [|done].
  apply length_insert.
Qed.

Lemma log_completed_log e1 e2 updates old title s :
  result getActivityLog (after (log_completed e1 e2 updates old title) s)
    = result getActivityLog s \/
  (length (result getActivityLog
             (after (log_completed e1 e2 updates old title) s)) <= 50)%nat.
Proof.
  destruct (Partial.completedTasks updates) as [tasks|] eqn:Hu.
  - right. unfold after.
    destruct (decide (old < length tasks)%nat) as [Hlt|Hlt].
    + rewrite (log_completed_grown _ _ _ _ _ _ _ Hu Hlt).
      cbn [snd]. rewrite getActivityLog_result.
      cbn [ddplanner_activity_log parse_or_empty]. rewrite length_take. lia.
    + rewrite (log_completed_same _ _ _ _ _ _ _ Hu Hlt).
      cbn [snd]. rewrite getActivityLog_result.
      cbn [ddplanner_activity_log parse_or_empty]. rewrite length_take. lia.
  - left. unfold after. by rewrite (log_completed_none _ _ _ _ _ _ Hu).
Qed.

Lemma updatePlanSync_log now e1 e2 id updates s :
  result getActivityLog (after (updatePlanSync now e1 e2 id updates) s)
    = result getActivityLog s \/
  (length (result getActivityLog
             (after (updatePlanSync now e1 e2 id updates) s)) <= 50)%nat.
Proof.
  destruct (list_find (fun plan => StoredStudyPlan.id plan = id)
              (result getAllPlans s)) as [[i p]|] eqn:E.
  - unfold after at 1 2. rewrite (updatePlanSync_found _ _ _ _ _ _ _ _ E).
    cbn [snd].
    match goal with
    | |- context [after (log_completed ?a ?b ?u ?o ?t) ?s0] =>
        destruct (log_completed_log a b u o t s0) as [->|Hle];
          [by left|by right]
    end.
  - left. unfold after.
    by rewrite (proj2 (updatePlan_missing now e1 e2 Rejected _ _ _ E)).
Qed.

Lemma updatePlan_log now e1 e2 remote id updates s :
  result getActivityLog (after (updatePlan now e1 e2 remote id updates) s)
    = result getActivityLog s \/
  (length (result getActivityLog
             (after (updatePlan now e1 e2 remote id updates) s)) <= 50)%nat.
Proof.
  destruct (list_find (fun plan => StoredStudyPlan.id plan = id)
              (result getAllPlans s)) as [[i p]|] eqn:E.
  - unfold after at 1 2. rewrite (updatePlan_found _ _ _ _ _ _ _ _ _ E).
    cbn [snd].
    match goal with
    | |- context [after (log_completed ?a ?b ?u ?o ?t) ?s0] =>
        destruct (log_completed_log a b u o t s0) as [->|Hle];
          [by left|by right]
    end.
  - left. unfold after.
    by rewrite (proj1 (updatePlan_missing now e1 e2 remote _ _ _ E)).
Qed.

Lemma updateCompletedTasks_log now e1 e2 planId tasks s :
  result getActivityLog
    (after (updateCompletedTasks now e1 e2 planId tasks) s)
  = if decide (planId = "") then result getActivityLog s
    else result getActivityLog
           (after (updatePlanSync now e1 e2 planId
                     (Partial.only_completedTasks tasks)) s).
Proof.
  unfold after at 1. rewrite updateCompletedTasks_run.
  case_decide; [done|]. unfold after. cbn zeta.
  by destruct (updatePlanSync _ _ _ _ _ s) as [[] s'].
Qed.

Lemma deletePlan_log remote id s :
  ddplanner_activity_log (after (deletePlan remote id) s)
  = ddplanner_activity_log s.
Proof.
  unfold after. rewrite deletePlan_run. case_decide; [done|].
  destruct (list_find (fun plan => StoredStudyPlan.id plan = Js.trim id)
              (result getAllPlans s)) as [[i p]|] eqn:E.
  - by rewrite (deleteFromLocalStorage_found _ _ _ _ E).
  - by rewrite (deleteFromLocalStorage_missing _ _ E).
Qed.

Lemma exec_log c s :
  result getActivityLog (exec c s) = result getActivityLog s \/
  (length (result getActivityLog (exec c s)) <= 50)%nat.
Proof.
  destruct c; cbn [exec].
  - right. rewrite savePlan_after, savePlanSync_log, length_take. lia.
  - right. rewrite savePlanSync_log, length_take. lia.
  - apply updatePlan_log.
  - apply updatePlanSync_log.
  - rewrite updateCompletedTasks_log. case_decide; [by left|].
    apply updatePlanSync_log.
  - left. by rewrite !getActivityLog_result, deletePlan_log.
Qed.

End Counts.

(** X6. A save adds one plan to the store, an update of either kind and
    [updateCompletedTasks] leave the number of plans as it is, and
    [deletePlan] takes one plan away when it returns [true] and none when
    it returns [false]. *)
Theorem plan_count_after_call (c : Call) (s : LocalStorage) :
  length (result getAllPlans (exec c s))
  = match c with
    | SavePlan _ _ _ _ | SavePlanSync _ _ _ =>
        S (length (result getAllPlans s))
    | DeletePlan remote id =>
        if result (deletePlan remote id) s
        then pred (length (result getAllPlans s))
        else length (result getAllPlans s)
    | _ => length (result getAllPlans s)
    end.
Proof.
  destruct c; cbn [exec].
  - rewrite savePlan_after, savePlanSync_plans, length_app. cbn. lia.
  - rewrite savePlanSync_plans, length_app. cbn. lia.
  - by rewrite updatePlan_plans, updated_plans_length.
  - by rewrite updatePlanSync_plans, updated_plans_length.
  - rewrite updateCompletedTasks_plans. case_decide; [done|].
    apply updated_plans_length.
  - unfold result at 2, after. rewrite deletePlan_run.
    case_decide; [done|].
    destruct (list_find (fun plan => StoredStudyPlan.id plan = Js.trim id)
                (result getAllPlans s)) as [[i p]|] eqn:E.
    + rewrite (deleteFromLocalStorage_found _ _ _ _ E). cbn [fst snd].
      apply list_find_Some in E as (Hi & _ & _).
      change (result getAllPlans
                (mkLocalStorage (Json (delete i (result getAllPlans s)))
                                (ddplanner_activity_log s)))
        with (delete i (result getAllPlans s)).
      rewrite length_delete by eauto. lia.
    + by rewrite (deleteFromLocalStorage_missing _ _ E).
Qed.

(** X7. Whatever the calls are and whatever log the store starts with,
    the activity log after a sequence of saves, updates and deletions
    never holds more than 50 entries, unless it held more at the start
    and no call logged since; from the empty store it never holds more
    than 50. *)
Theorem activity_log_bounded (calls : list Call) (s : LocalStorage) :
  (length (result getActivityLog (run calls s))
   <= Nat.max 50 (length (result getActivityLog s)))%nat /\
  (length (result getActivityLog (run calls empty_storage)) <= 50)%nat.
Proof.
  assert (forall s0,
    (length (result getActivityLog (run calls s0))
     <= Nat.max 50 (length (result getActivityLog s0)))%nat) as H.
  { induction calls as [|c calls IH]; intros s0; [apply Nat.le_max_r|].
    cbn [run fold_left]. fold (run calls (exec c s0)).
    etrans; [apply IH|]. destruct (exec_log c s0) as [->|Hle]; lia. }
  split; [apply H|]. apply (H empty_storage).
Qed.

(** ** Calls that do not log, and [updateCompletedTasks] *)

(** X8. An update whose partial fields hold no [completedTasks] (a change
    of title, say) writes no activity entry, in either variant; nor does
    any [deletePlan], [deletePlanSync] or [loadFromSupabase]. *)
Theorem no_entry_without_completedTasks (now : Z) (e1 e2 : Stamp)
    (remote : settled unit) (id : string) (updates : Partial.t)
    (loaded : settled (list StoredStudyPlan.t)) (s : LocalStorage) :
  Partial.completedTasks updates = None ->
  ddplanner_activity_log (after (updatePlan now e1 e2 remote id updates) s)
    = ddplanner_activity_log s /\
  ddplanner_activity_log (after (updatePlanSync now e1 e2 id updates) s)
    = ddplanner_activity_log s /\
  ddplanner_activity_log (after (deletePlan remote id) s)
    = ddplanner_activity_log s /\
  ddplanner_activity_log (after (deletePlanSync id) s)
    = ddplanner_activity_log s /\
  ddplanner_activity_log (after (loadFromSupabase loaded) s)
    = ddplanner_activity_log s.
Proof.
  intros Hu.
  assert (ddplanner_activity_log (after (deletePlanSync id) s)
          = ddplanner_activity_log s) as Hsync.
  { unfold after, deletePlanSync. rewrite run_bind. unfold result, after.
    unfold deleteFromLocalStorage, findIndex. run_M.
    destruct (ddplanner_study_plans s) as [| |plans]; cbn; [done..|].
    by destruct (list_find _ plans) as [[]|]. }
  assert (ddplanner_activity_log (after (loadFromSupabase loaded) s)
          = ddplanner_activity_log s) as Hload.
  { by destruct loaded as [[|p ps]|]. }
  split_and!; [| |apply deletePlan_log|done|done].
  - unfold after.
    destruct (list_find (fun plan => StoredStudyPlan.id plan = id)
                (result getAllPlans s)) as [[i p]|] eqn:E.
    + rewrite (updatePlan_found _ _ _ _ _ _ _ _ _ E). unfold after.
      by rewrite (log_completed_none _ _ _ _ _ _ Hu).
    + by rewrite (proj1 (updatePlan_missing now e1 e2 remote _ _ _ E)).
  - unfold after.
    destruct (list_find (fun plan => StoredStudyPlan.id plan = id)
                (result getAllPlans s)) as [[i p]|] eqn:E.
    + rewrite (updatePlanSync_found _ _ _ _ _ _ _ _ E). unfold after.
      by rewrite (log_completed_none _ _ _ _ _ _ Hu).
    + by rewrite (proj2 (updatePlan_missing now e1 e2 remote _ _ _ E)).
Qed.

Lemma no_entry_without_completedTasks_witness :
  let s := mkLocalStorage (Json [sample_plan "a" []]) (Json []) in
  let updates := Partial.mk None (Some "Plano B") None None None None None
                            None None None in
  let e := mkStamp 20 "0.p7c2m4n8bq1" 20 in
  Partial.completedTasks updates = None /\
  ddplanner_activity_log (after (updatePlan 20 e e Rejected "a" updates) s)
    = Json [].
Proof.
  intros s updates e. split; [reflexivity|].
  by apply (no_entry_without_completedTasks 20 e e Rejected "a" updates
              Rejected s).
Defined.

Section CompletedTasks.

Implicit Types (s : LocalStorage) (planId : string).

Lemma updatePlanSync_completedTasks_store now e1 e2 planId tasks s i p :
  list_find (fun plan => StoredStudyPlan.id plan = planId)
            (result getAllPlans s) = Some (i, p) ->
  exists log,
    updatePlanSync now e1 e2 planId (Partial.only_completedTasks tasks) s
    = (true, mkLocalStorage
               (Json (<[i := with_completedTasks p tasks now]>
                        (result getAllPlans s)))
               (Json log)).
Proof.
  intros E. rewrite (updatePlanSync_found _ _ _ _ _ _ _ _ E).
  unfold after.
  destruct (decide (length (StoredStudyPlan.completedTasks p)
                    < length tasks)%nat) as [Hlt|Hlt].
  - rewrite (log_completed_grown _ _ _ tasks) by done. by eexists.
  - rewrite (log_completed_same _ _ _ tasks) by done. by eexists.
Qed.

End CompletedTasks.

(** X9. [updateCompletedTasks(planId, tasks)] returns [false] and changes
    nothing for the empty [planId]; for any other [planId] it does what
    [updatePlanSync(planId, { completedTasks: tasks })] does, result and
    store alike: the additional write of the plans changes nothing.  When
    a plan is found, the first plan of that id afterwards is the former
    one with [completedTasks] the given sequence and [updatedAt] the
    instant of the call, every other field kept. *)
Theorem updateCompletedTasks_as_updatePlanSync (now : Z) (e1 e2 : Stamp)
    (planId : string) (tasks : list string) (s : LocalStorage) :
  updateCompletedTasks now e1 e2 planId tasks s
    = (if decide (planId = "") then (false, s)
       else updatePlanSync now e1 e2 planId
              (Partial.only_completedTasks tasks) s) /\
  (planId <> "" ->
   match result (getPlanById planId) s with
   | Some p =>
       result (updateCompletedTasks now e1 e2 planId tasks) s = true /\
       result (getPlanById planId)
              (after (updateCompletedTasks now e1 e2 planId tasks) s)
         = Some (with_completedTasks p tasks now)
   | None => updateCompletedTasks now e1 e2 planId tasks s = (false, s)
   end).
Proof.
  assert (planId <> "" ->
          updateCompletedTasks now e1 e2 planId tasks s
          = updatePlanSync now e1 e2 planId
              (Partial.only_completedTasks tasks) s) as Hsame.
  { intros Hne. rewrite updateCompletedTasks_run, decide_False by done.
    cbn zeta.
    destruct (list_find (fun plan => StoredStudyPlan.id plan = planId)
                (result getAllPlans s)) as [[i p]|] eqn:E.
    - destruct (updatePlanSync_completedTasks_store now e1 e2 _ tasks _ _ _ E)
        as [log ->]. reflexivity.
    - by rewrite (proj2 (updatePlan_missing now e1 e2 Rejected _ _ _ E)). }
  split.
  - case_decide as Hid; [|by apply Hsame].
    by rewrite updateCompletedTasks_run, decide_True.
  - intros Hne. rewrite getPlanById_find.
    unfold result at 2, after. rewrite (Hsame Hne).
    destruct (find _ (result getAllPlans s)) as [p|] eqn:Hfind.
    + apply find_index in Hfind as [i E].
      destruct (updatePlanSync_completedTasks_store now e1 e2 _ tasks _ _ _ E)
        as [log ->].
      split; [done|]. cbn [snd]. rewrite getPlanById_find.
      apply list_find_Some in E as (Hi & Hp & Hfirst).
      by eapply find_insert_first.
    + unfold find in Hfind.
      destruct (list_find _ (result getAllPlans s)) as [[]|] eqn:E;
        [done|].
      by rewrite (proj2 (updatePlan_missing now e1 e2 Rejected _ _ _ E)).
Qed.

Lemma updateCompletedTasks_as_updatePlanSync_witness :
  let s := mkLocalStorage (Json [sample_plan "a" []; sample_plan "b" []])
                          Absent in
  let e := mkStamp 20 "0.p7c2m4n8bq1" 20 in
  "b" <> "" /\
  result (getPlanById "b")
         (after (updateCompletedTasks 20 e e "b" ["t1"; "t2"]) s)
    = Some (with_completedTasks (sample_plan "b" []) ["t1"; "t2"] 20).
Proof.
  intros s e. split; [done|].
  destruct (updateCompletedTasks_as_updatePlanSync 20 e e "b" ["t1"; "t2"] s)
    as [_ H].
  by apply H.
Defined.

(** ** A store without readable plans *)

Lemma verifyDataIntegrity_result (s : LocalStorage) :
  result verifyDataIntegrity s
  = if decide (length (stored_ids s)
               <> size (list_to_set (C := gset string) (stored_ids s)))
    then false else valid_structure (result getAllPlans s).
Proof.
  unfold result at 1. unfold verifyDataIntegrity. rewrite !run_bind.
  change (after getAllPlans s) with s.
  change (after getActivityLog s) with s.
  unfold stored_ids. by case_decide.
Qed.

(** X10. When the plan key is missing or holds a text that is not JSON,
    [getAllPlans()] is empty, [getStats()] is all zero and
    [verifyDataIntegrity()] returns [true]; every update and every
    deletion returns [false] and leaves the store, the unreadable text
    included, as it is; and a save replaces what was there by the one new
    plan. *)
Theorem unreadable_plans_behaviour (s : LocalStorage) :
  unreadable_plans s ->
  result getAllPlans s = [] /\
  result getStats s = zero_stats /\
  result verifyDataIntegrity s = true /\
  (forall now e1 e2 remote id updates,
      updatePlan now e1 e2 remote id updates s = (false, s) /\
      updatePlanSync now e1 e2 id updates s = (false, s)) /\
  (forall now e1 e2 planId tasks,
      updateCompletedTasks now e1 e2 planId tasks s = (false, s)) /\
  (forall remote id,
      deletePlan remote id s = (false, s) /\
      deletePlanSync id s = (false, s)) /\
  (forall e ea remote planData,
      ddplanner_study_plans (after (savePlan e ea remote planData) s)
      = Json [new_plan planData (make_id "plan" e) (new_date e)]).
Proof.
  intros Hs.
  assert (result getAllPlans s = []) as Hnone.
  { rewrite getAllPlans_result. unfold unreadable_plans in Hs.
    by destruct (ddplanner_study_plans s). }
  assert (forall id,
    list_find (fun plan => StoredStudyPlan.id plan = id)
              (result getAllPlans s) = None) as Hfind.
  { intros id. by rewrite Hnone. }
  split; [done|].
  split. { change (result getStats s) with (stats_of (result getAllPlans s)).
           by rewrite Hnone. }
  split. { rewrite verifyDataIntegrity_result. unfold stored_ids.
           by rewrite Hnone. }
  split. { intros. by apply updatePlan_missing. }
  split. { intros. rewrite updateCompletedTasks_run. case_decide; [done|].
           cbn zeta.
           by rewrite (proj2 (updatePlan_missing now e1 e2 Rejected _ _ _
                                (Hfind planId))). }
  split. { intros. split.
           - rewrite deletePlan_run. case_decide; [done|].
             by apply deleteFromLocalStorage_missing.
           - unfold deletePlanSync. rewrite run_bind.
             unfold result, after.
             by rewrite (deleteFromLocalStorage_missing _ _ (Hfind _)). }
  intros. rewrite savePlan_after.
  change (ddplanner_study_plans (after (savePlanSync e ea planData) s))
    with (Json (result getAllPlans s
                ++ [new_plan planData (make_id "plan" e) (new_date e)])).
  by rewrite Hnone.
Qed.

Lemma unreadable_plans_behaviour_witness :
  let s := mkLocalStorage Malformed (Json []) in
  unreadable_plans s /\
  result getStats s = zero_stats /\
  deletePlan Rejected "plan_1_a" s = (false, s).
Proof.
  intros s. split; [exact I|].
  destruct (unreadable_plans_behaviour s I)
    as (_ & Hstats & _ & _ & _ & Hdel & _).
  split; [exact Hstats|]. apply Hdel.
Defined.

(** ** Integrity *)

Section Integrity.

Implicit Types (l : list string) (s : LocalStorage).

Lemma size_list_to_set_le l :
  (size (list_to_set (C := gset string) l) <= length l)%nat.
Proof.
  induction l as [|x l IH]; [done|]. cbn [list_to_set length].
  rewrite size_union_alt, size_singleton.
  assert (list_to_set (C := gset string) l ∖ {[x]} ⊆ list_to_set l)
    as Hsub by set_solver.
  apply subseteq_size in Hsub. lia.
Qed.

Lemma size_list_to_set_NoDup l :
  length l = size (list_to_set (C := gset string) l) <-> NoDup l.
Proof.
  split; [|intros Hnd; by rewrite size_list_to_set].
  induction l as [|x l IH]; [constructor|].
  cbn [list_to_set length]. intros Hlen.
  pose proof (size_list_to_set_le l) as Hle.
  destruct (decide (x ∈ l)) as [Hin|Hnotin].
  - assert ({[x]} ∪ list_to_set (C := gset string) l = list_to_set l)
      as Heq by set_solver.
    rewrite Heq in Hlen. lia.
  - rewrite size_union in Hlen by set_solver.
    rewrite size_singleton in Hlen.
    apply NoDup_cons. split; [done|]. apply IH. lia.
Qed.

Lemma falsy_spec (x : string) : falsy x = true <-> x = "".
Proof. by destruct x. Qed.

Lemma valid_structure_spec (plans : list StoredStudyPlan.t) :
  valid_structure plans = true <-> Forall named plans.
Proof.
  induction plans as [|p plans IH]; cbn [valid_structure].
  - split; [constructor|done].
  - rewrite Forall_cons, <- IH. unfold named.
    destruct (StoredStudyPlan.id p), (StoredStudyPlan.title p); cbn;
      naive_solver.
Qed.

Lemma make_id_not_empty (e : Stamp) : make_id "plan" e <> "".
Proof. unfold make_id. by rewrite append_cons. Qed.

Lemma run_saves_plans (calls : list Call) s :
  Forall (fun c => is_Some (save_stamp c)) calls ->
  result getAllPlans (run calls s)
  = result getAllPlans s ++ omap saved_plan calls.
Proof.
  intros Hall. revert s.
  induction Hall as [|c calls [e He] _ IH]; intros s.
  { cbn. by rewrite app_nil_r. }
  cbn [run fold_left]. fold (run calls (exec c s)). rewrite IH.
  change (omap saved_plan (c :: calls))
    with (match saved_plan c with
          | Some p => p :: omap saved_plan calls
          | None => omap saved_plan calls
          end).
  destruct c; try done; cbn [exec saved_plan].
  - rewrite savePlan_after, savePlanSync_plans. by rewrite <- app_assoc.
  - rewrite savePlanSync_plans. by rewrite <- app_assoc.
Qed.

End Integrity.

(** X11. When [verifyDataIntegrity()] returns [true], the ids of the
    stored plans are pairwise distinct and every stored plan has a
    non-empty [id] and a non-empty [title]: comparing the number of ids
    with the size of their set detects every duplicate, so two plans with
    one id, or a plan without id or title, make it return [false]. *)
Theorem verifyDataIntegrity_sound (s : LocalStorage) :
  result verifyDataIntegrity s = true ->
  NoDup (stored_ids s) /\ Forall named (result getAllPlans s).
Proof.
  rewrite verifyDataIntegrity_result. case_decide as Hsize; [done|].
  apply size_list_to_set_NoDup in Hsize.
  rewrite valid_structure_spec. done.
Qed.

Lemma verifyDataIntegrity_sound_witness :
  let s := mkLocalStorage (Json [sample_plan "a" []; sample_plan "b" []])
                          Absent in
  result verifyDataIntegrity s = true /\
  NoDup (stored_ids s) /\ Forall named (result getAllPlans s).
Proof.
  intros s. split; [reflexivity|].
  apply (verifyDataIntegrity_sound s). reflexivity.
Defined.

Example verifyDataIntegrity_samples :
  result verifyDataIntegrity
    (mkLocalStorage (Json [sample_plan "a" []; sample_plan "a" ["t1"]])
                    Absent) = false /\
  result verifyDataIntegrity
    (mkLocalStorage (Json [sample_plan "" []]) Absent) = false /\
  result verifyDataIntegrity
    (mkLocalStorage
       (Json [new_plan (sample_data "" "4 horas" []) "a" 10]) Absent)
  = false.
Proof. by vm_compute. Qed.

(** X12. After a sequence of saves on the empty store in which no two
    saves read both the same [Date.now()] and the same random characters,
    [verifyDataIntegrity()] returns [true] exactly when every saved plan
    has a non-empty title: a save checks neither the title nor anything
    else of what it stores. *)
Theorem integrity_after_saves (calls : list Call) :
  Forall (fun c => is_Some (save_stamp c)) calls ->
  NoDup (id_source <$> omap save_stamp calls) ->
  result verifyDataIntegrity (run calls empty_storage) = true <->
  Forall (fun p => StoredStudyPlan.title p <> "") (omap saved_plan calls).
Proof.
  intros Hall Hnd. rewrite verifyDataIntegrity_result.
  rewrite (run_saves_ids _ _ Hall), (run_saves_plans _ _ Hall). cbn [app].
  change (stored_ids empty_storage) with (@nil string).
  change (result getAllPlans empty_storage) with (@nil StoredStudyPlan.t).
  cbn [app].
  rewrite decide_False.
  2:{ intros Hne. apply Hne. apply size_list_to_set_NoDup.
      by apply make_id_plan_NoDup. }
  rewrite valid_structure_spec. clear Hnd.
  induction Hall as [|c calls [e He] _ IH]; [done|].
  change (omap saved_plan (c :: calls))
    with (match saved_plan c with
          | Some p => p :: omap saved_plan calls
          | None => omap saved_plan calls
          end).
  destruct c; try done; cbn [saved_plan]; rewrite !Forall_cons, IH;
    unfold named; cbn; pose proof (make_id_not_empty e0); naive_solver.
Qed.

Lemma integrity_after_saves_witness :
  let e1 := mkStamp 1700000000000 "0.k3j9x0q1zd8" 1700000000000 in
  let e2 := mkStamp 1700000000000 "0.p7c2m4n8bq1" 1700000000001 in
  let calls :=
    [SavePlan e1 e1 Rejected (sample_data "Plano A" "4 horas" []);
     SavePlanSync e2 e2 (sample_data "" "4 horas" [])] in
  result verifyDataIntegrity (run calls empty_storage) <> true.
Proof.
  intros e1 e2 calls Htrue.
  apply (integrity_after_saves calls) in Htrue.
  - apply Forall_cons in Htrue as [_ Htrue].
    apply Forall_cons in Htrue as [Htitle _]. by apply Htitle.
  - repeat constructor; by eexists.
  - compute_done.
Defined.

(** ** Counts and bounds of the statistics *)

Section MoreStatistics.

Implicit Types (p : StoredStudyPlan.t) (ps : list StoredStudyPlan.t).

Lemma subjects_fold (l : list string) (acc : gset string) :
  fold_left (fun set subject => {[subject]} ∪ set) l acc
  = list_to_set l ∪ acc.
Proof.
  revert acc. induction l as [|x l IH]; intros acc; cbn [fold_left].
  - set_solver.
  - rewrite IH. set_solver.
Qed.

Lemma allSubjects_fold ps (a : Acc) :
  acc_allSubjects (fold_left stats_step ps a)
  = list_to_set (all_subjects ps) ∪ acc_allSubjects a.
Proof.
  revert a. induction ps as [|p ps IH]; intros a; cbn [fold_left].
  - set_solver.
  - rewrite IH. cbn [stats_step acc_allSubjects]. rewrite subjects_fold.
    unfold all_subjects. cbn [mbind list_bind].
    rewrite list_to_set_app_L. set_solver.
Qed.

Lemma size_list_to_set_remove_dups (l : list string) :
  size (list_to_set (C := gset string) l) = length (remove_dups l).
Proof.
  rewrite <- (size_list_to_set (C := gset string) (remove_dups l))
    by apply NoDup_remove_dups.
  f_equal. apply set_eq. intros x.
  by rewrite !elem_of_list_to_set, elem_of_remove_dups.
Qed.


End MoreStatistics.

(** X13. [totalPlans] and [activePlans] of [getStats()] are both the
    number of stored plans, and [totalSubjects] is the number of distinct
    texts among the [disciplinasDificuldade] entries of all plans: a
    subject that several plans name, or that one plan names twice, counts
    once. *)
Theorem getStats_counts (s : LocalStorage) :
  let plans := result getAllPlans s in
  totalPlans (result getStats s) = length plans /\
  activePlans (result getStats s) = length plans /\
  totalSubjects (result getStats s)
    = length (remove_dups (all_subjects plans)).
Proof.
  intros plans.
  change (result getStats s) with (stats_of plans).
  destruct plans as [|p ps]; [done|].
  cbn [stats_of totalPlans activePlans totalSubjects].
  split; [done|]. split; [done|].
  rewrite allSubjects_fold, <- size_list_to_set_remove_dups.
  f_equal. cbn [acc_allSubjects]. set_solver.
Qed.




(** ** Reading the hours back *)

Section Decimal.

Implicit Types (s r : string) (c : ascii) (x : N).

Lemma is_digit_facts c :
  is_digit c = true ->
  Js.is_space c = false /\ c <> "-"%char /\ c <> "+"%char /\
  c <> "x"%char /\ c <> "X"%char /\ Ascii.eqb c " "%char = false /\
  exists d, Js.digit_value c = Some d /\ 0 <= d < 10.
Proof.
  destruct c as [[] [] [] [] [] [] [] []]; cbv; intros H; try discriminate H;
    (split_and!; [done..|]); eexists; (split; [reflexivity|]); by cbv.
Qed.

Lemma pretty_N_char_digit x :
  (x < 10)%N ->
  is_digit (pretty_N_char x) = true /\
  Js.digit_value (pretty_N_char x) = Some (Z.of_N x).
Proof.
  intros Hx.
  assert (x = 0 \/ x = 1 \/ x = 2 \/ x = 3 \/ x = 4 \/ x = 5 \/ x = 6
          \/ x = 7 \/ x = 8 \/ x = 9)%N as Hcases by lia.
  repeat (destruct Hcases as [->|Hcases]; [by cbv|]). by subst.
Qed.

Lemma pretty_N_go_all_digits x s :
  all_digits s -> all_digits (pretty_N_go x s).
Proof.
  revert s. induction (N.lt_wf_0 x) as [x _ IH]; intros s Hs.
  assert (x = 0 \/ 0 < x)%N as [->|Hpos] by lia.
  - by rewrite pretty_N_go_0.
  - rewrite pretty_N_go_step by done. apply IH.
    + by apply N.div_lt.
    + split; [|done]. apply pretty_N_char_digit. by apply N.mod_lt.
Qed.

(** The digits that [pretty_N_go] puts in front of a text read back, most
    significant first, as the number it printed. *)
Lemma digits_pretty_N_go x s :
  exists ds,
    Js.digits 10 (pretty_N_go x s) = ds ++ Js.digits 10 s /\
    (forall a, fold_left decimal_step ds a
               = a * 10 ^ Z.of_nat (length ds) + Z.of_N x) /\
    ((0 < x)%N -> ds <> []).
Proof.
  revert s. induction (N.lt_wf_0 x) as [x _ IH]; intros s.
  assert (x = 0 \/ 0 < x)%N as [->|Hpos] by lia.
  { exists []. rewrite pretty_N_go_0. split; [done|]. split; [|lia].
    intros a. cbn. lia. }
  rewrite pretty_N_go_step by done.
  destruct (IH (x `div` 10)%N (N.div_lt x 10 Hpos eq_refl)
              (String (pretty_N_char (x `mod` 10)) s))
    as (ds & Hds & Hval & _).
  destruct (pretty_N_char_digit (x `mod` 10)%N) as [_ Hd];
    [by apply N.mod_lt|].
  exists (ds ++ [Z.of_N (x `mod` 10)]). split; [|split].
  - rewrite Hds. cbn [Js.digits]. rewrite Hd.
    assert ((Z.of_N (x `mod` 10) <? 10) = true) as ->.
    { apply Z.ltb_lt. pose proof (N.mod_lt x 10). lia. }
    by rewrite <- app_assoc.
  - intros a. rewrite fold_left_app, Hval, length_app. cbn [fold_left length].
    unfold decimal_step at 1.
    rewrite Nat2Z.inj_add, Z.pow_add_r by lia.
    change (10 ^ Z.of_nat 1) with 10.
    pose proof (N.div_mod x 10) as Hdm. lia.
  - intros _. by destruct ds.
Qed.

Lemma digits_value_fold ds :
  Js.digits_value 10 ds = fold_left decimal_step ds 0.
Proof. reflexivity. Qed.

Lemma pretty_N_digits x :
  exists c r, pretty x = String c r /\ all_digits (pretty x).
Proof.
  unfold pretty, pretty_N. case_decide as Hx.
  - exists "0"%char, "". by split.
  - assert (all_digits (pretty_N_go x "")) as Hall
      by by apply pretty_N_go_all_digits.
    destruct (digits_pretty_N_go x "") as (ds & Hds & _ & Hne).
    destruct (pretty_N_go x "") as [|c r] eqn:E.
    + cbn in Hds. destruct ds; [|done]. destruct Hne; [lia|done].
    + by exists c, r.
Qed.

Lemma digits_value_pretty x :
  exists ds, Js.digits 10 (pretty x) = ds /\ ds <> [] /\
             Js.digits_value 10 ds = Z.of_N x.
Proof.
  unfold pretty, pretty_N. case_decide as Hx.
  - subst x. by exists [0].
  - destruct (digits_pretty_N_go x "") as (ds & Hds & Hval & Hne).
    exists ds. cbn [Js.digits] in Hds. rewrite app_nil_r in Hds.
    split; [done|]. split; [apply Hne; lia|].
    rewrite digits_value_fold, Hval. lia.
Qed.

(** [parseInt] of a non-empty text of decimal digits reads all of it. *)
Lemma parseInt_all_digits c r :
  all_digits (String c r) ->
  Js.parseInt (String c r)
  = match Js.digits 10 (String c r) with
    | [] => Js.NaN
    | ds => Js.of_Z (1 * Js.digits_value 10 ds)
    end.
Proof.
  intros [Hc Hr].
  destruct (is_digit_facts c Hc) as (Hsp & Hm & Hp & _ & _ & _ & _).
  unfold Js.parseInt. cbn [Js.trimStart]. rewrite Hsp.
  assert (Js.is_hex_prefix (String c r) = false) as Hhex.
  { destruct r as [|c' r]; [by destruct c as [[] [] [] [] [] [] [] []]|].
    destruct Hr as [Hc' _].
    destruct (is_digit_facts c' Hc') as (_ & _ & _ & Hx & HX & _).
    destruct c as [[] [] [] [] [] [] [] []]; try done;
      destruct c' as [[] [] [] [] [] [] [] []]; done. }
  destruct c as [[] [] [] [] [] [] [] []]; try done;
    cbv zeta iota beta; rewrite Hhex; reflexivity.
Qed.

Lemma split_space_0_digits s r :
  all_digits s -> Js.split_space_0 (s +:+ " " +:+ r) = s.
Proof.
  induction s as [|c s IH]; intros Hs.
  - by rewrite append_nil_l.
  - destruct Hs as [Hc Hs]. rewrite append_cons. cbn [Js.split_space_0].
    destruct (is_digit_facts c Hc) as (_ & _ & _ & _ & _ & -> & _).
    by rewrite IH.
Qed.

Lemma split_space_0_digits_only s :
  all_digits s -> Js.split_space_0 s = s.
Proof.
  induction s as [|c s IH]; intros Hs; [done|].
  destruct Hs as [Hc Hs]. cbn [Js.split_space_0].
  destruct (is_digit_facts c Hc) as (_ & _ & _ & _ & _ & -> & _).
  by rewrite IH.
Qed.

Lemma parseInt_pretty_N x : Js.parseInt (pretty x) = Js.of_Z (Z.of_N x).
Proof.
  destruct (pretty_N_digits x) as (c & r & Hcr & Hall).
  destruct (digits_value_pretty x) as (ds & Hds & Hne & Hval).
  rewrite Hcr in *. rewrite (parseInt_all_digits _ _ Hall), Hds.
  destruct ds; [done|]. rewrite Hval. f_equal. lia.
Qed.

End Decimal.

(** X16. When [formData.horasLiquidas] is the decimal text of a natural
    number [n] below [2^53], alone or followed by a space and any text
    (["4 horas"]), the hours per day that [getStats()] reads are [n]
    exactly. *)
Theorem hoursPerDay_reads_number (p : StoredStudyPlan.t) (n : N)
    (rest : string) :
  Z.of_N n < 2 ^ 53 ->
  FormData.horasLiquidas (StoredStudyPlan.formData p) = pretty n \/
  FormData.horasLiquidas (StoredStudyPlan.formData p)
    = pretty n +:+ " " +:+ rest ->
  DoubleStats.hoursPerDay p = Double.Fin (inject_Z (Z.of_N n)).
Proof.
  intros Hn Hh. destruct (pretty_N_digits n) as (c & r & Hcr & Hall).
  unfold DoubleStats.hoursPerDay, Double.parseInt.
  assert (Js.split_space_0
            (FormData.horasLiquidas (StoredStudyPlan.formData p))
          = pretty n) as ->.
  { destruct Hh as [->| ->];
      [by apply split_space_0_digits_only|by apply split_space_0_digits]. }
  rewrite Hcr. cbn [Js.or_else]. rewrite <- Hcr.
  rewrite parseInt_pretty_N. cbn [Js.of_Z].
  apply of_Z_exact. lia.
Qed.

Lemma hoursPerDay_reads_number_witness :
  let p := new_plan (sample_data "Plano A" "12 horas por dia" []) "a" 10 in
  DoubleStats.hoursPerDay p = Double.Fin 12.
Proof.
  intros p. apply (hoursPerDay_reads_number p 12 "horas por dia").
  - by vm_compute.
  - right. by vm_compute.
Defined.

(** From [2^53] on the digits need not denote a double: the hours read
    are the double nearest to the number written, an infinity for a
    number of 400 digits. *)
Example hoursPerDay_large :
  let plan horas := new_plan (sample_data "Plano A" horas []) "a" 10 in
  DoubleStats.hoursPerDay (plan "9007199254740993 horas")
  = Double.Fin 9007199254740992 /\
  DoubleStats.hoursPerDay
    (plan (String.concat EmptyString (replicate 400 "9") +:+ " horas"))
  = Double.PInf.
Proof. by vm_compute. Qed.

(** ** Recent activity *)

Section RecentActivity.

Implicit Types (a b : Activity.t) (l : list Activity.t)
  (p : StoredStudyPlan.t) (s : LocalStorage) (clock : nat -> Z).

Lemma insert_by_time_perm a l : insert_by_time a l ≡ₚ a :: l.
Proof.
  induction l as [|b l IH]; [done|]. cbn [insert_by_time].
  case_decide; [|done]. rewrite IH. apply Permutation_swap.
Qed.

Lemma sort_newest_first_perm l : sort_newest_first l ≡ₚ l.
Proof.
  induction l as [|a l IH]; [done|]. cbn [sort_newest_first foldr].
  fold (sort_newest_first l). by rewrite insert_by_time_perm, IH.
Qed.

Lemma insert_by_time_sorted a l :
  newest_first l -> newest_first (insert_by_time a l).
Proof.
  unfold newest_first. induction 1 as [|b l Hl IH Hb]; cbn [insert_by_time].
  - repeat constructor.
  - case_decide as Hlt.
    + constructor; [done|]. rewrite insert_by_time_perm.
      constructor; [lia|done].
    + constructor; [by constructor|]. constructor; [lia|].
      eapply Forall_impl; [exact Hb|]. cbn. intros; lia.
Qed.

Lemma sort_newest_first_sorted l : newest_first (sort_newest_first l).
Proof.
  induction l as [|a l IH]; [constructor|].
  by apply insert_by_time_sorted.
Qed.

(** Entries of the same instant keep the order they were pushed in. *)
Lemma insert_by_time_stable a l (t : Z) :
  filter (fun b => Activity.timestamp b = t) (insert_by_time a l)
  = filter (fun b => Activity.timestamp b = t) (a :: l).
Proof.
  induction l as [|b l IH]; [done|]. cbn [insert_by_time].
  case_decide as Hlt; [|done].
  rewrite filter_cons, IH, !filter_cons.
  repeat case_decide; try done; lia.
Qed.

Lemma sort_newest_first_stable l (t : Z) :
  filter (fun b => Activity.timestamp b = t) (sort_newest_first l)
  = filter (fun b => Activity.timestamp b = t) l.
Proof.
  induction l as [|a l IH]; [done|]. cbn [sort_newest_first foldr].
  fold (sort_newest_first l).
  by rewrite insert_by_time_stable, !filter_cons, IH.
Qed.

Lemma newest_first_take (n : nat) l :
  newest_first l -> newest_first (take n l).
Proof.
  unfold newest_first. intros Hl. revert n.
  induction Hl as [|a l Hl IH Ha]; intros [|n]; cbn [take];
    try constructor; [apply IH|by apply Forall_take].
Qed.

Lemma task_loop_length clock p k i n :
  length (task_loop clock p k i n) = n.
Proof.
  revert k i. induction n as [|n IH]; intros k i; [done|].
  cbn [task_loop length]. by rewrite IH.
Qed.

Lemma task_loop_titles clock p k i n :
  Forall (fun a => Activity.planTitle a = StoredStudyPlan.title p)
         (task_loop clock p k i n).
Proof.
  revert k i. induction n as [|n IH]; intros k i; [constructor|].
  cbn [task_loop]. by constructor.
Qed.

Lemma plan_activities_length clock k p :
  length (plan_activities clock k p) = synthetic_count p.
Proof.
  unfold plan_activities, synthetic_count. rewrite !length_app. cbn [length].
  repeat case_decide; rewrite ?task_loop_length; cbn [length]; try lia;
    try done.
Qed.

Lemma plan_activities_titles clock k p :
  Forall (fun a => Activity.planTitle a = StoredStudyPlan.title p)
         (plan_activities clock k p).
Proof.
  unfold plan_activities. rewrite !Forall_app. split_and!.
  - by repeat constructor.
  - case_decide; by repeat constructor.
  - case_decide; [apply task_loop_titles|constructor].
Qed.

Lemma synthesize_from_app clock (acc : list Activity.t) (k : nat)
    (plans : list StoredStudyPlan.t) :
  exists rest,
    fst (synthesize_from clock (acc, k) plans) = acc ++ rest /\
    length rest = sum_list (synthetic_count <$> plans) /\
    Forall (fun a => exists p, p ∈ plans /\
                               Activity.planTitle a = StoredStudyPlan.title p)
           rest.
Proof.
  revert acc k. induction plans as [|p plans IH]; intros acc k.
  { exists []. by rewrite app_nil_r. }
  unfold synthesize_from. cbn [fold_left].
  destruct (IH (acc ++ plan_activities clock k p)
               (k + Nat.min 3 (length (StoredStudyPlan.completedTasks p)))%nat)
    as (rest & Hrest & Hlen & Htitles).
  exists (plan_activities clock k p ++ rest). split_and!.
  - unfold synthesize_from in Hrest. by rewrite Hrest, app_assoc.
  - rewrite length_app, plan_activities_length, Hlen. done.
  - apply Forall_app. split.
    + eapply Forall_impl; [apply plan_activities_titles|].
      intros a Ha. exists p. split; [apply list_elem_of_here|done].
    + eapply Forall_impl; [exact Htitles|].
      intros a (q & Hq & Ha). exists q. split; [|done].
      by apply list_elem_of_further.
Qed.

Lemma getRecentActivity_result clock s :
  result (getRecentActivity clock) s
  = match result getActivityLog s with
    | [] => take 10 (sort_newest_first
                       (synthesize clock (result getAllPlans s)))
    | loggedActivities => take 10 loggedActivities
    end.
Proof.
  unfold result at 1. unfold getRecentActivity. rewrite run_bind.
  change (after getActivityLog s) with s.
  destruct (result getActivityLog s) as [|a l]; [|done].
  rewrite decide_False by (cbn; lia). by rewrite run_bind.
Qed.

Lemma task_loop_entries clock p k i n :
  task_loop clock p k i n
  = (fun j => Activity.mk
                (StoredStudyPlan.id p +:+ "_task_" +:+ pretty (i + j)%nat)
                completed_task (StoredStudyPlan.title p)
                (clock (k + j)%nat - Z.of_nat (i + j) * 3600000)
                (completed_description (StoredStudyPlan.title p)))
      <$> seq 0 n.
Proof.
  revert k i. induction n as [|n IH]; intros k i; [done|].
  cbn [task_loop seq fmap list_fmap]. rewrite !Nat.add_0_r. f_equal.
  rewrite IH, <- fmap_S_seq, <- list_fmap_compose.
  apply list_fmap_ext. intros _ j _. cbn.
  by rewrite !Nat.add_succ_r.
Qed.

Lemma plan_activities_entries clock k p :
  plan_activities clock k p = entries_for clock k p.
Proof.
  unfold plan_activities, entries_for, shown_tasks. cbn [app]. f_equal.
  f_equal; [repeat case_decide; done|].
  case_decide as Hc; [by rewrite task_loop_entries|].
  by destruct (StoredStudyPlan.completedTasks p); [|cbn in Hc; lia].
Qed.

Lemma synthesize_from_entries clock (acc : list Activity.t) (k : nat)
    (plans : list StoredStudyPlan.t) :
  fst (synthesize_from clock (acc, k) plans)
  = acc ++ entries_made clock k plans.
Proof.
  revert acc k. induction plans as [|p plans IH]; intros acc k.
  { cbn. by rewrite app_nil_r. }
  unfold synthesize_from. cbn [fold_left entries_made].
  unfold synthesize_from in IH.
  by rewrite IH, plan_activities_entries, app_assoc.
Qed.

End RecentActivity.

(** X17. After [savePlan(data)] or [savePlanSync(data)],
    [getRecentActivity()] gives the [created] entry of the new plan
    followed by the nine newest entries that the log held before; the
    entries made up from the plans are not used once something is
    logged. *)
Theorem recent_activity_after_save (e ea : Stamp) (remote : settled unit)
    (planData : PlanData.t) (clock : nat -> Z) (s : LocalStorage) :
  result (getRecentActivity clock) (after (savePlan e ea remote planData) s)
    = created_entry ea (PlanData.title planData)
      :: take 9 (result getActivityLog s) /\
  result (getRecentActivity clock) (after (savePlanSync e ea planData) s)
    = created_entry ea (PlanData.title planData)
      :: take 9 (result getActivityLog s).
Proof.
  rewrite savePlan_after, getRecentActivity_result, savePlanSync_log.
  change 50%nat with (S 49). cbn [take].
  rewrite take_take. by split.
Qed.

(** X18. [getRecentActivity()] never gives more than 10 entries.  While
    the log is empty it gives the first 10 of the made-up entries
    arranged newest first, entries of the same instant in the order of
    their making.  The made-up entries are, plan after plan: one entry of
    type [created] at [createdAt] with the id [<plan id>_created]; one of
    type [updated] at [updatedAt] with the id [<plan id>_updated] when
    [updatedAt] differs from [createdAt]; and for each [i] below the
    lesser of 3 and the number of completed tasks one of type
    [completed_task] with the id [<plan id>_task_<i>], [i] hours before
    the instant read for it; every entry under the title of its plan. *)
Theorem recent_activity_fallback (clock : nat -> Z) (s : LocalStorage) :
  (length (result (getRecentActivity clock) s) <= 10)%nat /\
  (result getActivityLog s = [] ->
   let made := synthesize clock (result getAllPlans s) in
   let recent := result (getRecentActivity clock) s in
   made = entries_made clock 0 (result getAllPlans s) /\
   length made = sum_list (synthetic_count <$> result getAllPlans s) /\
   (exists arranged,
       arranged ≡ₚ made /\ newest_first arranged /\
       (forall t, filter (fun a => Activity.timestamp a = t) arranged
                  = filter (fun a => Activity.timestamp a = t) made) /\
       recent = take 10 arranged) /\
   newest_first recent /\
   Forall (fun a => exists p, p ∈ result getAllPlans s /\
                     Activity.planTitle a = StoredStudyPlan.title p)
          recent).
Proof.
  rewrite getRecentActivity_result. split.
  { destruct (result getActivityLog s); rewrite length_take; lia. }
  intros ->. cbn zeta.
  split; [apply (synthesize_from_entries clock [] 0)|].
  destruct (synthesize_from_app clock [] 0 (result getAllPlans s))
    as (made & Hmade & Hlen & Htitles).
  change (fst (synthesize_from clock ([], 0%nat) (result getAllPlans s)))
    with (synthesize clock (result getAllPlans s)) in Hmade.
  cbn [app] in Hmade. rewrite Hmade. split_and!.
  - done.
  - exists (sort_newest_first made). split_and!;
      [apply sort_newest_first_perm|apply sort_newest_first_sorted
      |apply sort_newest_first_stable|done].
  - apply newest_first_take, sort_newest_first_sorted.
  - apply Forall_take. by rewrite sort_newest_first_perm.
Qed.

Lemma recent_activity_fallback_witness :
  let s := mkLocalStorage
             (Json [half_done_plan;
                    StoredStudyPlan.mk "b" "Plano B" "TJ-CE" "Tecnico" 10 20
                      3 [] sample_days (sample_form "4 horas")])
             Absent in
  let clock := fun k : nat => 7200000 + Z.of_nat k in
  result getActivityLog s = [] /\
  (fun a => (Activity.id a, Activity.type a, Activity.timestamp a))
    <$> synthesize clock (result getAllPlans s)
  = [("plan_1_a_created", created, 10);
     ("plan_1_a_task_0", completed_task, 7200000);
     ("plan_1_a_task_1", completed_task, 3600001);
     ("plan_1_a_task_2", completed_task, 2);
     ("b_created", created, 10); ("b_updated", updated, 20)] /\
  newest_first (result (getRecentActivity clock) s).
Proof.
  intros s clock. split; [reflexivity|].
  destruct (recent_activity_fallback clock s) as [_ H].
  destruct (H eq_refl) as (Hmade & _ & _ & Hsorted & _).
  split; [|exact Hsorted]. rewrite Hmade. reflexivity.
Defined.

Example recent_activity_sample :
  let s := mkLocalStorage (Json [half_done_plan]) Absent in
  let clock := fun k : nat => 7200000 + Z.of_nat k in
  (fun a => (Activity.id a, Activity.timestamp a))
    <$> result (getRecentActivity clock) s
  = [("plan_1_a_task_0", 7200000); ("plan_1_a_task_1", 3600001);
     ("plan_1_a_created", 10); ("plan_1_a_task_2", 2)].
Proof. by vm_compute. Qed.

(** * Properties of the Supabase helper and of the authentication calls *)

Section SupabaseHelper.

Import Supabase.

Lemma isSupabaseConfigured_iff (url key : string) :
  isSupabaseConfigured url key = true <-> (url <> "" /\ key <> "").
Proof. destruct url, key; cbn; naive_solver. Qed.

End SupabaseHelper.

(** X19. [executeSupabaseOperation] runs the operation only when both
    the URL and the key are non-empty, and then gives the value of the
    operation when the operation returns one.  When the operation throws
    (a value whose message is absent or a string), be it an error of the
    network or not, the fallback is run on the state the operation left,
    and with the credentials missing it is run at once: the call then
    returns the value the fallback returns, throws what the fallback
    throws, and returns [null] when there is no fallback.  So without a
    fallback the call never throws. *)
Theorem executeSupabaseOperation_outcome {St F T : Type}
    (url key : string)
    (operation : St -> Supabase.completion Supabase.JsError T * St)
    (fallback : option (St -> Supabase.completion F T * St)) (st : St) :
  let out := Supabase.executeSupabaseOperation url key operation fallback st
  in
  (Supabase.isSupabaseConfigured url key = true <->
   url <> "" /\ key <> "") /\
  (Supabase.isSupabaseConfigured url key = false ->
   fallback_gives fallback st out) /\
  (Supabase.isSupabaseConfigured url key = true ->
   (forall result st', operation st = (Supabase.Returns result, st') ->
                       out = (Supabase.Returns (Some result), st')) /\
   (forall error st', operation st = (Supabase.Throws error, st') ->
                      fallback_gives fallback st' out)) /\
  (fallback = None -> exists result st', out = (Supabase.Returns result, st')).
Proof.
  assert (forall st0, fallback_gives fallback st0
                        (Supabase.run_fallback fallback st0)) as Hfb.
  { intros st0. unfold fallback_gives, Supabase.run_fallback.
    destruct fallback as [f|]; [|done].
    destruct (f st0) as [[v|x] st1]; split; intros ?? [= <- <-]; done. }
  cbv zeta. split; [apply isSupabaseConfigured_iff|].
  unfold Supabase.executeSupabaseOperation.
  destruct (Supabase.isSupabaseConfigured url key); cbn [negb].
  - split; [done|]. split.
    + intros _. destruct (operation st) as [[result|error] st0].
      * split; intros ?? [= <- <-]; done.
      * split; [done|]. intros ?? [= <- <-].
        destruct (Supabase.is_network_error error); apply Hfb.
    + intros ->. destruct (operation st) as [[result|error] st0];
        [by eexists _, _|].
      destruct (Supabase.is_network_error error); by eexists _, _.
  - split; [intros _; apply Hfb|]. split; [done|].
    intros ->. by eexists _, _.
Qed.

Lemma executeSupabaseOperation_outcome_witness :
  let operation := fun st : nat =>
    (@Supabase.Throws Supabase.JsError bool
       (Supabase.mkJsError (Some "TypeError: Failed to fetch") None),
     S st) in
  let fallback := fun st : nat =>
    (@Supabase.Returns Empty_set bool true, (st + 10)%nat) in
  Supabase.executeSupabaseOperation
    "https://x.supabase.co" "anon" operation (Some fallback) 0%nat
  = (Supabase.Returns (Some true), 11%nat) /\
  Supabase.executeSupabaseOperation "" "anon" operation (Some fallback) 0%nat
  = (Supabase.Returns (Some true), 10%nat) /\
  exists result st',
    Supabase.executeSupabaseOperation (F := Empty_set)
      "https://x.supabase.co" "anon" operation None 0%nat
    = (Supabase.Returns result, st').
Proof.
  intros operation fallback. split_and!.
  - pose proof (executeSupabaseOperation_outcome
                  "https://x.supabase.co" "anon" operation (Some fallback)
                  0%nat) as (_ & _ & Hrun & _).
    destruct (Hrun eq_refl) as [_ Hthrows].
    destruct (Hthrows _ _ eq_refl) as [Hvalue _].
    exact (Hvalue _ _ eq_refl).
  - pose proof (executeSupabaseOperation_outcome
                  "" "anon" operation (Some fallback) 0%nat)
      as (_ & Hskip & _).
    destruct (Hskip eq_refl) as [Hvalue _].
    exact (Hvalue _ _ eq_refl).
  - by apply (executeSupabaseOperation_outcome (F := Empty_set)
                "https://x.supabase.co" "anon" operation None 0%nat).
Defined.

(** X20. [signIn] and [signUp] return normally exactly when both
    credentials are set and the remote call resolves without an error.
    Without credentials they throw the error for missing credentials; in
    every other case, a wrong password as much as a lost connection, they
    throw the connectivity error of the fallback.  The error made after a
    falsy result is never thrown. *)
Theorem signIn_outcome (url key : string)
    (remote : Supabase.completion Supabase.JsError
                (option Supabase.JsError)) :
  let outcome :=
    if Supabase.isSupabaseConfigured url key
    then match remote with
         | Supabase.Returns None => Supabase.Returns tt
         | _ => Supabase.Throws AuthContext.ConnectivityError
         end
    else Supabase.Throws AuthContext.NotConfigured in
  AuthContext.signIn url key remote = outcome /\
  AuthContext.signUp url key remote = outcome /\
  AuthContext.signIn url key remote
    <> Supabase.Throws AuthContext.NoResult.
Proof.
  unfold AuthContext.signIn, AuthContext.signUp,
    Supabase.executeSupabaseOperation.
  destruct (Supabase.isSupabaseConfigured url key); cbn [negb]; [|done].
  destruct remote as [[error|]|error]; cbn; [|done|];
    by destruct (Supabase.is_network_error error).
Qed.

(** X21. [signOut] never throws.  It leaves the [user] state as it is
    when both credentials are set and the remote sign-out resolves
    without an error, and sets it to [null] in every other case; the
    test of a falsy result after the call never fires. *)
Theorem signOut_outcome {User : Type} (url key : string)
    (remote : Supabase.completion Supabase.JsError
                (option Supabase.JsError))
    (user : option User) :
  AuthContext.signOut url key remote user
  = (Supabase.Returns tt,
     if Supabase.isSupabaseConfigured url key
     then match remote with
          | Supabase.Returns None => user
          | _ => None
          end
     else None).
Proof.
  unfold AuthContext.signOut, Supabase.executeSupabaseOperation.
  destruct (Supabase.isSupabaseConfigured url key); cbn [negb]; [|done].
  destruct remote as [[error|]|error]; cbn; [|done|];
    by destruct (Supabase.is_network_error error).
Qed.

Example network_error_is_recognised :
  Supabase.is_network_error
    (Supabase.mkJsError (Some "TypeError: Failed to fetch") None) = true /\
  Supabase.is_network_error
    (Supabase.mkJsError (Some "Invalid login credentials") None) = false /\
  Supabase.is_network_error
    (Supabase.mkJsError None (Some "NETWORK_ERROR")) = true.
Proof. by vm_compute. Qed.

(** * Further compositions of the storage calls *)

Section Compositions.

Implicit Types (s : LocalStorage) (id : string).

Lemma find_None_list_find {A} (P : A -> Prop) `{!forall x, Decision (P x)}
    (l : list A) :
  find P l = None -> list_find P l = None.
Proof. unfold find. by destruct (list_find P l). Qed.

Lemma delete_last {A} (l : list A) (x : A) :
  delete (length l) (l ++ [x]) = l.
Proof. induction l as [|y l IH]; [done|]. cbn. f_equal. exact IH. Qed.

Lemma list_find_snoc_fresh {A} (P : A -> Prop) `{!forall x, Decision (P x)}
    (l : list A) (x : A) :
  list_find P l = None -> P x ->
  list_find P (l ++ [x]) = Some (length l, x).
Proof.
  intros Hl Hx. rewrite list_find_app_r by done. cbn [list_find].
  by rewrite decide_True.
Qed.

End Compositions.

(** X22. [updatePlan] and [updatePlanSync] return the same value and
    store the same plans for the same arguments; unless the update gives
    a [completedTasks] longer than the stored one, they also leave the
    same activity log, so the same store. *)
Theorem update_variants_agree (now : Z) (e1 e2 : Stamp)
    (remote : settled unit) (id : string) (updates : Partial.t)
    (s : LocalStorage) :
  result (updatePlan now e1 e2 remote id updates) s
    = result (updatePlanSync now e1 e2 id updates) s /\
  ddplanner_study_plans (after (updatePlan now e1 e2 remote id updates) s)
    = ddplanner_study_plans (after (updatePlanSync now e1 e2 id updates) s) /\
  (completedTasks_grow id updates s = false ->
   updatePlan now e1 e2 remote id updates s
   = updatePlanSync now e1 e2 id updates s).
Proof.
  unfold completedTasks_grow, find, result at 1 2, after.
  destruct (list_find (fun plan => StoredStudyPlan.id plan = id)
              (result getAllPlans s)) as [[i p]|] eqn:E.
  - rewrite (updatePlan_found _ _ _ _ _ _ _ _ _ E),
      (updatePlanSync_found _ _ _ _ _ _ _ _ E).
    cbn [fst snd fmap option_fmap option_map].
    split; [done|]. split; [by rewrite !log_completed_plans|].
    unfold after.
    destruct (Partial.completedTasks updates) as [tasks|] eqn:Hu.
    + intros Hgrow. apply bool_decide_eq_false in Hgrow.
      rewrite (merge_completedTasks _ _ _ _ Hu).
      rewrite !(log_completed_same _ _ _ tasks) by (done || lia). done.
    + intros _. by rewrite !(log_completed_none _ _ _ _ _ _ Hu).
  - destruct (updatePlan_missing now e1 e2 remote _ updates _ E)
      as [-> ->]. done.
Qed.

Lemma update_variants_agree_witness :
  let s := mkLocalStorage (Json [sample_plan "a" ["t1"]]) Absent in
  let e := mkStamp 20 "0.p7c2m4n8bq1" 20 in
  let updates := Partial.only_completedTasks [] in
  completedTasks_grow "a" updates s = false /\
  updatePlan 20 e e Rejected "a" updates s
  = updatePlanSync 20 e e "a" updates s.
Proof.
  intros s e updates. split; [reflexivity|].
  by apply (update_variants_agree 20 e e Rejected "a" updates s).
Defined.

(** X23. A plan that was just saved can be deleted again: when no stored
    plan had the new id before and the id has no white space at its ends,
    [deletePlan] of the id that [savePlan] returned gives [true] and the
    stored plans are again what they were before the save. *)
Theorem save_then_delete (e ea : Stamp) (remote remote' : settled unit)
    (planData : PlanData.t) (s : LocalStorage) :
  let saved_store := after (savePlan e ea remote planData) s in
  let i := result (savePlan e ea remote planData) s in
  result (getPlanById i) s = None ->
  Js.trim i = i ->
  result (deletePlan remote' i) saved_store = true /\
  result getAllPlans (after (deletePlan remote' i) saved_store)
    = result getAllPlans s.
Proof.
  intros saved_store i. subst saved_store i.
  rewrite savePlan_result, savePlan_after, getPlanById_find.
  intros Hfresh Htrim. apply find_None_list_find in Hfresh.
  assert (deletePlan remote' (make_id "plan" e)
            (after (savePlanSync e ea planData) s)
          = (true,
             mkLocalStorage (Json (result getAllPlans s))
               (ddplanner_activity_log
                  (after (savePlanSync e ea planData) s)))) as Hrun.
  { rewrite deletePlan_run, Htrim.
    rewrite decide_False
      by (intros [H|H]; by apply (make_id_not_empty e)).
    rewrite (deleteFromLocalStorage_found _ _
               (length (result getAllPlans s))
               (new_plan planData (make_id "plan" e) (new_date e))).
    - by rewrite savePlanSync_plans, delete_last.
    - rewrite savePlanSync_plans. by apply list_find_snoc_fresh. }
  split.
  - unfold result. by rewrite Hrun.
  - unfold after at 1. by rewrite Hrun.
Qed.

Lemma save_then_delete_witness :
  let s := mkLocalStorage (Json [sample_plan "plan_1_a" []]) Absent in
  let e := mkStamp 1700000000000 "0.k3j9x0q1zd8" 1700000000001 in
  let data := sample_data "Plano B" "2 horas" [] in
  result getAllPlans
    (after (deletePlan Rejected "plan_1700000000000_k3j9x0q1z")
           (after (savePlan e e Rejected data) s))
  = [sample_plan "plan_1_a" []].
Proof.
  intros s e data.
  apply (save_then_delete e e Rejected Rejected data s); by vm_compute.
Defined.

(** X24. When the stored ids are pairwise distinct, a second
    [deletePlan(id)] right after a first one returns [false] and changes
    nothing, whether the first one found the plan or not. *)
Theorem deletePlan_twice (remote remote' : settled unit) (id : string)
    (s : LocalStorage) :
  NoDup (stored_ids s) ->
  deletePlan remote' id (after (deletePlan remote id) s)
  = (false, after (deletePlan remote id) s).
Proof.
  intros Hnd. unfold after. rewrite !deletePlan_run.
  case_decide; [done|].
  destruct (list_find (fun plan => StoredStudyPlan.id plan = Js.trim id)
              (result getAllPlans s)) as [[i p]|] eqn:E.
  - rewrite (deleteFromLocalStorage_found _ _ _ _ E). cbn [snd].
    apply deleteFromLocalStorage_missing.
    apply list_find_Some in E as (Hi & Hp & _).
    apply list_find_None. rewrite <- Hp.
    by apply delete_other_ids.
  - rewrite (deleteFromLocalStorage_missing _ _ E). cbn [snd].
    by apply deleteFromLocalStorage_missing.
Qed.

Lemma deletePlan_twice_witness :
  let s := mkLocalStorage (Json [sample_plan "a" []; sample_plan "b" []])
                          Absent in
  result (deletePlan Rejected "a") (after (deletePlan Rejected "a") s)
  = false.
Proof.
  intros s. unfold result.
  rewrite (deletePlan_twice Rejected Rejected "a" s); [done|compute_done].
Defined.
